(** * Flavory recipe finder: cache, usage ledger, local matcher and façade

    A shallow embedding of
      - [CacheManager]            (utils/cacheManager.js),
      - [APIUsageManager]         (utils/apiUsageManager.js),
      - [RecipeService]           (services/recipeService.js)
    together with the properties of the caching / quota-governance layer.

    Conventions of the embedding.
      - JavaScript strings are modelled by [string] (sequences of 8-bit
        characters); [toLowerCase] and the [\s] class act on ASCII.
      - JavaScript numbers that only ever hold integers (time stamps,
        counters, sizes) are [Z]; the few fractional quantities (usage
        percentage, match score) are exact rationals [Q] standing for the
        IEEE doubles of the source.
      - [Date.now()] and [new Date()] read a clock.  The clock is an oracle
        [clk : nat -> Z]: the [n]-th reading made by the program returns
        [clk n]; the number of readings made so far is threaded through
        every stateful operation.
      - A [Map] is an association list in insertion order with pairwise
        distinct keys; an object used as a record of options is an
        association list in property order. *)

From Stdlib Require Import ZArith QArith Qround Qabs Qpower Lqa List Permutation Sorting.Sorted
  Ascii String Lia.
From stdpp Require Import base tactics option list strings gmap pretty.
Import ListNotations.

Set Default Proof Using "Type".
Set Warnings "-register-all".


(** ** JavaScript strings *)

Module JsString.

Local Open Scope string_scope.

(** [c.toLowerCase()] on one ASCII character. *)
Definition lower_ascii (c : ascii) : ascii :=
  let n := nat_of_ascii c in
  if (Nat.leb 65 n && Nat.leb n 90)%bool then ascii_of_nat (n + 32) else c.

(** [String.prototype.toLowerCase]. *)
Fixpoint toLowerCase (s : string) : string :=
  match s with
  | EmptyString => EmptyString
  | String c s' => String (lower_ascii c) (toLowerCase s')
  end.

(** [s.includes(t)]: [t] occurs in [s] as a contiguous substring. *)
Fixpoint includes (s t : string) : bool :=
  if String.prefix t s then true
  else match s with
       | EmptyString => false
       | String _ s' => includes s' t
       end.

(** The class [\s] of the regular expressions, on ASCII. *)
Definition is_space (c : ascii) : bool :=
  let n := nat_of_ascii c in
  (Nat.leb 9 n && Nat.leb n 13)%bool || Nat.eqb n 32.

(** [s.replace(/\s+/g, '')]. *)
Fixpoint stripWhitespace (s : string) : string :=
  match s with
  | EmptyString => EmptyString
  | String c s' => if is_space c then stripWhitespace s' else String c (stripWhitespace s')
  end.

(** Truthiness of a string: every string but the empty one. *)
Definition nonEmpty (s : string) : bool :=
  match s with EmptyString => false | _ => true end.

(** [xs.join(sep)]. *)
Fixpoint join (sep : string) (xs : list string) : string :=
  match xs with
  | [] => EmptyString
  | [x] => x
  | x :: rest => x +:+ sep +:+ join sep rest
  end.

(** [s.trimStart()], [s.trimEnd()] and [s.trim()], on ASCII. *)
Fixpoint trimStart (s : string) : string :=
  match s with
  | EmptyString => EmptyString
  | String c s' => if is_space c then trimStart s' else s
  end.

Fixpoint trimEnd (s : string) : string :=
  match s with
  | EmptyString => EmptyString
  | String c s' =>
      match trimEnd s' with
      | EmptyString => if is_space c then EmptyString else String c EmptyString
      | t => String c t
      end
  end.

Definition trim (s : string) : string := trimEnd (trimStart s).

End JsString.

(** ** [Array.prototype.sort]

    The sort of the language is stable.  For a comparator that is a
    consistent ordering every stable sort returns the same array, so the
    embedding fixes one: insertion from the right, an element going in front
    of the first element it does not exceed. *)

Module JsSort.

Section Sort.
Context {A : Type}.
(** [le a b] holds when the comparator does not order [a] after [b]
    (for [(a, b) => f(a) - f(b)]: [f a <= f b]). *)
Variable le : A -> A -> bool.

Fixpoint insert (x : A) (l : list A) : list A :=
  match l with
  | [] => [x]
  | y :: l' => if le x y then x :: y :: l' else y :: insert x l'
  end.

Fixpoint sort (l : list A) : list A :=
  match l with
  | [] => []
  | x :: l' => insert x (sort l')
  end.
End Sort.

End JsSort.

(** ** JavaScript values, objects and [JSON.stringify] *)

Module Js.

Import JsString.
Local Open Scope string_scope.

(** The values that travel through the option objects of the façade.
    Numbers are the integers. *)
Inductive JsValue : Type :=
| JUndefined
| JNull
| JBool (b : bool)
| JNum (z : Z)
| JStr (s : string)
| JArr (items : list JsValue)
| JObj (props : list (string * JsValue)).

(** An object: its own enumerable properties in property order. *)
Definition JsObject : Type := list (string * JsValue).

(** Truthiness ([if (v)], [v && ...], [v || ...]). *)
Definition truthy (v : JsValue) : bool :=
  match v with
  | JUndefined | JNull => false
  | JBool b => b
  | JNum z => negb (z =? 0)%Z
  | JStr s => nonEmpty s
  | JArr _ | JObj _ => true
  end.

(** [o[k]]. *)
Fixpoint obj_get (k : string) (o : JsObject) : JsValue :=
  match o with
  | [] => JUndefined
  | (k', v) :: o' => if String.eqb k k' then v else obj_get k o'
  end.

Definition obj_has (k : string) (o : JsObject) : bool :=
  existsb (fun p => String.eqb k (fst p)) o.

Definition is_digit (c : ascii) : bool :=
  let n := nat_of_ascii c in (Nat.leb 48 n && Nat.leb n 57)%bool.

Fixpoint digits_value (acc : N) (s : string) : option N :=
  match s with
  | EmptyString => Some acc
  | String c s' =>
      if is_digit c
      then digits_value (acc * 10 + N.of_nat (nat_of_ascii c - 48))%N s'
      else None
  end.

(** A property name is an array index when it is the canonical decimal
    form of an integer below 2^32 - 1; such properties are enumerated
    first, in ascending numeric order. *)
Definition array_index (k : string) : option N :=
  match k with
  | EmptyString => None
  | _ =>
      match digits_value 0%N k with
      | Some n => if (String.eqb (pretty n) k && (n <? 4294967295)%N)%bool then Some n else None
      | None => None
      end
  end.

Fixpoint obj_replace (k : string) (v : JsValue) (o : JsObject) : JsObject :=
  match o with
  | [] => []
  | (k', v') :: o' => if String.eqb k k' then (k', v) :: o' else (k', v') :: obj_replace k v o'
  end.

Fixpoint obj_add_index (i : N) (k : string) (v : JsValue) (o : JsObject) : JsObject :=
  match o with
  | [] => [(k, v)]
  | (k', v') :: o' =>
      match array_index k' with
      | Some j => if (j <? i)%N then (k', v') :: obj_add_index i k v o' else (k, v) :: o
      | None => (k, v) :: o
      end
  end.

(** [o[k] = v]: an existing property keeps its place, a new one is
    enumerated after the existing ones (array indices apart). *)
Definition obj_set (k : string) (v : JsValue) (o : JsObject) : JsObject :=
  if obj_has k o then obj_replace k v o
  else match array_index k with
       | Some i => obj_add_index i k v o
       | None => (o ++ [(k, v)])%list
       end.

(** [Object.keys(o)]. *)
Definition keys (o : JsObject) : list string := map fst o.

(** [{ ...o1, ...o2 }] continued from [o1]. *)
Definition spread (o1 o2 : JsObject) : JsObject :=
  fold_left (fun acc p => obj_set (fst p) (snd p) acc) o2 o1.

Definition dquote : string := String "034"%char EmptyString.
Definition backslash : string := String "092"%char EmptyString.

Definition hex_digit (n : nat) : ascii :=
  if Nat.ltb n 10 then ascii_of_nat (48 + n) else ascii_of_nat (87 + n).

(** The escape of one character inside a JSON string. *)
Definition json_escape (c : ascii) : string :=
  let n := nat_of_ascii c in
  if Nat.eqb n 34 then backslash +:+ dquote
  else if Nat.eqb n 92 then backslash +:+ backslash
  else if Nat.eqb n 8 then backslash +:+ "b"
  else if Nat.eqb n 12 then backslash +:+ "f"
  else if Nat.eqb n 10 then backslash +:+ "n"
  else if Nat.eqb n 13 then backslash +:+ "r"
  else if Nat.eqb n 9 then backslash +:+ "t"
  else if Nat.ltb n 32
       then backslash +:+ "u00" +:+ String (hex_digit (n / 16)) (String (hex_digit (n mod 16)) EmptyString)
       else String c EmptyString.

Fixpoint json_escape_all (s : string) : string :=
  match s with
  | EmptyString => EmptyString
  | String c s' => json_escape c +:+ json_escape_all s'
  end.

Definition json_quote (s : string) : string :=
  dquote +:+ json_escape_all s +:+ dquote.

(** [JSON.stringify(v)]; [None] is the result [undefined].  A property
    whose value serialises to [undefined] is left out of its object, an
    array element of that kind is written [null]. *)
Fixpoint stringify (v : JsValue) : option string :=
  match v with
  | JUndefined => None
  | JNull => Some "null"
  | JBool b => Some (if b then "true" else "false")
  | JNum z => Some (pretty z)
  | JStr s => Some (json_quote s)
  | JArr items =>
      Some ("[" +:+ join "," (map (fun x => default "null" (stringify x)) items) +:+ "]")
  | JObj props =>
      Some ("{" +:+
            join "," (concat (map (fun p =>
                                     match stringify (snd p) with
                                     | Some t => [json_quote (fst p) +:+ ":" +:+ t]
                                     | None => []
                                     end) props)) +:+ "}")
  end.

(** A value inside a template literal. *)
Definition interpolate (o : option string) : string := default "undefined" o.

(** The default [sort()] of an array of strings: ascending code units. *)
Definition sortStrings (l : list string) : list string := JsSort.sort String.leb l.

End Js.

(** ** CacheManager: key generation *)

Module CacheKey.

Import Js.
Local Open Scope string_scope.

(** [generateKey(endpoint, params)]:
    the keys are sorted, the parameters are copied into a fresh object in
    that order, and the object is serialised after the endpoint. *)
Definition generateKey (endpoint : string) (params : JsObject) : string :=
  let sortedParams :=
    fold_left (fun result key => obj_set key (obj_get key params) result)
              (sortStrings (keys params)) [] in
  endpoint +:+ ":" +:+ interpolate (stringify (JObj sortedParams)).

End CacheKey.

(** ** Computations that read the clock

    A computation over a component state [S] receives the number of clock
    readings made so far and the state, and returns its result with both
    updated. *)

Module Clocked.

Definition M (St A : Type) : Type := nat -> St -> A * nat * St.

Definition ret {St A} (a : A) : M St A := fun n s => (a, n, s).

Definition bind {St A B} (m : M St A) (k : A -> M St B) : M St B :=
  fun n s => let '(a, n', s') := m n s in k a n' s'.

Definition gets {St A} (f : St -> A) : M St A := fun n s => (f s, n, s).

Definition modify {St} (f : St -> St) : M St unit := fun n s => (tt, n, f s).

(** Run a computation of a component inside a larger state. *)
Definition zoom {St T A} (proj : T -> St) (inj : St -> T -> T) (m : M St A) : M T A :=
  fun n t => let '(a, n', s') := m n (proj t) in (a, n', inj s' t).

Definition result {St A} (r : A * nat * St) : A := fst (fst r).
Definition readings {St A} (r : A * nat * St) : nat := snd (fst r).
Definition final {St A} (r : A * nat * St) : St := snd r.

Module Notations.
Notation "'let*' x ':=' m 'in' k" := (bind m (fun x => k))
  (at level 10, x name, m at level 100, k at level 200).
Notation "'do' m 'in' k" := (bind m (fun _ => k))
  (at level 10, m at level 100, k at level 200).
End Notations.

Section Clock.
Variable clk : nat -> Z.

(** [Date.now()]. *)
Definition dateNow {St} : M St Z := fun n s => (clk n, S n, s).

(** No two readings of the clock are further apart than [span]
    milliseconds. *)
Definition within (span : Z) : Prop := forall i j, (clk j <= clk i + span)%Z.
End Clock.

End Clocked.

(** ** CacheManager *)

Module CacheManager.

Import Clocked Clocked.Notations.
Local Open Scope Z_scope.

Section Cache.
Variable clk : nat -> Z.
(** The type of the cached payloads. *)
Context {D : Type}.

Record CacheItem : Type := mkItem {
  data : D;
  expiresAt : Z;
  lastAccessed : Z;
  createdAt : Z }.

(** [this.cache]: a [Map] from key to item, in insertion order. *)
Definition Cache : Type := list (string * CacheItem).

Definition maxCacheSize : Z := 100.
Definition defaultTTL : Z := 30 * 60 * 1000.

(** [Map.prototype.get]. *)
Fixpoint map_get (key : string) (c : Cache) : option CacheItem :=
  match c with
  | [] => None
  | (k, item) :: c' => if String.eqb key k then Some item else map_get key c'
  end.

(** [Map.prototype.delete]. *)
Definition map_delete (key : string) (c : Cache) : Cache :=
  List.filter (fun e => negb (String.eqb key (fst e))) c.

Fixpoint map_replace (key : string) (item : CacheItem) (c : Cache) : Cache :=
  match c with
  | [] => []
  | (k, old) :: c' =>
      if String.eqb key k then (k, item) :: c' else (k, old) :: map_replace key item c'
  end.

(** [Map.prototype.set]: a present key keeps its position. *)
Definition map_set (key : string) (item : CacheItem) (c : Cache) : Cache :=
  match map_get key c with
  | Some _ => map_replace key item c
  | None => c ++ [(key, item)]
  end.

(** [this.cache.size]. *)
Definition size (c : Cache) : Z := Z.of_nat (length c).

(** The invariant of [this.cache]: the keys of a [Map] are pairwise
    distinct, and there are no more entries than the capacity. *)
Definition cache_ok (c : Cache) : Prop :=
  List.NoDup (map fst c) /\ size c <= maxCacheSize.

(** [now > item.expiresAt] for an entry of the map. *)
Definition expiredAt (now : Z) (e : string * CacheItem) : bool := now >? expiresAt (snd e).

(** The entries that have not expired at [now]. *)
Definition liveAt (now : Z) (c : Cache) : Cache :=
  List.filter (fun e => negb (expiredAt now e)) c.

(** The entries of [c] accessed strictly before [e] was. *)
Definition stalerThan (e : string * CacheItem) (c : Cache) : Cache :=
  List.filter (fun x => lastAccessed (snd x) <? lastAccessed (snd e)) c.

Definition touch (t : Z) (item : CacheItem) : CacheItem :=
  {| data := data item; expiresAt := expiresAt item;
     lastAccessed := t; createdAt := createdAt item |}.

(** [get(key)]. *)
Definition get (key : string) : M Cache (option D) :=
  let* cached := gets (map_get key) in
  match cached with
  | None => ret None
  | Some item =>
      let* now := dateNow clk in
      if now >? expiresAt item then
        do modify (map_delete key) in ret None
      else
        let* t := dateNow clk in
        do modify (map_replace key (touch t item)) in
        ret (Some (data item))
  end.

(** The first pass of [cleanup]: [entries.forEach] deleting what has
    expired, over the snapshot [entries]. *)
Definition removeExpired (now : Z) (entries : Cache) (c : Cache) : Cache :=
  fold_left (fun acc e => if now >? expiresAt (snd e) then map_delete (fst e) acc else acc)
            entries c.

(** [Math.floor(this.maxCacheSize * 0.3)]. *)
Definition lruBatch : nat := Z.to_nat (maxCacheSize * 3 / 10).

(** The comparator [(a, b) => a[1].lastAccessed - b[1].lastAccessed]
    does not put [a] after [b]. *)
Definition leLastAccessed (a b : string * CacheItem) : bool :=
  lastAccessed (snd a) <=? lastAccessed (snd b).

(** [entries.sort((a, b) => a[1].lastAccessed - b[1].lastAccessed)]. *)
Definition sortByLastAccessed (entries : Cache) : Cache :=
  JsSort.sort leLastAccessed entries.

(** The entry [v] is stored under the key of [x]. *)
Definition sameKey (x v : string * CacheItem) : bool := String.eqb (fst v) (fst x).

(** The entries the second pass of [cleanup] deletes. *)
Definition itemsToRemove (c : Cache) : Cache :=
  firstn lruBatch (sortByLastAccessed c).

Definition removeAll (victims : Cache) (c : Cache) : Cache :=
  fold_left (fun acc e => map_delete (fst e) acc) victims c.

(** [cleanup()]. *)
Definition cleanup : M Cache unit :=
  let* now := dateNow clk in
  let* entries := gets id in
  do modify (removeExpired now entries) in
  let* sz := gets size in
  if sz >=? maxCacheSize then
    let* victims := gets itemsToRemove in
    modify (removeAll victims)
  else ret tt.

(** [set(key, data, ttl)]. *)
Definition set (key : string) (d : D) (ttl : Z) : M Cache unit :=
  let* sz := gets size in
  do (if sz >=? maxCacheSize then cleanup else ret tt) in
  let* t1 := dateNow clk in
  let* t2 := dateNow clk in
  let* t3 := dateNow clk in
  modify (map_set key {| data := d; expiresAt := t1 + ttl; lastAccessed := t2; createdAt := t3 |}).

(** [clear()]. *)
Definition clear : M Cache unit := modify (fun _ => []).

(** [has(key)]. *)
Definition has (key : string) : M Cache bool :=
  let* r := get key in ret (match r with Some _ => true | None => false end).

(** A call made on a cache by its client. *)
Inductive Call : Type :=
| CallSet (key : string) (d : D) (ttl : Z)
| CallGet (key : string).

Definition perform (c : Call) : M Cache unit :=
  match c with
  | CallSet key d ttl => set key d ttl
  | CallGet key => do get key in ret tt
  end.

(** The calls of a list one after the other. *)
Fixpoint performAll (calls : list Call) : M Cache unit :=
  match calls with
  | [] => ret tt
  | c :: rest => do perform c in performAll rest
  end.

End Cache.

Section CacheTools.
Variable clk : nat -> Z.
(** [new RegExp(pattern)] followed by [regex.test]: [None] when the
    pattern is not a regular expression and the constructor throws,
    otherwise the test of the compiled expression on a key. *)
Variable regExp : string -> option (string -> bool).
Context {D : Type}.

(** The object returned by [getStats()]; [None] is [null]. *)
Record CacheStats : Type := mkCacheStats {
  totalItems : Z;
  validItems : Z;
  expiredItems : Z;
  oldestItem : option Z;
  newestItem : option Z }.

(** [Math.min(...xs)] and [Math.max(...xs)] of a non-empty array. *)
Definition minOf (x : Z) (xs : list Z) : Z := fold_left Z.min xs x.
Definition maxOf (x : Z) (xs : list Z) : Z := fold_left Z.max xs x.

(** [getStats()]. *)
Definition getStats : M (@Cache D) CacheStats :=
  let* now := dateNow clk in
  let* entries := gets (map snd) in
  let* total := gets size in
  ret {| totalItems := total;
         validItems := Z.of_nat (length (List.filter (fun item => now <=? expiresAt item) entries));
         expiredItems := Z.of_nat (length (List.filter (fun item => now >? expiresAt item) entries));
         oldestItem := match map createdAt entries with
                       | [] => None
                       | x :: xs => Some (minOf x xs)
                       end;
         newestItem := match map createdAt entries with
                       | [] => None
                       | x :: xs => Some (maxOf x xs)
                       end |}.

(** [invalidatePattern(pattern)]; [None] is the exception of the
    constructor of the regular expression. *)
Definition invalidatePattern (pattern : string) : M (@Cache D) (option Z) :=
  match regExp pattern with
  | None => ret None
  | Some test =>
      let* keysToDelete := gets (fun c => List.filter test (map fst c)) in
      do modify (fun c => fold_left (fun acc key => map_delete key acc) keysToDelete c) in
      ret (Some (Z.of_nat (length keysToDelete)))
  end.

End CacheTools.

(** The time-to-live table [CACHE_TTL]. *)
Definition SEARCH_RESULTS : Z := 15 * 60 * 1000.
Definition RECIPE_DETAILS : Z := 60 * 60 * 1000.
Definition FEATURED_RECIPES : Z := 30 * 60 * 1000.
Definition RANDOM_RECIPES : Z := 10 * 60 * 1000.
Definition CATEGORY_RESULTS : Z := 20 * 60 * 1000.

End CacheManager.

(** ** APIUsageManager: the usage ledger *)

Module APIUsageManager.

Import Clocked Clocked.Notations.
Local Open Scope Z_scope.

(** The record kept under the storage key [spoonacular_api_usage]. *)
Record UsageData : Type := mkUsage {
  date : string;
  calls : Z;
  endpoints : gmap string Z;
  lastReset : Z;
  errors : Z;
  cached : Z }.

(** What [localStorage.getItem] followed by [JSON.parse] meets: nothing,
    something that makes either of them throw, or a record. *)
Inductive Stored : Type :=
| Absent
| Corrupt
| Parsed (d : UsageData).

(** The storage: the slot of the ledger, and whether [setItem] succeeds. *)
Record Storage : Type := mkStorage {
  slot : Stored;
  writable : bool }.

Inductive UsageStatus : Type := Critical | Warning | Normal.

Record UsageStats : Type := mkStats {
  stat_calls : Z;
  stat_remaining : Z;
  stat_limit : Z;
  stat_usagePercent : Q;
  stat_date : string;
  stat_endpoints : gmap string Z;
  stat_errors : Z;
  stat_cached : Z;
  stat_status : UsageStatus;
  stat_canMakeCall : bool }.

Definition dailyLimit : Z := 150.
Definition warningThreshold : Q := 8 # 10.
Definition criticalThreshold : Q := 95 # 100.

(** [Math.round]: the nearest integer, a half going up. *)
Definition mathRound (q : Q) : Z := Qfloor (q + (1 # 2)).

Section Ledger.
Variable clk : nat -> Z.
(** [new Date(t).toDateString()] in the local time zone. *)
Variable toDateString : Z -> string.

(** All the readings of the clock fall on one calendar day. *)
Definition sameDay : Prop := forall i j, toDateString (clk i) = toDateString (clk j).

(** [new Date().toDateString()]. *)
Definition todayString : M Storage string :=
  let* t := dateNow clk in ret (toDateString t).

(** [createNewUsageData()]. *)
Definition createNewUsageData : M Storage UsageData :=
  let* today := todayString in
  let* now := dateNow clk in
  ret {| date := today; calls := 0; endpoints := ∅; lastReset := now;
         errors := 0; cached := 0 |}.

(** [getUsageData()]. *)
Definition getUsageData : M Storage UsageData :=
  let* stored := gets slot in
  match stored with
  | Absent => createNewUsageData
  | Corrupt => createNewUsageData
  | Parsed data =>
      let* today := todayString in
      if negb (String.eqb (date data) today) then createNewUsageData
      else ret data
  end.

(** [saveUsageData(data)]. *)
Definition saveUsageData (data : UsageData) : M Storage unit :=
  modify (fun st => if writable st
                    then {| slot := Parsed data; writable := writable st |}
                    else st).

(** The names every object inherits from [Object.prototype].  Read as a
    key of the plain object [data.endpoints], such a name gives the
    inherited member and not [undefined]. *)
Definition inheritedNames : list string :=
  [ "constructor"; "hasOwnProperty"; "isPrototypeOf"; "propertyIsEnumerable";
    "toLocaleString"; "toString"; "valueOf"; "__proto__";
    "__defineGetter__"; "__defineSetter__"; "__lookupGetter__"; "__lookupSetter__" ].

(** The endpoint is a name whose entry in [data.endpoints] is a count or
    absent. *)
Definition ownName (endpoint : string) : bool :=
  negb (existsb (String.eqb endpoint) inheritedNames).

(** [recordCall(endpoint, success)].  The entry
    [(data.endpoints[endpoint] || 0) + 1] is the count of an endpoint for
    which [ownName] holds, as it does for ["/complexSearch"], the endpoint
    the service records; the other counters do not depend on the name. *)
Definition recordCall (endpoint : string) (success : bool) : M Storage UsageData :=
  let* data := getUsageData in
  let data' :=
    if success then
      {| date := date data;
         calls := calls data + 1;
         endpoints := <[endpoint := default 0 (endpoints data !! endpoint) + 1]> (endpoints data);
         lastReset := lastReset data;
         errors := errors data;
         cached := cached data |}
    else
      {| date := date data;
         calls := calls data;
         endpoints := endpoints data;
         lastReset := lastReset data;
         errors := errors data + 1;
         cached := cached data |} in
  do saveUsageData data' in
  ret data'.

(** [recordCacheHit()]. *)
Definition recordCacheHit : M Storage UsageData :=
  let* data := getUsageData in
  let data' :=
    {| date := date data; calls := calls data; endpoints := endpoints data;
       lastReset := lastReset data; errors := errors data;
       cached := cached data + 1 |} in
  do saveUsageData data' in
  ret data'.

(** [getUsageStatus(usagePercent)]. *)
Definition getUsageStatus (usagePercent : Q) : UsageStatus :=
  if Qle_bool (criticalThreshold * 100) usagePercent then Critical
  else if Qle_bool (warningThreshold * 100) usagePercent then Warning
  else Normal.

(** [getUsageStats()]. *)
Definition getUsageStats : M Storage UsageStats :=
  let* data := getUsageData in
  let usagePercent := ((inject_Z (calls data) / inject_Z dailyLimit) * 100)%Q in
  let remaining := Z.max 0 (dailyLimit - calls data) in
  ret {| stat_calls := calls data;
         stat_remaining := remaining;
         stat_limit := dailyLimit;
         stat_usagePercent := (inject_Z (mathRound (usagePercent * 100)) / 100)%Q;
         stat_date := date data;
         stat_endpoints := endpoints data;
         stat_errors := errors data;
         stat_cached := cached data;
         stat_status := getUsageStatus usagePercent;
         stat_canMakeCall := calls data <? dailyLimit |}.

(** [canMakeCall()]. *)
Definition canMakeCall : M Storage bool :=
  let* data := getUsageData in
  ret (calls data <? dailyLimit).

(** A storage on which nothing has been recorded yet: no record, or a
    record with no call and no cache hit. *)
Definition freshLedger (st : Storage) : Prop :=
  match slot st with
  | Parsed data => calls data = 0 /\ cached data = 0
  | _ => True
  end.

(** [resetUsage()]. *)
Definition resetUsage : M Storage UsageData :=
  let* newData := createNewUsageData in
  do saveUsageData newData in
  ret newData.

(** An entry of the array built by [getRecommendations()]. *)
Record Recommendation : Type := mkRecommendation {
  rec_type : string;
  rec_message : string;
  rec_priority : string }.

Definition highUsage : Recommendation :=
  {| rec_type := "high_usage";
     rec_message := "Consider using cached results or local fallback recipes";
     rec_priority := "high" |}.

Definition manyErrors : Recommendation :=
  {| rec_type := "errors";
     rec_message := "Multiple API errors detected. Check your internet connection";
     rec_priority := "medium" |}.

Definition lowCache : Recommendation :=
  {| rec_type := "low_cache";
     rec_message := "Cache hit ratio is low. Consider increasing cache TTL";
     rec_priority := "low" |}.

(** [getRecommendations()]. *)
Definition getRecommendations : M Storage (list Recommendation) :=
  let* stats := getUsageStats in
  let recommendations := [] in
  let recommendations :=
    if negb (Qle_bool (stat_usagePercent stats) 70)
    then recommendations ++ [highUsage] else recommendations in
  let recommendations :=
    if stat_errors stats >? 5
    then recommendations ++ [manyErrors] else recommendations in
  let recommendations :=
    if negb (Qle_bool (inject_Z (stat_calls stats) * (3 # 10)) (inject_Z (stat_cached stats)))
    then recommendations ++ [lowCache] else recommendations in
  ret recommendations.

(** The object returned by [getTimeUntilReset()]. *)
Record TimeUntilReset : Type := mkTimeUntilReset {
  hours : Z;
  minutes : Z;
  milliseconds : Z }.

Definition msPerHour : Z := 1000 * 60 * 60.
Definition msPerMinute : Z := 1000 * 60.
Definition msPerDay : Z := 24 * msPerHour.

(** The time stamp of [tomorrow] once [setUTCDate(now.getUTCDate() + 1)]
    and [setUTCHours(0, 0, 0, 0)] have been applied to a copy of [now]:
    the first midnight of the time zone UTC after [now]. *)
Definition nextUTCMidnight (now : Z) : Z := (now / msPerDay + 1) * msPerDay.

(** [getTimeUntilReset()]. *)
Definition getTimeUntilReset : M Storage TimeUntilReset :=
  let* now := dateNow clk in
  let tomorrow := nextUTCMidnight now in
  let msUntilReset := tomorrow - now in
  ret {| hours := msUntilReset / msPerHour;
         minutes := Z.rem msUntilReset msPerHour / msPerMinute;
         milliseconds := msUntilReset |}.

(** The object returned by [getUsageTrends()]. *)
Record UsageTrends : Type := mkTrends {
  callsPerHour : Q;
  projectedDailyUsage : Z;
  cacheEfficiency : Z }.

(** [getUsageTrends()]. *)
Definition getUsageTrends : M Storage UsageTrends :=
  let* data := getUsageData in
  let* now := dateNow clk in
  let hoursSinceReset := (inject_Z (now - lastReset data) / inject_Z msPerHour)%Q in
  let positive := negb (Qle_bool hoursSinceReset 0) in
  ret {| callsPerHour :=
           if positive
           then (inject_Z (mathRound (inject_Z (calls data) / hoursSinceReset * 100)) / 100)%Q
           else 0%Q;
         projectedDailyUsage :=
           if positive
           then mathRound (inject_Z (calls data) / hoursSinceReset * 24)
           else 0;
         cacheEfficiency :=
           if calls data + cached data >? 0
           then mathRound (inject_Z (cached data) / inject_Z (calls data + cached data) * 100)
           else 0 |}.

(** The successes and the failures in a list of outcomes. *)
Definition successes (outcomes : list bool) : Z :=
  Z.of_nat (length (List.filter (fun b => b) outcomes)).

Definition failures (outcomes : list bool) : Z :=
  Z.of_nat (length (List.filter negb outcomes)).

(** The calls of [recordCall(endpoint, success)] for a list of outcomes,
    one after the other. *)
Fixpoint recordAll (endpoint : string) (outcomes : list bool) : M Storage unit :=
  match outcomes with
  | [] => ret tt
  | success :: rest => do recordCall endpoint success in recordAll endpoint rest
  end.

End Ledger.

End APIUsageManager.

(** ** Numbers: the arithmetic of doubles

    A finite value of the type Number is written as the rational it
    denotes.  Every arithmetic operation of the source gives the double
    nearest to its exact result, ties going to the even significand
    (IEEE 754 binary64: 53 bits of significand, least exponent -1074).
    Sums and differences of small integers are exact and are written as
    such.  Results stay far below the overflow threshold in the
    computations modelled here (ratios of array lengths, scores). *)

Module JsNumber.

Local Open Scope Q_scope.

Definition pow2 (e : Z) : Q := 2 ^ e.

(** The exponent [k] with [2^k <= q < 2^(k+1)], for a positive [q]. *)
Definition ilog2 (q : Q) : Z :=
  let k := (Z.log2 (Qnum q) - Z.log2 (Zpos (Qden q)))%Z in
  if Qle_bool (pow2 k) q then k else (k - 1)%Z.

(** The nearest integer, a tie going to the even one. *)
Definition roundEven (q : Q) : Z :=
  let f := Qfloor q in
  match Qcompare (q - inject_Z f) (1 # 2) with
  | Lt => f
  | Gt => (f + 1)%Z
  | Eq => if Z.even f then f else (f + 1)%Z
  end.

(** The exponent of the unit in the last place of the doubles around [q]. *)
Definition exponent (q : Q) : Z := Z.max (ilog2 (Qabs q) - 52) (-1074).

(** The double nearest to [q]. *)
Definition round (q : Q) : Q :=
  inject_Z (roundEven (q / pow2 (exponent q))) * pow2 (exponent q).

(** [a + b], [a * b] and [a / b] on doubles. *)
Definition add (a b : Q) : Q := round (a + b).
Definition mul (a b : Q) : Q := round (a * b).
Definition div (a b : Q) : Q := round (a / b).

End JsNumber.

(** ** RecipeService: the bundled catalog and the local matcher *)

Module LocalRecipes.

Import JsString Js.
Local Open Scope string_scope.
Local Open Scope Z_scope.

(** A recipe of the catalog (the image links and the price, which no
    operation below reads, are left out). *)
Record Recipe : Type := mkRecipe {
  id : Z;
  title : string;
  readyInMinutes : Z;
  servings : Z;
  summary : string;
  healthScore : Z;
  category : string;
  cuisine : string;
  vegetarian : bool }.

Definition recipeDatabase : list Recipe :=
  [ mkRecipe 1 "Paneer Butter Masala" 45 4
    "Rich and creamy tomato-based curry with soft paneer cubes, perfect with naan or rice."
    72 "Main Course - Vegetarian" "Indian" true;
    mkRecipe 2 "Palak Paneer" 40 4
    "Creamy spinach curry with paneer cubes, packed with iron and flavor."
    85 "Main Course - Vegetarian" "Indian" true;
    mkRecipe 3 "Dal Makhani" 90 6
    "Slow-cooked black lentils in rich, creamy tomato gravy - a North Indian classic."
    78 "Main Course - Vegetarian" "Indian" true;
    mkRecipe 4 "Veg Biryani" 60 6
    "Aromatic basmati rice layered with spiced vegetables and herbs."
    75 "Main Course - Vegetarian" "Indian" true;
    mkRecipe 5 "Chana Masala" 35 4
    "Spiced chickpea curry in tomato and onion gravy, a popular North Indian dish."
    82 "Main Course - Vegetarian" "Indian" true;
    mkRecipe 6 "Rajma" 60 4
    "Kidney beans cooked in spiced tomato gravy, perfect with rice."
    80 "Main Course - Vegetarian" "Indian" true;
    mkRecipe 7 "Baingan Bharta" 45 4
    "Smoky roasted eggplant cooked with onions, tomatoes, and spices."
    75 "Main Course - Vegetarian" "Indian" true;
    mkRecipe 8 "Aloo Gobi" 30 4
    "Dry curry of potatoes and cauliflower with aromatic spices."
    78 "Main Course - Vegetarian" "Indian" true;
    mkRecipe 9 "Kadai Paneer" 40 4
    "Paneer cooked with bell peppers and onions in spicy tomato gravy."
    73 "Main Course - Vegetarian" "Indian" true;
    mkRecipe 10 "Malai Kofta" 50 4
    "Deep-fried cottage cheese and potato balls in rich creamy tomato gravy."
    68 "Main Course - Vegetarian" "Indian" true;
    mkRecipe 61 "Classic Margherita Pizza" 25 4
    "Traditional Italian pizza with fresh mozzarella, tomatoes, and basil."
    65 "Main Course" "Italian" true;
    mkRecipe 62 "Spaghetti Carbonara" 20 4
    "Creamy Italian pasta with eggs, cheese, and pancetta."
    68 "Main Course" "Italian" false;
    mkRecipe 63 "Chicken Stir Fry" 15 4
    "Quick and healthy stir-fried chicken with mixed vegetables."
    82 "Main Course" "Asian" false;
    mkRecipe 64 "Caesar Salad" 10 2
    "Fresh romaine lettuce with parmesan cheese and classic caesar dressing."
    75 "Appetizer" "American" true;
    mkRecipe 65 "Chocolate Chip Cookies" 25 24
    "Classic homemade chocolate chip cookies, crispy outside and chewy inside."
    45 "Dessert" "American" true;
    mkRecipe 11 "Chicken Biryani" 75 6
    "Fragrant basmati rice layered with marinated chicken and aromatic spices."
    70 "Main Course - Non-Vegetarian" "Indian" false;
    mkRecipe 12 "Butter Chicken" 50 4
    "Tender chicken in rich, creamy tomato-based sauce with butter and cream."
    68 "Main Course - Non-Vegetarian" "Indian" false;
    mkRecipe 13 "Chicken Tikka Masala" 45 4
    "Grilled chicken tikka in spiced curry sauce with onions and peppers."
    72 "Main Course - Non-Vegetarian" "Indian" false;
    mkRecipe 14 "Rogan Josh" 90 6
    "Aromatic Kashmiri mutton curry with rich red gravy and traditional spices."
    75 "Main Course - Non-Vegetarian" "Indian" false;
    mkRecipe 15 "Chicken Curry" 40 4
    "Traditional chicken curry with onions, tomatoes, and aromatic spices."
    74 "Main Course - Non-Vegetarian" "Indian" false;
    mkRecipe 16 "Fish Curry" 35 4
    "Fresh fish cooked in coconut milk and spices, a coastal Indian delicacy."
    78 "Main Course - Non-Vegetarian" "Indian" false;
    mkRecipe 17 "Mutton Biryani" 120 8
    "Royal mutton biryani with aromatic basmati rice and tender meat pieces."
    72 "Main Course - Non-Vegetarian" "Indian" false;
    mkRecipe 18 "Chicken Korma" 55 4
    "Mild and creamy chicken curry with yogurt, nuts, and aromatic spices."
    70 "Main Course - Non-Vegetarian" "Indian" false;
    mkRecipe 19 "Tandoori Chicken" 60 4
    "Marinated chicken roasted in tandoor oven with yogurt and spices."
    76 "Main Course - Non-Vegetarian" "Indian" false;
    mkRecipe 20 "Keema Curry" 45 4
    "Spiced minced meat curry with peas and aromatic Indian spices."
    73 "Main Course - Non-Vegetarian" "Indian" false;
    mkRecipe 21 "Pani Puri" 30 4
    "Crispy hollow puris filled with spicy, tangy water and chutneys."
    60 "Street Food & Snacks" "Indian" true;
    mkRecipe 22 "Pav Bhaji" 40 4
    "Thick vegetable curry served with buttered bread rolls - Mumbai street food favorite."
    65 "Street Food & Snacks" "Indian" true;
    mkRecipe 23 "Samosa" 45 6
    "Crispy triangular pastries stuffed with spiced potatoes and peas."
    58 "Street Food & Snacks" "Indian" true;
    mkRecipe 24 "Dhokla" 25 4
    "Steamed savory cake made from fermented gram flour batter - Gujarati specialty."
    80 "Street Food & Snacks" "Indian" true;
    mkRecipe 25 "Chaat" 20 2
    "Mixed street food snack with chutneys, yogurt, and crispy sev."
    62 "Street Food & Snacks" "Indian" true;
    mkRecipe 26 "Vada Pav" 30 4
    "Deep-fried potato dumpling served in bread bun with chutneys - Mumbai's burger."
    55 "Street Food & Snacks" "Indian" true;
    mkRecipe 27 "Bhel Puri" 15 2
    "Crunchy puffed rice mixed with vegetables, chutneys, and sev."
    58 "Street Food & Snacks" "Indian" true;
    mkRecipe 28 "Dahi Puri" 20 4
    "Crispy puris topped with yogurt, chutneys, and spiced water."
    60 "Street Food & Snacks" "Indian" true;
    mkRecipe 29 "Aloo Tikki" 25 4
    "Crispy potato patties served with chutneys and yogurt."
    56 "Street Food & Snacks" "Indian" true;
    mkRecipe 30 "Kachori" 35 6
    "Deep-fried bread stuffed with spiced lentils or onions."
    54 "Street Food & Snacks" "Indian" true;
    mkRecipe 31 "Garlic Naan" 30 4
    "Soft, pillowy bread topped with garlic and cilantro, baked in tandoor."
    62 "Breads & Rice" "Indian" true;
    mkRecipe 32 "Aloo Paratha" 35 4
    "Stuffed flatbread with spiced potato filling, served with butter and yogurt."
    68 "Breads & Rice" "Indian" true;
    mkRecipe 33 "Jeera Rice" 20 4
    "Fragrant basmati rice tempered with cumin seeds and ghee."
    70 "Breads & Rice" "Indian" true;
    mkRecipe 34 "Butter Naan" 25 4
    "Classic tandoor bread brushed with butter, perfect with curries."
    60 "Breads & Rice" "Indian" true;
    mkRecipe 35 "Roti" 20 6
    "Traditional whole wheat flatbread, a staple of Indian cuisine."
    75 "Breads & Rice" "Indian" true;
    mkRecipe 36 "Pulao" 30 4
    "Aromatic rice dish cooked with whole spices and vegetables."
    72 "Breads & Rice" "Indian" true;
    mkRecipe 37 "Lemon Rice" 15 4
    "Tangy South Indian rice dish with lemon juice and curry leaves."
    68 "Breads & Rice" "Indian" true;
    mkRecipe 38 "Stuffed Kulcha" 40 4
    "Leavened bread stuffed with spiced onions or paneer."
    63 "Breads & Rice" "Indian" true;
    mkRecipe 39 "Coconut Rice" 25 4
    "Fragrant rice cooked with coconut milk and South Indian spices."
    70 "Breads & Rice" "Indian" true;
    mkRecipe 40 "Chapati" 15 6
    "Thin unleavened flatbread made from whole wheat flour."
    78 "Breads & Rice" "Indian" true;
    mkRecipe 41 "Gulab Jamun" 45 8
    "Deep-fried milk dumplings soaked in rose-flavored sugar syrup."
    45 "Desserts & Sweets" "Indian" true;
    mkRecipe 42 "Kheer" 60 6
    "Creamy rice pudding flavored with cardamom, nuts, and saffron."
    55 "Desserts & Sweets" "Indian" true;
    mkRecipe 43 "Jalebi" 30 6
    "Spiral-shaped deep-fried sweet soaked in saffron sugar syrup."
    40 "Desserts & Sweets" "Indian" true;
    mkRecipe 44 "Rasgulla" 40 8
    "Spongy cottage cheese balls cooked in light sugar syrup."
    50 "Desserts & Sweets" "Indian" true;
    mkRecipe 45 "Kulfi" 240 6
    "Traditional Indian ice cream made with reduced milk and cardamom."
    48 "Desserts & Sweets" "Indian" true;
    mkRecipe 46 "Laddu" 25 10
    "Sweet ball-shaped treats made from flour, ghee, and sugar."
    42 "Desserts & Sweets" "Indian" true;
    mkRecipe 47 "Halwa" 35 6
    "Dense sweet made from semolina, ghee, sugar, and nuts."
    44 "Desserts & Sweets" "Indian" true;
    mkRecipe 48 "Barfi" 30 12
    "Diamond-shaped milk fudge sweet flavored with cardamom and nuts."
    46 "Desserts & Sweets" "Indian" true;
    mkRecipe 49 "Payasam" 45 6
    "South Indian sweet pudding made with vermicelli and milk."
    52 "Desserts & Sweets" "Indian" true;
    mkRecipe 50 "Mysore Pak" 20 8
    "Traditional Karnataka sweet made from gram flour, ghee, and sugar."
    43 "Desserts & Sweets" "Indian" true ].

(** [v === s] for a string [s]. *)
Definition strictEqString (v : JsValue) (s : string) : bool :=
  match v with JStr t => String.eqb t s | _ => false end.

(** [v === b] for a boolean [b]. *)
Definition strictEqBool (v : JsValue) (b : bool) : bool :=
  match v with JBool c => Bool.eqb c b | _ => false end.

Definition isNullOrUndefined (v : JsValue) : bool :=
  match v with JNull | JUndefined => true | _ => false end.

(** The test [query && query !== 'random' && query !== 'similar'];
    [None] is a call without the argument. *)
Definition filtersByText (query : option string) : bool :=
  match query with
  | None => false
  | Some q => nonEmpty q && negb (String.eqb q "random") && negb (String.eqb q "similar")
  end.

Definition matchesText (q : string) (recipe : Recipe) : bool :=
  includes (toLowerCase (title recipe)) (toLowerCase q)
  || includes (toLowerCase (summary recipe)) (toLowerCase q).

Definition filtersByCategory (options : JsObject) : bool :=
  truthy (obj_get "category" options) && negb (strictEqString (obj_get "category" options) "all").

Definition filtersByVegetarian (options : JsObject) : bool :=
  negb (isNullOrUndefined (obj_get "vegetarian" options)).

(** [getLocalRecipes(query, options)]. *)
Definition getLocalRecipes (query : option string) (options : JsObject) : list Recipe :=
  let filteredRecipes := recipeDatabase in
  let filteredRecipes :=
    match query with
    | Some q =>
        if filtersByText query
        then List.filter (matchesText q) filteredRecipes
        else filteredRecipes
    | None => filteredRecipes
    end in
  let filteredRecipes :=
    if filtersByCategory options
    then List.filter (fun recipe => strictEqString (obj_get "category" options) (category recipe))
                     filteredRecipes
    else filteredRecipes in
  let filteredRecipes :=
    if filtersByVegetarian options
    then List.filter (fun recipe => strictEqBool (obj_get "vegetarian" options) (vegetarian recipe))
                     filteredRecipes
    else filteredRecipes in
  filteredRecipes.

(** An entry of an ingredient list. *)
Record Ingredient : Type := mkIngredient {
  ing_id : Z;
  name : string;
  original : string;
  amount : Q;
  ing_unit : string }.

Definition ingredients_1 : list Ingredient :=
  [ mkIngredient 1 "paneer" "400g paneer, cubed" (400 # 1) "g";
    mkIngredient 2 "tomatoes" "4 large tomatoes, chopped" (4 # 1) "large";
    mkIngredient 3 "onion" "2 medium onions, sliced" (2 # 1) "medium";
    mkIngredient 4 "heavy cream" "200ml heavy cream" (200 # 1) "ml";
    mkIngredient 5 "butter" "3 tbsp butter" (3 # 1) "tbsp";
    mkIngredient 6 "garam masala" "2 tsp garam masala" (2 # 1) "tsp";
    mkIngredient 7 "ginger-garlic paste" "2 tbsp ginger-garlic paste" (2 # 1) "tbsp" ].

Definition ingredients_2 : list Ingredient :=
  [ mkIngredient 1 "spinach" "500g fresh spinach leaves" (500 # 1) "g";
    mkIngredient 2 "paneer" "300g paneer, cubed" (300 # 1) "g";
    mkIngredient 3 "onion" "1 large onion, chopped" (1 # 1) "large";
    mkIngredient 4 "tomatoes" "2 medium tomatoes" (2 # 1) "medium";
    mkIngredient 5 "ginger-garlic paste" "2 tbsp ginger-garlic paste" (2 # 1) "tbsp";
    mkIngredient 6 "green chilies" "2 green chilies" (2 # 1) "chilies";
    mkIngredient 7 "cumin seeds" "1 tsp cumin seeds" (1 # 1) "tsp" ].

Definition ingredients_3 : list Ingredient :=
  [ mkIngredient 1 "black lentils" "200g black lentils (urad dal)" (200 # 1) "g";
    mkIngredient 2 "kidney beans" "50g kidney beans (rajma)" (50 # 1) "g";
    mkIngredient 3 "tomatoes" "3 large tomatoes, pureed" (3 # 1) "large";
    mkIngredient 4 "heavy cream" "150ml heavy cream" (150 # 1) "ml";
    mkIngredient 5 "butter" "4 tbsp butter" (4 # 1) "tbsp";
    mkIngredient 6 "garam masala" "2 tsp garam masala" (2 # 1) "tsp" ].

Definition ingredients_11 : list Ingredient :=
  [ mkIngredient 1 "basmati rice" "500g basmati rice" (500 # 1) "g";
    mkIngredient 2 "chicken" "750g chicken, cut into pieces" (750 # 1) "g";
    mkIngredient 3 "yogurt" "200ml plain yogurt" (200 # 1) "ml";
    mkIngredient 4 "onions" "3 large onions, thinly sliced" (3 # 1) "large";
    mkIngredient 5 "saffron" "1/2 tsp saffron strands" (5 # 10) "tsp";
    mkIngredient 6 "biryani masala" "3 tbsp biryani masala" (3 # 1) "tbsp";
    mkIngredient 7 "mint leaves" "1/2 cup fresh mint leaves" (5 # 10) "cup" ].

Definition ingredients_12 : list Ingredient :=
  [ mkIngredient 1 "chicken" "600g boneless chicken, cubed" (600 # 1) "g";
    mkIngredient 2 "tomatoes" "4 large tomatoes, pureed" (4 # 1) "large";
    mkIngredient 3 "heavy cream" "200ml heavy cream" (200 # 1) "ml";
    mkIngredient 4 "butter" "4 tbsp butter" (4 # 1) "tbsp";
    mkIngredient 5 "yogurt" "100ml plain yogurt" (100 # 1) "ml";
    mkIngredient 6 "garam masala" "2 tsp garam masala" (2 # 1) "tsp" ].

Definition ingredients_21 : list Ingredient :=
  [ mkIngredient 1 "puri shells" "30 ready-made puri shells" (30 # 1) "shells";
    mkIngredient 2 "tamarind" "2 tbsp tamarind paste" (2 # 1) "tbsp";
    mkIngredient 3 "mint leaves" "1 cup fresh mint leaves" (1 # 1) "cup";
    mkIngredient 4 "coriander leaves" "1/2 cup coriander leaves" (5 # 10) "cup";
    mkIngredient 5 "black salt" "1 tsp black salt" (1 # 1) "tsp";
    mkIngredient 6 "potatoes" "2 boiled potatoes, diced" (2 # 1) "potatoes" ].

Definition ingredients_31 : list Ingredient :=
  [ mkIngredient 1 "all-purpose flour" "2 cups all-purpose flour" (2 # 1) "cups";
    mkIngredient 2 "yogurt" "1/2 cup plain yogurt" (5 # 10) "cup";
    mkIngredient 3 "garlic" "6 cloves garlic, minced" (6 # 1) "cloves";
    mkIngredient 4 "butter" "3 tbsp melted butter" (3 # 1) "tbsp";
    mkIngredient 5 "baking powder" "1 tsp baking powder" (1 # 1) "tsp";
    mkIngredient 6 "cilantro" "2 tbsp chopped cilantro" (2 # 1) "tbsp" ].

Definition ingredients_41 : list Ingredient :=
  [ mkIngredient 1 "milk powder" "200g milk powder" (200 # 1) "g";
    mkIngredient 2 "plain flour" "50g plain flour" (50 # 1) "g";
    mkIngredient 3 "sugar" "400g sugar" (400 # 1) "g";
    mkIngredient 4 "cardamom" "4 green cardamom pods" (4 # 1) "pods";
    mkIngredient 5 "rose water" "1 tsp rose water" (1 # 1) "tsp";
    mkIngredient 6 "ghee" "For deep frying" (1 # 1) "cup" ].

(** [getRecipeIngredients(recipeId)]: [ingredients[recipeId] || ingredients[1]]. *)
Definition getRecipeIngredients (recipeId : Z) : list Ingredient :=
  if recipeId =? 1 then ingredients_1
  else if recipeId =? 2 then ingredients_2
  else if recipeId =? 3 then ingredients_3
  else if recipeId =? 11 then ingredients_11
  else if recipeId =? 12 then ingredients_12
  else if recipeId =? 21 then ingredients_21
  else if recipeId =? 31 then ingredients_31
  else if recipeId =? 41 then ingredients_41
  else ingredients_1.

Definition relatedGroups : list (list string) :=
  [ ["tomato"; "tomatoes"];
    ["onion"; "onions"];
    ["potato"; "potatoes"];
    ["chicken"; "poultry"];
    ["oil"; "ghee"; "butter"];
    ["yogurt"; "curd"; "dahi"];
    ["cilantro"; "coriander"; "dhania"];
    ["green chili"; "green chilies"; "chili"];
    ["garam masala"; "spice"; "spices"];
    ["rice"; "basmati rice"];
    ["flour"; "wheat flour"; "maida"];
    ["paneer"; "cottage cheese"];
    ["coconut"; "coconut milk"];
    ["ginger garlic"; "ginger"; "garlic"] ].

(** [areIngredientsRelated(ingredient1, ingredient2)]. *)
Definition areIngredientsRelated (ingredient1 ingredient2 : string) : bool :=
  let ing1 := toLowerCase ingredient1 in
  let ing2 := toLowerCase ingredient2 in
  if includes ing1 ing2 || includes ing2 ing1 then true
  else existsb (fun group =>
                  existsb (fun item => includes ing1 item) group
                  && existsb (fun item => includes ing2 item) group)
               relatedGroups.

Definition essentialIngredients : list string :=
  ["salt"; "oil"; "water"; "onion"; "garlic"; "ginger"].

(** A recipe with the outcome of the match. *)
Record ScoredRecipe : Type := mkScored {
  recipe : Recipe;
  matchScore : Q;
  matchedIngredients : list string;
  matchPercentage : Z;
  missingIngredients : list string;
  totalIngredients : Z }.

(** The local variables [score], [matchedIngredients], [essentialMissing]
    of the scoring callback. *)
Record Tally : Type := mkTally {
  score : Q;
  matched : list string;
  essentialMissing : list string }.

(** The name of a recipe ingredient as the first loop compares it. *)
Definition normalise (s : string) : string := stripWhitespace (toLowerCase s).

(** The callback of [ingredientNames.find] for one user ingredient. *)
Definition matchesName (userIngredient recipeIng : string) : bool :=
  let normalizedUserIngredient := normalise userIngredient in
  includes recipeIng normalizedUserIngredient
  || includes normalizedUserIngredient recipeIng
  || areIngredientsRelated userIngredient recipeIng.

(** [if (found)]: an element was found and it is not the empty string. *)
Definition found (ingredientNames : list string) (userIngredient : string) : bool :=
  match List.find (matchesName userIngredient) ingredientNames with
  | Some recipeIng => nonEmpty recipeIng
  | None => false
  end.

(** The body of [userIngredients.forEach]. *)
Definition checkUserIngredient (ingredientNames : list string) (t : Tally) (userIngredient : string) : Tally :=
  if found ingredientNames userIngredient
  then {| score := (score t + 2)%Q;
          matched := matched t ++ [userIngredient];
          essentialMissing := essentialMissing t |}
  else t.

Definition isEssential (ingredientName : string) : bool :=
  existsb (fun essential => includes ingredientName essential) essentialIngredients.

Definition userHasIngredient (userIngredients : list string) (ingredientName : string) : bool :=
  existsb (fun userIng => areIngredientsRelated userIng ingredientName) userIngredients.

(** The recipe ingredient costs a point. *)
Definition penalised (userIngredients : list string) (recipeIng : Ingredient) : bool :=
  let ingredientName := toLowerCase (name recipeIng) in
  negb (isEssential ingredientName) && negb (userHasIngredient userIngredients ingredientName).

(** The body of [recipeIngredients.forEach]. *)
Definition checkRecipeIngredient (userIngredients : list string) (t : Tally) (recipeIng : Ingredient) : Tally :=
  let ingredientName := toLowerCase (name recipeIng) in
  if negb (isEssential ingredientName) then
    if negb (userHasIngredient userIngredients ingredientName)
    then {| score := (score t - 1)%Q;
            matched := matched t;
            essentialMissing := essentialMissing t ++ [name recipeIng] |}
    else t
  else t.

(** [Math.max(0, x)]. *)
Definition mathMax0 (x : Q) : Q := if Qle_bool 0 x then x else 0%Q.

(** The callback of [allRecipes.map].  The two loops add and subtract
    small integers, exactly; the ratio, its products and the two sums that
    follow are operations on doubles. *)
Definition scoreRecipe (userIngredients : list string) (r : Recipe) : ScoredRecipe :=
  let recipeIngredients := getRecipeIngredients (id r) in
  let ingredientNames := map (fun ing => normalise (name ing)) recipeIngredients in
  let t0 := {| score := 0%Q; matched := []; essentialMissing := [] |} in
  let t1 := fold_left (checkUserIngredient ingredientNames) userIngredients t0 in
  let t2 := fold_left (checkRecipeIngredient userIngredients) recipeIngredients t1 in
  let matchPercentage :=
    JsNumber.div (inject_Z (Z.of_nat (length (matched t2))))
                 (inject_Z (Z.of_nat (length userIngredients))) in
  let score1 := JsNumber.add (score t2) (JsNumber.mul matchPercentage 5) in
  let score2 := if (Z.of_nat (length recipeIngredients) <=? 8) then JsNumber.add score1 2 else score1 in
  {| recipe := r;
     matchScore := mathMax0 score2;
     matchedIngredients := matched t2;
     matchPercentage := APIUsageManager.mathRound (JsNumber.mul matchPercentage 100);
     missingIngredients := firstn 5 (essentialMissing t2);
     totalIngredients := Z.of_nat (length recipeIngredients) |}.

(** The comparator [(a, b) => b.matchScore - a.matchScore] does not put
    [a] after [b]. *)
Definition geScore (a b : ScoredRecipe) : bool := Qle_bool (matchScore b) (matchScore a).

(** [findRecipesByIngredientsAdvanced(userIngredients, options)].
    With no user ingredient the ratio is [0/0 = NaN], every score is [NaN]
    and the filter [matchScore > 0] keeps nothing. *)
Definition findRecipesByIngredientsAdvanced (userIngredients : list string) (options : JsObject)
  : list ScoredRecipe :=
  match userIngredients with
  | [] => []
  | _ =>
      let allRecipes := getLocalRecipes None [] in
      let scoredRecipes := map (scoreRecipe userIngredients) allRecipes in
      JsSort.sort geScore
                  (List.filter (fun s => negb (Qle_bool (matchScore s) 0)) scoredRecipes)
  end.

(** [getRecipesByCategory(category)]; [None] is a call without the
    argument. *)
Definition getRecipesByCategory (category : option string) : list Recipe :=
  let allRecipes := getLocalRecipes None [] in
  match category with
  | None => allRecipes
  | Some c =>
      if String.eqb c "all" || negb (nonEmpty c) then allRecipes
      else List.filter (fun recipe => String.eqb (LocalRecipes.category recipe) c) allRecipes
  end.

(** [findRecipeByTitle(title)]; [None] is [null]. *)
Definition findRecipeByTitle (title : string) : option Recipe :=
  let allRecipes := getLocalRecipes None [] in
  let normalizedSearchTitle := trim (toLowerCase title) in
  let exact :=
    List.find (fun recipe => String.eqb (toLowerCase (LocalRecipes.title recipe)) normalizedSearchTitle)
              allRecipes in
  match exact with
  | Some recipe => Some recipe
  | None =>
      List.find (fun recipe =>
                   includes (toLowerCase (LocalRecipes.title recipe)) normalizedSearchTitle
                   || includes normalizedSearchTitle (toLowerCase (LocalRecipes.title recipe)))
                allRecipes
  end.

(** The ids that have an ingredient list of their own in the table of
    [getRecipeIngredients]. *)
Definition ownIngredients : list Z := [1; 2; 3; 11; 12; 21; 31; 41].

(** The three options that [findLocalRecipesByIngredients] reads, numbers
    when they are given. *)
Record IngredientSearchOptions : Type := mkIngredientSearchOptions {
  maxReadyTime : option Z;
  minReadyTime : option Z;
  number : option Z }.

(** Truthiness of an optional number. *)
Definition given (o : option Z) : bool :=
  match o with
  | Some z => negb (z =? 0)
  | None => false
  end.

(** [xs.slice(0, end)] for an integer [end]: a negative [end] counts from
    the end of the array. *)
Definition sliceTo {A : Type} (finish : Z) (xs : list A) : list A :=
  if finish <? 0 then firstn (Z.to_nat (Z.of_nat (length xs) + finish)) xs
  else firstn (Z.to_nat finish) xs.

(** A recipe with the outcome of the match against its text. *)
Record TextMatch : Type := mkTextMatch {
  tm_recipe : Recipe;
  tm_score : Z;
  tm_matchedIngredients : list string;
  tm_matchPercentage : Z }.

(** The callback of [allRecipes.map] in [findLocalRecipesByIngredients]. *)
Definition scoreByText (lowerIngredients : list string) (r : Recipe) : TextMatch :=
  let recipeText := toLowerCase (title r +:+ " " +:+ summary r +:+ " " +:+ category r) in
  let matches := List.filter (fun ing => includes recipeText ing) lowerIngredients in
  {| tm_recipe := r;
     tm_score := Z.of_nat (length matches);
     tm_matchedIngredients := matches;
     tm_matchPercentage :=
       APIUsageManager.mathRound
         (JsNumber.mul (JsNumber.div (inject_Z (Z.of_nat (length matches)))
                                     (inject_Z (Z.of_nat (length lowerIngredients))))
                       100) |}.

(** The comparator [(a, b) => b.score - a.score] does not put [a] after
    [b]. *)
Definition geTextScore (a b : TextMatch) : bool := tm_score b <=? tm_score a.

(** [findLocalRecipesByIngredients(ingredients, options)]. *)
Definition findLocalRecipesByIngredients (ingredients : list string)
           (options : IngredientSearchOptions) : list TextMatch :=
  let allRecipes := getLocalRecipes None [] in
  let lowerIngredients := map toLowerCase ingredients in
  let scoredRecipes := map (scoreByText lowerIngredients) allRecipes in
  let filtered :=
    JsSort.sort geTextScore (List.filter (fun s => tm_score s >? 0) scoredRecipes) in
  let results := filtered in
  let results :=
    match maxReadyTime options with
    | Some limit =>
        if given (maxReadyTime options)
        then List.filter (fun s => readyInMinutes (tm_recipe s) <=? limit) results
        else results
    | None => results
    end in
  let results :=
    match minReadyTime options with
    | Some limit =>
        if given (minReadyTime options)
        then List.filter (fun s => readyInMinutes (tm_recipe s) >=? limit) results
        else results
    | None => results
    end in
  sliceTo (if given (number options) then default 12 (number options) else 12) results.

End LocalRecipes.

(** ** RecipeService: the operations that reach the network *)

Module RecipeService.

Import JsString Js Clocked Clocked.Notations.
Import LocalRecipes.
Local Open Scope string_scope.
Local Open Scope Z_scope.

(** A request handed to the HTTP client. *)
Record Request : Type := mkRequest {
  endpoint : string;
  params : JsObject }.

(** What the HTTP client answers: a body, or an error that may carry the
    status of a response. *)
Inductive Response (A : Type) : Type :=
| Fulfilled (body : A)
| Rejected (status : option Z).
Arguments Fulfilled {A} body.
Arguments Rejected {A} status.

(** What is thrown: the error of the HTTP client, or the configuration
    error raised by the service. *)
Inductive Failure : Type :=
| HttpError (status : option Z)
| NotConfigured (message : string).

(** The result of an operation: a value, or a rejection. *)
Inductive Outcome (A : Type) : Type :=
| Returned (value : A)
| Thrown (error : Failure).
Arguments Returned {A} value.
Arguments Thrown {A} error.

(** The state the service works on: the search cache, the storage of the
    usage ledger, and the requests sent so far. *)
Record World : Type := mkWorld {
  searchCache : @CacheManager.Cache (list Recipe);
  usage : APIUsageManager.Storage;
  requests : list Request }.

Definition onCache {A} (m : M (@CacheManager.Cache (list Recipe)) A) : M World A :=
  zoom searchCache
       (fun c w => {| searchCache := c; usage := usage w; requests := requests w |}) m.

Definition onUsage {A} (m : M APIUsageManager.Storage A) : M World A :=
  zoom usage
       (fun u w => {| searchCache := searchCache w; usage := u; requests := requests w |}) m.

(** [api.get(endpoint, { params })]: the request leaves. *)
Definition send (endpoint : string) (params : JsObject) : M World unit :=
  modify (fun w => {| searchCache := searchCache w; usage := usage w;
                      requests := requests w ++ [mkRequest endpoint params] |}).

Definition placeholderKey : string := "YOUR_SPOONACULAR_API_KEY".

Definition notConfiguredMessage : string :=
  "API key not configured. Please add your Spoonacular API key to use this feature.".

(** A destructured option with its default. *)
Definition optionOr (options : JsObject) (k : string) (dflt : JsValue) : JsValue :=
  match obj_get k options with
  | JUndefined => dflt
  | v => v
  end.

Section Service.
Variable clk : nat -> Z.
Variable toDateString : Z -> string.
(** [import.meta.env.VITE_SPOONACULAR_API_KEY]. *)
Variable envKey : option string.

(** [API_KEY]. *)
Definition API_KEY : string :=
  match envKey with
  | Some k => if nonEmpty k then k else placeholderKey
  | None => placeholderKey
  end.

(** [isApiConfigured()]. *)
Definition isApiConfigured : bool :=
  nonEmpty API_KEY && negb (String.eqb API_KEY placeholderKey)
  && (10 <? Z.of_nat (String.length API_KEY)).

Definition searchParams (query : string) (options : JsObject) : JsObject :=
  [ ("query", if nonEmpty query then JStr query else JUndefined);
    ("number", optionOr options "number" (JNum 12));
    ("offset", optionOr options "offset" (JNum 0));
    ("type", optionOr options "type" (JStr EmptyString));
    ("diet", optionOr options "diet" (JStr EmptyString));
    ("cuisine", optionOr options "cuisine" (JStr EmptyString));
    ("intolerances", optionOr options "intolerances" (JStr EmptyString));
    ("equipment", optionOr options "equipment" (JStr EmptyString));
    ("includeIngredients", optionOr options "includeIngredients" (JStr EmptyString));
    ("excludeIngredients", optionOr options "excludeIngredients" (JStr EmptyString));
    ("fillIngredients", optionOr options "fillIngredients" (JBool true));
    ("addRecipeInformation", optionOr options "addRecipeInformation" (JBool true));
    ("addRecipeNutrition", optionOr options "addRecipeNutrition" (JBool false));
    ("instructionsRequired", optionOr options "instructionsRequired" (JBool true));
    ("sort", optionOr options "sort" (JStr "popularity"));
    ("sortDirection", optionOr options "sortDirection" (JStr "desc")) ].

(** The key under which [searchRecipes] caches a search. *)
Definition searchKey (query : string) (options : JsObject) : string :=
  CacheKey.generateKey "complexSearch" (spread [("query", JStr query)] options).

(** [error.response?.status === 402 || error.response?.status === 429]. *)
Definition quotaSignal (status : option Z) : bool :=
  match status with
  | Some s => (s =? 402) || (s =? 429)
  | None => false
  end.

(** [searchRecipes(query, options)]; [net] is the answer the HTTP client
    gives to the request if the request is made, its body being
    [response.data.results]. *)
Definition searchRecipes (query : string) (options : JsObject)
           (net : Response (option (list Recipe))) : M World (Outcome (list Recipe)) :=
  let cacheKey := searchKey query options in
  let* cached := onCache (CacheManager.get clk cacheKey) in
  match cached with
  | Some hit =>
      do onUsage (APIUsageManager.recordCacheHit clk toDateString) in
      ret (Returned hit)
  | None =>
      if negb isApiConfigured then
        ret (Returned (getLocalRecipes (Some query) options))
      else
        let* allowed := onUsage (APIUsageManager.canMakeCall clk toDateString) in
        if negb allowed then
          ret (Returned (getLocalRecipes (Some query) options))
        else
          do send "/complexSearch" (searchParams query options) in
          match net with
          | Fulfilled body =>
              let results := default [] body in
              do onUsage (APIUsageManager.recordCall clk toDateString "/complexSearch" true) in
              do onCache (CacheManager.set clk cacheKey results CacheManager.SEARCH_RESULTS) in
              ret (Returned results)
          | Rejected status =>
              do onUsage (APIUsageManager.recordCall clk toDateString "/complexSearch" false) in
              if quotaSignal status then
                ret (Returned (getLocalRecipes (Some query) options))
              else
                ret (Thrown (HttpError status))
          end
  end.

(** [getRecipeDetails(recipeId)]; the body is [response.data]. *)
Definition getRecipeDetails {Details : Type} (recipeId : Z) (net : Response Details)
  : M World (Outcome Details) :=
  if negb isApiConfigured then
    ret (Thrown (NotConfigured notConfiguredMessage))
  else
    do send ("/" +:+ pretty recipeId +:+ "/information") [("includeNutrition", JBool true)] in
    match net with
    | Fulfilled body => ret (Returned body)
    | Rejected status => ret (Thrown (HttpError status))
    end.

(** [getRandomRecipes(number)]; the body is [response.data.recipes]. *)
Definition getRandomRecipes (number : Z) (net : Response (option (list Recipe)))
  : M World (Outcome (list Recipe)) :=
  if negb isApiConfigured then
    ret (Thrown (NotConfigured notConfiguredMessage))
  else
    do send "/random"
            [("number", JNum number);
             ("tags", JStr "main course,side dish,dessert,appetizer,breakfast")] in
    match net with
    | Fulfilled body => ret (Returned (default [] body))
    | Rejected status => ret (Thrown (HttpError status))
    end.

Definition ingredientParams (ingredients : list string) (options : JsObject) : JsObject :=
  let base :=
    [ ("ingredients", JStr (join "," ingredients));
      ("number", optionOr options "number" (JNum 12));
      ("limitLicense", optionOr options "limitLicense" (JBool true));
      ("ranking", optionOr options "ranking" (JNum 1));
      ("ignorePantry", optionOr options "ignorePantry" (JBool true)) ] in
  let withMax :=
    if truthy (obj_get "maxReadyTime" options)
    then obj_set "maxReadyTime" (obj_get "maxReadyTime" options) base else base in
  if truthy (obj_get "minReadyTime" options)
  then obj_set "minReadyTime" (obj_get "minReadyTime" options) withMax else withMax.

(** [findRecipesByIngredients(ingredients, options)]; the body is
    [response.data]. *)
Definition findRecipesByIngredients {Match : Type} (ingredients : list string) (options : JsObject)
           (net : Response (option (list Match))) : M World (Outcome (list Match)) :=
  if negb isApiConfigured then
    ret (Thrown (NotConfigured notConfiguredMessage))
  else
    do send "/findByIngredients" (ingredientParams ingredients options) in
    match net with
    | Fulfilled body => ret (Returned (default [] body))
    | Rejected status => ret (Thrown (HttpError status))
    end.

(** [getSimilarRecipes(recipeId, number)]; the body is [response.data]. *)
Definition getSimilarRecipes (recipeId number : Z) (net : Response (option (list Recipe)))
  : M World (Outcome (list Recipe)) :=
  do send ("/" +:+ pretty recipeId +:+ "/similar") [("number", JNum number)] in
  match net with
  | Fulfilled body => ret (Returned (default [] body))
  | Rejected _ => ret (Returned (getLocalRecipes (Some "similar") []))
  end.

End Service.

End RecipeService.

(** ** The scoring rule, in closed form

    Two rules, to be compared with the accumulation that [scoreRecipe]
    takes from the code.  Both are written on strings and numbers only,
    without the helpers of the matcher ([matchesName], [found],
    [areIngredientsRelated], [penalised]), and both in the arithmetic of
    the program, that of doubles.  The first is the rule of the
    specification: one notion of a user ingredient matching a recipe
    ingredient, by substring or through the table.  The second is the rule
    the matcher follows: a test of its own for the two points. *)

Module ScoreRule.

Import JsString LocalRecipes.
Local Open Scope Q_scope.

Definition count {A : Type} (l : list A) : Q := inject_Z (Z.of_nat (length l)).

(** One name contains the other. *)
Definition contains (a b : string) : bool := includes a b || includes b a.

(** Both names contain a member of one group of the table of related
    ingredients. *)
Definition sameGroup (a b : string) : bool :=
  existsb (fun group => existsb (fun item => includes a item) group
                        && existsb (fun item => includes b item) group)
          relatedGroups.

(** A user ingredient matches the name of a recipe ingredient: by
    substring or through the table, whatever the case of the letters. *)
Definition matches (userIngredient recipeName : string) : bool :=
  contains (toLowerCase userIngredient) (toLowerCase recipeName)
  || sameGroup (toLowerCase userIngredient) (toLowerCase recipeName).

(** The ingredients that are never counted as missing. *)
Definition essentials : list string := ["salt"; "oil"; "water"; "onion"; "garlic"; "ginger"].

Definition essential (recipeName : string) : bool :=
  existsb (fun e => includes (toLowerCase recipeName) e) essentials.

(** The ingredients of the recipe that are not essential and that no user
    ingredient matches. *)
Definition missingFrom (userIngredients : list string) (r : Recipe) : list Ingredient :=
  List.filter (fun ing => negb (essential (name ing))
                          && negb (existsb (fun u => matches u (name ing)) userIngredients))
              (getRecipeIngredients (id r)).

Definition isSimple (r : Recipe) : bool := (length (getRecipeIngredients (id r)) <=? 8)%nat.

Definition simplicityBonus (r : Recipe) : Q := if isSimple r then 2 else 0.

(** *** The rule of the specification *)

(** The user ingredients that match an ingredient of the recipe. *)
Definition claimedMatches (userIngredients : list string) (r : Recipe) : list string :=
  List.filter (fun u => existsb (fun ing => matches u (name ing)) (getRecipeIngredients (id r)))
              userIngredients.

(** [matchedCount / totalUserIngredients]. *)
Definition claimedRatio (userIngredients : list string) (r : Recipe) : Q :=
  JsNumber.div (count (claimedMatches userIngredients r)) (count userIngredients).

(** +2 per matched user ingredient, -1 per missing ingredient of the
    recipe, +5 x the ratio, +2 for a recipe of at most 8 ingredients. *)
Definition claimedScore (userIngredients : list string) (r : Recipe) : Q :=
  let points :=
    2 * count (claimedMatches userIngredients r) - 1 * count (missingFrom userIngredients r) in
  let withRatio := JsNumber.add points (JsNumber.mul 5 (claimedRatio userIngredients r)) in
  if isSimple r then JsNumber.add withRatio 2 else withRatio.

(** [round(matchedCount / totalUserIngredients * 100)]. *)
Definition claimedPercentage (userIngredients : list string) (r : Recipe) : Z :=
  APIUsageManager.mathRound (JsNumber.mul (claimedRatio userIngredients r) 100).

(** *** The rule the matcher follows *)

(** The test of the first loop: the user ingredient, lower-cased, with or
    without its white space, against the name of the recipe ingredient
    lower-cased and without its white space. *)
Definition bonusTest (userIngredient recipeName : string) : bool :=
  let squeezed := stripWhitespace (toLowerCase recipeName) in
  contains squeezed (stripWhitespace (toLowerCase userIngredient))
  || contains (toLowerCase userIngredient) squeezed
  || sameGroup (toLowerCase userIngredient) squeezed.

(** The user ingredients that earn the two points. *)
Definition matchedBy (userIngredients : list string) (r : Recipe) : list string :=
  List.filter (fun u => existsb (fun ing => bonusTest u (name ing)) (getRecipeIngredients (id r)))
              userIngredients.

(** [matchedCount / totalUserIngredients], a double. *)
Definition matchRatio (userIngredients : list string) (r : Recipe) : Q :=
  JsNumber.div (count (matchedBy userIngredients r)) (count userIngredients).

(** The score before it is cut at zero. *)
Definition ruleScore (userIngredients : list string) (r : Recipe) : Q :=
  let points :=
    2 * count (matchedBy userIngredients r) - 1 * count (missingFrom userIngredients r) in
  let withRatio := JsNumber.add points (JsNumber.mul (matchRatio userIngredients r) 5) in
  if isSimple r then JsNumber.add withRatio 2 else withRatio.

Definition percentage (userIngredients : list string) (r : Recipe) : Z :=
  APIUsageManager.mathRound (JsNumber.mul (matchRatio userIngredients r) 100).

End ScoreRule.

(** ** Concrete situations *)

Module Scenario.

Import Js Clocked.
Local Open Scope string_scope.
Local Open Scope Z_scope.

(** A clock that advances by one millisecond at each reading. *)
Definition ticking (start : Z) (n : nat) : Z := start + Z.of_nat n.

(** A clock that advances by one millisecond at each of its first thousand
    readings, all the later ones falling in the same millisecond. *)
Definition burst (start : Z) (n : nat) : Z := start + Z.of_nat (Nat.min n 1000).

(** Mid-November 2023, in milliseconds. *)
Definition t0 : Z := 1700000000000.

Definition msPerDay : Z := 24 * 60 * 60 * 1000.

(** A rendering of the calendar day of a time stamp (days since the epoch,
    in the time zone UTC). *)
Definition dayString (t : Z) : string := "day " +:+ pretty (t / msPerDay).

(** A ledger written the day before [t0] with the quota used up. *)
Definition yesterdayLedger : APIUsageManager.UsageData :=
  {| APIUsageManager.date := dayString (t0 - msPerDay);
     APIUsageManager.calls := 150;
     APIUsageManager.endpoints := {[ "/complexSearch" := 150 ]};
     APIUsageManager.lastReset := t0 - msPerDay;
     APIUsageManager.errors := 0;
     APIUsageManager.cached := 0 |}.

Definition yesterdayStorage : APIUsageManager.Storage :=
  {| APIUsageManager.slot := APIUsageManager.Parsed yesterdayLedger;
     APIUsageManager.writable := true |}.

(** A ledger of the day of [t0] with the quota used up. *)
Definition exhaustedLedger : APIUsageManager.UsageData :=
  {| APIUsageManager.date := dayString t0;
     APIUsageManager.calls := 150;
     APIUsageManager.endpoints := {[ "/complexSearch" := 150 ]};
     APIUsageManager.lastReset := t0;
     APIUsageManager.errors := 0;
     APIUsageManager.cached := 0 |}.

Definition exhaustedStorage : APIUsageManager.Storage :=
  {| APIUsageManager.slot := APIUsageManager.Parsed exhaustedLedger;
     APIUsageManager.writable := true |}.

Definition emptyStorage : APIUsageManager.Storage :=
  {| APIUsageManager.slot := APIUsageManager.Absent;
     APIUsageManager.writable := true |}.

(** One hundred entries written one after the other into an empty cache. *)
Definition fillCalls : list (@CacheManager.Call nat) :=
  map (fun i => CacheManager.CallSet ("k" +:+ pretty (Z.of_nat i)) i CacheManager.SEARCH_RESULTS)
      (seq 0 100).

Definition fullCache : @CacheManager.Cache nat :=
  final (CacheManager.performAll (ticking t0) fillCalls 0%nat []).

(** A credential of the expected shape. *)
Definition someKey : option string := Some "0123456789abcdef0123456789abcdef".

Definition freshWorld : RecipeService.World :=
  {| RecipeService.searchCache := [];
     RecipeService.usage := emptyStorage;
     RecipeService.requests := [] |}.

Definition exhaustedWorld : RecipeService.World :=
  {| RecipeService.searchCache := [];
     RecipeService.usage := exhaustedStorage;
     RecipeService.requests := [] |}.

(** A storage that refuses every write, holding the ledger of the day of
    [t0] with the quota used up. *)
Definition readOnlyStorage : APIUsageManager.Storage :=
  {| APIUsageManager.slot := APIUsageManager.Parsed exhaustedLedger;
     APIUsageManager.writable := false |}.

(** A clock that advances by one millisecond at each of its first thousand
    readings and leaps an hour ahead at reading [leap]. *)
Definition leaping (start : Z) (leap : nat) (n : nat) : Z :=
  start + Z.of_nat (Nat.min n 1000) + (if (leap <=? n)%nat then 3600000 else 0).

(** The world after [searchRecipes("pasta", {number: 5})] has been answered
    from the network with five recipes. *)
Definition warmWorld : RecipeService.World :=
  Clocked.final
    (RecipeService.searchRecipes (burst t0) dayString someKey "pasta" [("number", JNum 5)]
       (RecipeService.Fulfilled (Some (firstn 5 LocalRecipes.recipeDatabase))) 0%nat freshWorld).

(** Forty user ingredients, twenty-three of which are paneer. *)
Definition fortyIngredients : list string := repeat "paneer" 23 ++ repeat "zucchini" 17.

(** Three recipes of the catalog: the first, which has an ingredient list
    of its own, the fourth, which has none, and the sixteenth. *)
Definition paneerButterMasala : LocalRecipes.Recipe :=
  LocalRecipes.mkRecipe 1 "Paneer Butter Masala" 45 4
    "Rich and creamy tomato-based curry with soft paneer cubes, perfect with naan or rice."
    72 "Main Course - Vegetarian" "Indian" true.

Definition vegBiryani : LocalRecipes.Recipe :=
  LocalRecipes.mkRecipe 4 "Veg Biryani" 60 6
    "Aromatic basmati rice layered with spiced vegetables and herbs."
    75 "Main Course - Vegetarian" "Indian" true.

Definition chickenBiryani : LocalRecipes.Recipe :=
  LocalRecipes.mkRecipe 11 "Chicken Biryani" 75 6
    "Fragrant basmati rice layered with marinated chicken and aromatic spices."
    70 "Main Course - Non-Vegetarian" "Indian" false.

End Scenario.

(** * Properties *)

(** ** The sort *)

Section SortFacts.
Context {A : Type}.
Variable le : A -> A -> bool.
Hypothesis le_total : forall a b, le a b = false -> le b a = true.
Hypothesis le_trans : forall a b c, le a b = true -> le b c = true -> le a c = true.

Let R (a b : A) : Prop := le a b = true.

Lemma insert_Permutation (x : A) (l : list A) :
  Permutation (JsSort.insert le x l) (x :: l).
Proof.
  induction l as [|y l IH]; simpl; [reflexivity|].
  destruct (le x y); [reflexivity|].
  rewrite IH. apply perm_swap.
Qed.

Lemma sort_Permutation (l : list A) : Permutation (JsSort.sort le l) l.
Proof.
  induction l as [|x l IH]; simpl; [reflexivity|].
  rewrite insert_Permutation. now apply perm_skip.
Qed.

Lemma insert_StronglySorted (x : A) (l : list A) :
  StronglySorted R l -> StronglySorted R (JsSort.insert le x l).
Proof using le_total le_trans.
  induction 1 as [|y l Hl IH Hy]; simpl.
  - repeat constructor.
  - destruct (le x y) eqn:Hxy.
    + constructor; [now constructor|].
      constructor; [exact Hxy|].
      eapply List.Forall_impl; [|exact Hy]. intros z Hz. now apply (le_trans x y z).
    + constructor; [exact IH|].
      rewrite List.Forall_forall. intros z Hz.
      apply (Permutation_in _ (insert_Permutation x l)) in Hz.
      destruct Hz as [<-|Hz]; [now apply le_total|].
      rewrite List.Forall_forall in Hy. now apply Hy.
Qed.

Lemma sort_StronglySorted (l : list A) : StronglySorted R (JsSort.sort le l).
Proof using le_total le_trans.
  induction l as [|x l IH]; simpl; [constructor|].
  now apply insert_StronglySorted.
Qed.

(** Two sorted arrangements of the same elements coincide when the order
    is antisymmetric. *)
Lemma StronglySorted_unique (l1 l2 : list A) :
  (forall a b, le a b = true -> le b a = true -> a = b) ->
  StronglySorted R l1 -> StronglySorted R l2 -> Permutation l1 l2 -> l1 = l2.
Proof.
  intros Hanti H1. revert l2.
  induction H1 as [|x l1 Hl1 IH Hx]; intros l2 H2 Hp.
  - apply Permutation_nil in Hp. now subst.
  - destruct H2 as [|y l2 Hl2 Hy].
    + symmetry in Hp. now apply Permutation_nil in Hp.
    + assert (Hxy : x = y).
      { assert (Hin1 : In x (y :: l2)) by (eapply Permutation_in; [exact Hp|now left]).
        assert (Hin2 : In y (x :: l1)) by (eapply Permutation_in; [symmetry; exact Hp|now left]).
        destruct Hin1 as [->|Hin1]; [reflexivity|].
        destruct Hin2 as [->|Hin2]; [reflexivity|].
        rewrite List.Forall_forall in Hx, Hy.
        apply Hanti; [now apply Hx | now apply Hy]. }
      subst y. f_equal. apply IH; [exact Hl2|].
      now apply Permutation_cons_inv in Hp.
Qed.

Lemma sort_Permutation_eq (l1 l2 : list A) :
  (forall a b, le a b = true -> le b a = true -> a = b) ->
  Permutation l1 l2 -> JsSort.sort le l1 = JsSort.sort le l2.
Proof using le_total le_trans.
  intros Hanti Hp. apply StronglySorted_unique; auto using sort_StronglySorted.
  rewrite !sort_Permutation. exact Hp.
Qed.

(** In a sorted array nothing among the first [n] elements exceeds
    anything after them. *)
Lemma StronglySorted_firstn_skipn (n : nat) (l : list A) :
  StronglySorted R l ->
  forall a b, In a (firstn n l) -> In b (skipn n l) -> R a b.
Proof.
  intros Hs. revert n.
  induction Hs as [|x l Hl IH Hx]; intros n a b Ha Hb.
  - rewrite firstn_nil in Ha. destruct Ha.
  - destruct n as [|n]; simpl in Ha, Hb; [destruct Ha|].
    destruct Ha as [<-|Ha].
    + rewrite List.Forall_forall in Hx. apply Hx.
      rewrite <- (firstn_skipn n l). apply in_or_app. now right.
    + now apply (IH n).
Qed.

End SortFacts.

(** ** The order on strings *)

Lemma ascii_compare_refl (a : ascii) : Ascii.compare a a = Eq.
Proof. unfold Ascii.compare. apply N.compare_refl. Qed.

Lemma ascii_compare_lt_trans (a b c : ascii) :
  Ascii.compare a b = Lt -> Ascii.compare b c = Lt -> Ascii.compare a c = Lt.
Proof.
  unfold Ascii.compare. rewrite !N.compare_lt_iff. apply N.lt_trans.
Qed.

Lemma string_leb_trans (s1 s2 s3 : string) :
  String.leb s1 s2 = true -> String.leb s2 s3 = true -> String.leb s1 s3 = true.
Proof.
  unfold String.leb. revert s2 s3.
  induction s1 as [|a s1 IH]; intros [|b s2] [|c s3]; simpl; try easy.
  destruct (Ascii.compare a b) eqn:Hab; destruct (Ascii.compare b c) eqn:Hbc; try easy.
  - apply Ascii.compare_eq_iff in Hab, Hbc. subst. rewrite ascii_compare_refl. apply IH.
  - apply Ascii.compare_eq_iff in Hab. subst. now rewrite Hbc.
  - apply Ascii.compare_eq_iff in Hbc. subst. now rewrite Hab.
  - now rewrite (ascii_compare_lt_trans a b c).
Qed.

Lemma string_leb_total (s1 s2 : string) :
  String.leb s1 s2 = false -> String.leb s2 s1 = true.
Proof.
  intros H. destruct (String.leb_total s1 s2) as [H'|H']; congruence.
Qed.

(** ** Key generation *)

Section KeyFacts.
Import Js CacheKey.

Lemma obj_get_In (k : string) (v : JsValue) (o : JsObject) :
  List.NoDup (keys o) -> In (k, v) o -> obj_get k o = v.
Proof.
  induction o as [|[k' v'] o IH]; simpl; [easy|].
  intros Hnd [Heq|Hin].
  - inversion Heq; subst. now rewrite String.eqb_refl.
  - inversion Hnd as [|? ? Hnot Hnd']; subst.
    destruct (String.eqb k k') eqn:Hk.
    + apply String.eqb_eq in Hk. subst k'.
      exfalso. apply Hnot. unfold keys. change k with (fst (k, v)). now apply in_map.
    + now apply IH.
Qed.

Lemma obj_get_absent (k : string) (o : JsObject) :
  ~ In k (keys o) -> obj_get k o = JUndefined.
Proof.
  induction o as [|[k' v'] o IH]; simpl; [easy|].
  intros Hnot. destruct (String.eqb k k') eqn:Hk.
  - apply String.eqb_eq in Hk. subst. exfalso. apply Hnot. now left.
  - apply IH. intros Hin. apply Hnot. now right.
Qed.

(** Reading a property does not depend on the order of the properties. *)
Lemma obj_get_Permutation (o1 o2 : JsObject) (k : string) :
  List.NoDup (keys o1) -> Permutation o1 o2 -> obj_get k o1 = obj_get k o2.
Proof.
  intros Hnd Hp.
  assert (Hnd2 : List.NoDup (keys o2)).
  { eapply Permutation.Permutation_NoDup; [|exact Hnd]. unfold keys. now apply Permutation_map. }
  destruct (in_dec String.string_dec k (keys o1)) as [Hin|Hnot].
  - unfold keys in Hin. apply in_map_iff in Hin. destruct Hin as [[k' v] [Hk Hin]].
    simpl in Hk. subst k'.
    rewrite (obj_get_In k v o1 Hnd Hin).
    symmetry. apply obj_get_In; [exact Hnd2|]. eapply Permutation_in; eauto.
  - rewrite (obj_get_absent k o1 Hnot). symmetry. apply obj_get_absent.
    intros Hin. apply Hnot. eapply Permutation_in; [|exact Hin].
    unfold keys. apply Permutation_map. now symmetry.
Qed.

Lemma sortStrings_Permutation (l1 l2 : list string) :
  Permutation l1 l2 -> sortStrings l1 = sortStrings l2.
Proof.
  apply sort_Permutation_eq.
  - apply string_leb_total.
  - apply string_leb_trans.
  - apply String.leb_antisym.
Qed.

(** C7. The key does not depend on the order in which the properties of
    the parameter object were inserted: two objects with the same
    key-value pairs (one a rearrangement of the other) get the same key. *)
Theorem generateKey_order_independent (endpoint : string) (params1 params2 : JsObject) :
  List.NoDup (keys params1) ->
  Permutation params1 params2 ->
  generateKey endpoint params1 = generateKey endpoint params2.
Proof.
  intros Hnd Hp. unfold generateKey.
  rewrite (sortStrings_Permutation (keys params1) (keys params2))
    by (unfold keys; now apply Permutation_map).
  do 3 f_equal.
  generalize (@nil (string * JsValue)) as acc.
  induction (sortStrings (keys params2)) as [|k ks IH]; intros acc; simpl; [reflexivity|].
  rewrite (obj_get_Permutation params1 params2 k Hnd Hp). apply IH.
Qed.

(** The instance of the specification: [{b:1, a:2}] and [{a:2, b:1}]. *)
Lemma generateKey_order_independent_witness :
  generateKey "search" [("b", JNum 1); ("a", JNum 2)]%string
  = generateKey "search" [("a", JNum 2); ("b", JNum 1)]%string.
Proof.
  apply generateKey_order_independent.
  - repeat constructor; simpl; intuition discriminate.
  - apply perm_swap.
Defined.

End KeyFacts.

(** ** Lists *)

Section ListFacts.
Context {A : Type}.

Lemma filter_twice (f g : A -> bool) (l : list A) :
  List.filter f (List.filter g l) = List.filter (fun x => g x && f x) l.
Proof.
  induction l as [|x l IH]; simpl; [reflexivity|].
  destruct (g x); simpl; [destruct (f x)|]; now rewrite IH.
Qed.

Lemma filter_Permutation_bool (f : A -> bool) (l l' : list A) :
  Permutation l l' -> Permutation (List.filter f l) (List.filter f l').
Proof.
  induction 1 as [|x l l' Hp IH|x y l|l l' l'' H1 IH1 H2 IH2]; simpl.
  - reflexivity.
  - destruct (f x); [now apply perm_skip | exact IH].
  - destruct (f x), (f y); try reflexivity. apply perm_swap.
  - now transitivity (List.filter f l').
Qed.

Lemma filter_all (f : A -> bool) (l : list A) :
  (forall x, In x l -> f x = true) -> List.filter f l = l.
Proof.
  induction l as [|x l IH]; simpl; intros H; [reflexivity|].
  rewrite (H x) by now left. f_equal. apply IH. intros y Hy. apply H. now right.
Qed.

Lemma filter_none (f : A -> bool) (l : list A) :
  (forall x, In x l -> f x = false) -> List.filter f l = [].
Proof.
  induction l as [|x l IH]; simpl; intros H; [reflexivity|].
  rewrite (H x) by now left. apply IH. intros y Hy. apply H. now right.
Qed.

Lemma filter_length_le (f : A -> bool) (l : list A) :
  (length (List.filter f l) <= length l)%nat.
Proof.
  induction l as [|x l IH]; simpl; [lia|]. destruct (f x); simpl; lia.
Qed.

(** A filter that rejects an element of the list returns fewer elements. *)
Lemma filter_length_lt (f : A -> bool) (l : list A) (x : A) :
  In x l -> f x = false -> (length (List.filter f l) < length l)%nat.
Proof.
  induction l as [|y l IH]; simpl; [easy|].
  intros [->|Hin] Hx.
  - rewrite Hx. pose proof (filter_length_le f l). lia.
  - specialize (IH Hin Hx). destruct (f y); simpl; lia.
Qed.

Lemma NoDup_map_filter {B : Type} (g : A -> B) (f : A -> bool) (l : list A) :
  List.NoDup (map g l) -> List.NoDup (map g (List.filter f l)).
Proof.
  induction l as [|x l IH]; simpl; intros H; [constructor|].
  inversion H as [|? ? Hnot Hnd]; subst.
  destruct (f x); simpl; [|now apply IH].
  constructor; [|now apply IH].
  intros Hin. apply Hnot. apply in_map_iff in Hin. destruct Hin as [y [Hy Hin]].
  apply filter_In in Hin. apply in_map_iff. exists y. tauto.
Qed.

Lemma NoDup_app_disjoint (l1 l2 : list A) (a : A) :
  List.NoDup (l1 ++ l2) -> In a l1 -> In a l2 -> False.
Proof.
  induction l1 as [|x l1 IH]; simpl; [easy|].
  intros Hnd [->|Hin] Hin2; inversion Hnd as [|? ? Hnot Hnd']; subst.
  - apply Hnot. apply in_or_app. now right.
  - now apply IH.
Qed.

End ListFacts.

(** ** The cache *)

Section CacheFacts.
Import Clocked CacheManager.
Variable clk : nat -> Z.
Context {D : Type}.
Local Open Scope Z_scope.

Abbreviation Cache := (@Cache D).
Abbreviation Entry := (string * @CacheItem D)%type.

Lemma map_get_None (key : string) (c : Cache) :
  map_get key c = None <-> ~ In key (map fst c).
Proof.
  induction c as [|[k item] c IH]; simpl; [tauto|].
  destruct (String.eqb key k) eqn:Hk.
  - apply String.eqb_eq in Hk. subst. split; [discriminate|]. intros H. exfalso. apply H. now left.
  - apply String.eqb_neq in Hk. rewrite IH. split.
    + intros H [Heq|Hin]; [now subst | now apply H].
    + intros H Hin. apply H. now right.
Qed.

Lemma map_get_In (key : string) (item : CacheItem) (c : Cache) :
  List.NoDup (map fst c) -> In (key, item) c -> map_get key c = Some item.
Proof.
  induction c as [|[k i] c IH]; simpl; [easy|].
  intros Hnd [Heq|Hin].
  - inversion Heq; subst. now rewrite String.eqb_refl.
  - inversion Hnd as [|? ? Hnot Hnd']; subst.
    destruct (String.eqb key k) eqn:Hk; [|now apply IH].
    apply String.eqb_eq in Hk. subst k. exfalso. apply Hnot.
    change key with (fst (key, item)). now apply in_map.
Qed.

Lemma map_get_Some_In (key : string) (item : CacheItem) (c : Cache) :
  map_get key c = Some item -> In (key, item) c.
Proof.
  induction c as [|[k i] c IH]; simpl; [discriminate|].
  destruct (String.eqb key k) eqn:Hk.
  - apply String.eqb_eq in Hk. intros [= ->]. subst. now left.
  - intros H. right. now apply IH.
Qed.

Lemma map_replace_keys (key : string) (item : CacheItem) (c : Cache) :
  map fst (map_replace key item c) = map fst c.
Proof.
  induction c as [|[k i] c IH]; simpl; [reflexivity|].
  destruct (String.eqb key k); simpl; [reflexivity|]. now rewrite IH.
Qed.

Lemma map_replace_length (key : string) (item : CacheItem) (c : Cache) :
  length (map_replace key item c) = length c.
Proof.
  rewrite <- (length_map fst), map_replace_keys. apply length_map.
Qed.

Lemma map_replace_get (key k : string) (item : CacheItem) (c : Cache) :
  map_get k (map_replace key item c)
  = if String.eqb k key then option_map (fun _ => item) (map_get k c) else map_get k c.
Proof.
  induction c as [|[k' i] c IH]; simpl; [now destruct (String.eqb k key)|].
  destruct (String.eqb key k') eqn:Hk'; simpl.
  - apply String.eqb_eq in Hk'. subst k'.
    destruct (String.eqb k key); reflexivity.
  - destruct (String.eqb k k') eqn:Hkk'.
    + apply String.eqb_eq in Hkk'. subst k'. rewrite (String.eqb_sym k key), Hk'. reflexivity.
    + exact IH.
Qed.

Lemma map_delete_ok (key : string) (c : Cache) : cache_ok c -> cache_ok (map_delete key c).
Proof.
  intros [Hnd Hsz]. split.
  - now apply NoDup_map_filter.
  - unfold size in *. pose proof (filter_length_le (fun e : Entry => negb (String.eqb key (fst e))) c).
    unfold map_delete. lia.
Qed.

Lemma map_replace_ok (key : string) (item : CacheItem) (c : Cache) :
  cache_ok c -> cache_ok (map_replace key item c).
Proof.
  intros [Hnd Hsz]. split.
  - now rewrite map_replace_keys.
  - unfold size in *. now rewrite map_replace_length.
Qed.

Lemma map_set_NoDup (key : string) (item : CacheItem) (c : Cache) :
  List.NoDup (map fst c) -> List.NoDup (map fst (map_set key item c)).
Proof.
  intros Hnd. unfold map_set. destruct (map_get key c) eqn:Hg.
  - now rewrite map_replace_keys.
  - rewrite map_app. simpl. apply map_get_None in Hg.
    apply List.NoDup_app; [exact Hnd | repeat constructor; easy |].
    intros x Hx [<-|[]]. contradiction.
Qed.

Lemma map_set_length (key : string) (item : CacheItem) (c : Cache) :
  (length (map_set key item c) <= S (length c))%nat.
Proof.
  unfold map_set. destruct (map_get key c).
  - rewrite map_replace_length. lia.
  - rewrite length_app. simpl. lia.
Qed.

(** A [forEach] that deletes the keys of the selected entries leaves the
    entries whose key was not selected. *)
Lemma fold_delete (step : Cache -> Entry -> Cache) (sel : Entry -> bool)
      (entries c : Cache) :
  (forall acc e, step acc e = if sel e then map_delete (fst e) acc else acc) ->
  fold_left step entries c
  = List.filter (fun x => negb (existsb (fun v => sel v && sameKey x v) entries)) c.
Proof.
  intros Hstep. revert c.
  induction entries as [|e entries IH]; intros c; simpl.
  - symmetry. now apply filter_all.
  - rewrite IH, Hstep. destruct (sel e); simpl.
    + unfold map_delete. rewrite filter_twice. apply filter_ext.
      intros x. unfold sameKey. now rewrite negb_orb.
    + reflexivity.
Qed.

Lemma removeAll_filter (victims c : Cache) :
  removeAll victims c
  = List.filter (fun x => negb (existsb (sameKey x) victims)) c.
Proof.
  unfold removeAll. rewrite (fold_delete _ (fun _ => true)) by reflexivity.
  reflexivity.
Qed.

Lemma existsb_sameKey_self (sel : Entry -> bool) (c : Cache) (x : Entry) :
  List.NoDup (map fst c) -> In x c ->
  existsb (fun v => sel v && sameKey x v) c = sel x.
Proof.
  intros Hnd Hin. destruct (sel x) eqn:Hx.
  - apply existsb_exists. exists x. unfold sameKey. now rewrite Hx, String.eqb_refl.
  - apply Bool.not_true_is_false. intros H. apply existsb_exists in H.
    destruct H as [v [Hv H]]. apply andb_prop in H. destruct H as [Hs Hk].
    apply String.eqb_eq in Hk.
    assert (v = x); [|congruence].
    destruct v as [k i], x as [k' i']. simpl in Hk. subst k'.
    pose proof (map_get_In k i c Hnd Hv). pose proof (map_get_In k i' c Hnd Hin). congruence.
Qed.

(** The first pass of [cleanup] removes exactly what has expired. *)
Lemma removeExpired_live (now : Z) (c : Cache) :
  List.NoDup (map fst c) -> removeExpired now c c = liveAt now c.
Proof.
  intros Hnd. unfold removeExpired, liveAt.
  rewrite (fold_delete _ (expiredAt now)) by reflexivity.
  apply filter_ext_in. intros x Hx. now rewrite existsb_sameKey_self.
Qed.

Lemma liveAt_ok (now : Z) (c : Cache) : cache_ok c -> cache_ok (liveAt now c).
Proof.
  intros [Hnd Hsz]. split.
  - now apply NoDup_map_filter.
  - unfold size, liveAt in *.
    pose proof (filter_length_le (fun e : Entry => negb (expiredAt now e)) c). lia.
Qed.

Lemma leLastAccessed_total (a b : Entry) :
  leLastAccessed a b = false -> leLastAccessed b a = true.
Proof. unfold leLastAccessed. lia. Qed.

Lemma leLastAccessed_trans (a b c : Entry) :
  leLastAccessed a b = true -> leLastAccessed b c = true -> leLastAccessed a c = true.
Proof. unfold leLastAccessed. lia. Qed.

Lemma sortByLastAccessed_Permutation (c : Cache) : Permutation (sortByLastAccessed c) c.
Proof. apply sort_Permutation. Qed.

(** What the second pass keeps is, up to order, the sorted array without
    its first [lruBatch] elements. *)
Lemma removeAll_kept (c : Cache) :
  List.NoDup (map fst c) ->
  Permutation (removeAll (itemsToRemove c) c) (skipn lruBatch (sortByLastAccessed c)).
Proof.
  intros Hnd. rewrite removeAll_filter. unfold itemsToRemove.
  set (sorted := sortByLastAccessed c).
  set (victims := firstn lruBatch sorted).
  set (rest := skipn lruBatch sorted).
  assert (Hsplit : sorted = victims ++ rest) by (symmetry; apply firstn_skipn).
  assert (Hnds : List.NoDup (map fst victims ++ map fst rest)).
  { rewrite <- map_app, <- Hsplit.
    eapply Permutation.Permutation_NoDup; [|exact Hnd].
    apply Permutation_map. symmetry. apply sortByLastAccessed_Permutation. }
  rewrite (filter_Permutation_bool _ c sorted)
    by (symmetry; apply sortByLastAccessed_Permutation).
  rewrite Hsplit, List.filter_app.
  rewrite filter_none, filter_all; [reflexivity| |].
  - intros x Hx. apply Bool.negb_true_iff. apply Bool.not_true_is_false.
    intros H. apply existsb_exists in H. destruct H as [v [Hv Hk]].
    apply String.eqb_eq in Hk.
    apply (NoDup_app_disjoint _ _ (fst x) Hnds).
    + rewrite <- Hk. now apply in_map.
    + now apply in_map.
  - intros x Hx. apply Bool.negb_false_iff. apply existsb_exists.
    exists x. split; [exact Hx|]. unfold sameKey. apply String.eqb_refl.
Qed.

Lemma removeAll_split (c : Cache) :
  List.NoDup (map fst c) ->
  Permutation c (itemsToRemove c ++ removeAll (itemsToRemove c) c).
Proof.
  intros Hnd. rewrite (removeAll_kept c Hnd). unfold itemsToRemove.
  rewrite firstn_skipn. symmetry. apply sortByLastAccessed_Permutation.
Qed.

(** Every entry the second pass deletes was accessed no later than any
    entry it keeps. *)
Lemma removeAll_lru (c : Cache) (e s : Entry) :
  List.NoDup (map fst c) ->
  In e (itemsToRemove c) -> In s (removeAll (itemsToRemove c) c) ->
  lastAccessed (snd e) <= lastAccessed (snd s).
Proof.
  intros Hnd He Hs.
  apply (Permutation_in _ (removeAll_kept c Hnd)) in Hs.
  apply Z.leb_le.
  apply (StronglySorted_firstn_skipn leLastAccessed lruBatch (sortByLastAccessed c)); auto.
  apply sort_StronglySorted.
  - apply leLastAccessed_total.
  - apply leLastAccessed_trans.
Qed.

Lemma lruBatch_value : lruBatch = 30%nat.
Proof. reflexivity. Qed.

(** [cleanup()], run. *)
Lemma cleanup_run (n : nat) (c : Cache) :
  cleanup clk n c
  = (tt, S n,
     let live := removeExpired (clk n) c c in
     if size live >=? maxCacheSize then removeAll (itemsToRemove live) live else live).
Proof.
  unfold cleanup, bind, dateNow, gets, modify, ret, id. simpl.
  destruct (size (removeExpired (clk n) c c) >=? maxCacheSize); reflexivity.
Qed.

(** [set(key, data, ttl)], run. *)
Lemma set_run (key : string) (d : D) (ttl : Z) (n : nat) (c : Cache) :
  set clk key d ttl n c
  = if size c >=? maxCacheSize
    then (tt, (4 + n)%nat,
          map_set key {| data := d; expiresAt := clk (1 + n)%nat + ttl;
                         lastAccessed := clk (2 + n)%nat; createdAt := clk (3 + n)%nat |}
                  (final (cleanup clk n c)))
    else (tt, (3 + n)%nat,
          map_set key {| data := d; expiresAt := clk n + ttl;
                         lastAccessed := clk (1 + n)%nat; createdAt := clk (2 + n)%nat |} c).
Proof.
  unfold set, bind, gets. destruct (size c >=? maxCacheSize).
  - rewrite cleanup_run. reflexivity.
  - reflexivity.
Qed.

(** [get(key)], run. *)
Lemma get_run (key : string) (n : nat) (c : Cache) :
  get clk key n c
  = match map_get key c with
    | None => (None, n, c)
    | Some item =>
        if clk n >? expiresAt item then (None, S n, map_delete key c)
        else (Some (data item), S (S n), map_replace key (touch (clk (S n)) item) c)
    end.
Proof.
  unfold get, bind, gets. destruct (map_get key c) as [item|]; [|reflexivity].
  unfold dateNow. destruct (clk n >? expiresAt item); reflexivity.
Qed.

Lemma removeAll_length (c : Cache) :
  List.NoDup (map fst c) -> (lruBatch <= length c)%nat ->
  (length (removeAll (itemsToRemove c) c) + lruBatch = length c)%nat.
Proof.
  intros Hnd Hlen.
  rewrite (Permutation_length (removeAll_kept c Hnd)).
  rewrite length_skipn, (Permutation_length (sortByLastAccessed_Permutation c)). lia.
Qed.

Lemma itemsToRemove_length (c : Cache) :
  (lruBatch <= length c)%nat -> length (itemsToRemove c) = lruBatch.
Proof.
  intros Hlen. unfold itemsToRemove. apply firstn_length_le.
  now rewrite (Permutation_length (sortByLastAccessed_Permutation c)).
Qed.

(** [cleanup()] keeps the invariant, and leaves room when the cache was full. *)
Lemma cleanup_ok (n : nat) (c : Cache) :
  cache_ok c ->
  cache_ok (final (cleanup clk n c)) /\ size (final (cleanup clk n c)) < maxCacheSize.
Proof.
  intros Hok. rewrite cleanup_run. unfold final. simpl.
  destruct Hok as [Hnd Hsz].
  rewrite (removeExpired_live (clk n) c Hnd).
  destruct (liveAt_ok (clk n) c (conj Hnd Hsz)) as [Hnd' Hsz'].
  destruct (size (liveAt (clk n) c) >=? maxCacheSize) eqn:Hfull.
  - assert (Hlen : (lruBatch <= length (liveAt (clk n) c))%nat).
    { rewrite lruBatch_value. unfold size, maxCacheSize in *. lia. }
    pose proof (removeAll_length _ Hnd' Hlen) as Hrem.
    rewrite lruBatch_value in Hrem.
    split; [split|].
    + rewrite removeAll_filter. now apply NoDup_map_filter.
    + unfold size, maxCacheSize in *. lia.
    + unfold size, maxCacheSize in *. lia.
  - split; [now split|]. unfold size, maxCacheSize in *. lia.
Qed.

Lemma set_ok (key : string) (d : D) (ttl : Z) (n : nat) (c : Cache) :
  cache_ok c -> cache_ok (final (set clk key d ttl n c)).
Proof.
  intros Hok. rewrite set_run.
  destruct (size c >=? maxCacheSize) eqn:Hfull; unfold final at 1; simpl.
  - destruct (cleanup_ok n c Hok) as [[Hnd Hsz] Hlt].
    split; [now apply map_set_NoDup|].
    match goal with |- size (map_set ?k ?i ?c') <= _ => pose proof (map_set_length k i c') end.
    unfold size in *. lia.
  - destruct Hok as [Hnd Hsz].
    split; [now apply map_set_NoDup|].
    match goal with |- size (map_set ?k ?i ?c') <= _ => pose proof (map_set_length k i c') end.
    unfold size in *. lia.
Qed.

Lemma get_ok (key : string) (n : nat) (c : Cache) :
  cache_ok c -> cache_ok (final (get clk key n c)).
Proof.
  intros Hok. rewrite get_run. destruct (map_get key c) as [item|]; [|exact Hok].
  destruct (clk n >? expiresAt item); unfold final; simpl.
  - now apply map_delete_ok.
  - now apply map_replace_ok.
Qed.

Lemma perform_ok (call : Call) (n : nat) (c : Cache) :
  cache_ok c -> cache_ok (final (perform clk call n c)).
Proof.
  intros Hok. destruct call as [key d ttl|key]; simpl.
  - now apply set_ok.
  - unfold bind. pose proof (get_ok key n c Hok) as H.
    destruct (get clk key n c) as [[r n'] c']. exact H.
Qed.

Lemma performAll_ok (calls : list Call) (n : nat) (c : Cache) :
  cache_ok c -> cache_ok (final (performAll clk calls n c)).
Proof.
  revert n c. induction calls as [|call calls IH]; intros n c Hok; [exact Hok|].
  simpl. unfold bind. pose proof (perform_ok call n c Hok) as H.
  destruct (perform clk call n c) as [[r n'] c']. now apply IH.
Qed.

Lemma empty_ok : cache_ok (@nil Entry).
Proof. split; [constructor | unfold size, maxCacheSize; simpl; lia]. Qed.

(** A run of [calls1 ++ calls2] is the run of [calls1] followed by the run
    of [calls2] from where the first one ended. *)
Lemma performAll_app (calls1 calls2 : list Call) (n : nat) (c : Cache) :
  performAll clk (calls1 ++ calls2) n c
  = performAll clk calls2 (readings (performAll clk calls1 n c))
                          (final (performAll clk calls1 n c)).
Proof.
  revert n c. induction calls1 as [|call calls1 IH]; intros n c; [reflexivity|].
  simpl. unfold bind. destruct (perform clk call n c) as [[r n'] c']. apply IH.
Qed.

(** C5. On a cache created empty, in any sequence of calls of [set] (reads
    by [get] may come in between), the cache holds at most 100 entries
    when the [k]-th call has returned, for every [k]. *)
Theorem capacity_invariant (calls : list Call) (n k : nat) :
  size (final (performAll clk (firstn k calls) n (@nil Entry))) <= 100.
Proof.
  destruct (performAll_ok (firstn k calls) n [] empty_ok) as [_ H]. exact H.
Qed.

Lemma map_get_app (key : string) (c1 c2 : Cache) :
  map_get key (c1 ++ c2)
  = match map_get key c1 with Some item => Some item | None => map_get key c2 end.
Proof.
  induction c1 as [|[k i] c1 IH]; simpl; [reflexivity|].
  destruct (String.eqb key k); [reflexivity | exact IH].
Qed.

Lemma map_get_set_same (key : string) (item : CacheItem) (c : Cache) :
  map_get key (map_set key item c) = Some item.
Proof.
  unfold map_set. destruct (map_get key c) eqn:Hget.
  - rewrite map_replace_get, String.eqb_refl, Hget. reflexivity.
  - rewrite map_get_app, Hget. simpl. now rewrite String.eqb_refl.
Qed.

Lemma map_get_set_other (key k : string) (item : CacheItem) (c : Cache) :
  k <> key -> map_get k (map_set key item c) = map_get k c.
Proof.
  intros Hne. apply String.eqb_neq in Hne. unfold map_set.
  destruct (map_get key c) eqn:Hget.
  - now rewrite map_replace_get, Hne.
  - rewrite map_get_app. destruct (map_get k c); [reflexivity|].
    simpl. now rewrite Hne.
Qed.

Lemma map_get_delete_other (key k : string) (c : Cache) :
  k <> key -> map_get k (map_delete key c) = map_get k c.
Proof.
  intros Hne. unfold map_delete.
  induction c as [|[k' i] c IH]; simpl; [reflexivity|].
  destruct (String.eqb key k') eqn:Hk'; simpl.
  - apply String.eqb_eq in Hk'. subst k'.
    apply String.eqb_neq in Hne. now rewrite Hne.
  - destruct (String.eqb k k'); [reflexivity | exact IH].
Qed.

(** An entry with at least as many staler entries as the batch removes is
    not in the batch. *)
Lemma lru_keeps_fresh (live evicted kept : Cache) (s : Entry) :
  Permutation live (evicted ++ kept) ->
  (forall e x, In e evicted -> In x kept -> lastAccessed (snd e) <= lastAccessed (snd x)) ->
  In s live ->
  (length evicted <= length (stalerThan s live))%nat ->
  In s kept.
Proof.
  intros Hp Hlru Hs Hcount.
  apply (Permutation_in _ Hp) in Hs. apply in_app_or in Hs.
  destruct Hs as [Hs|Hs]; [exfalso|exact Hs].
  unfold stalerThan in Hcount.
  rewrite (Permutation_length (filter_Permutation_bool _ _ _ Hp)) in Hcount.
  rewrite List.filter_app, length_app in Hcount.
  rewrite (filter_none _ kept) in Hcount.
  - simpl in Hcount.
    pose proof (filter_length_lt
                  (fun x : Entry => lastAccessed (snd x) <? lastAccessed (snd s))
                  evicted s Hs (Z.ltb_irrefl _)).
    lia.
  - intros x Hx. specialize (Hlru s x Hs Hx). lia.
Qed.

(** C6. When [set] finds the cache at (or above) its capacity, [cleanup]
    first removes all the expired entries; if what is left still fills the
    capacity it removes 30% of it, the entries with the lowest
    [lastAccessed]: every evicted entry was accessed no later than every
    entry that is kept.  A hit of [get] returns the data and stores the
    time of the read as the [lastAccessed] of its entry, the other fields
    staying; when a [set] of another key follows and runs [cleanup], the
    entry that was read is still there afterwards, as long as it has not
    expired and the entries accessed before the read fill the batch. *)
Theorem cleanup_evicts_lru (key : string) (d : D) (ttl : Z) (n : nat) (c : Cache) :
  cache_ok c ->
  maxCacheSize <= size c ->
  let live := liveAt (clk n) c in
  let item := {| data := d; expiresAt := clk (1 + n)%nat + ttl;
                 lastAccessed := clk (2 + n)%nat; createdAt := clk (3 + n)%nat |} in
  (exists evicted kept : Cache,
      final (set clk key d ttl n c) = map_set key item kept
      /\ Permutation live (evicted ++ kept)
      /\ (size live < maxCacheSize -> evicted = [] /\ kept = live)
      /\ (maxCacheSize <= size live ->
          10 * size evicted = 3 * size live
          /\ (forall e s, In e evicted -> In s kept ->
                          lastAccessed (snd e) <= lastAccessed (snd s))
          /\ (forall s, In s live ->
                        (length evicted <= length (stalerThan s live))%nat ->
                        In s kept)))
  /\ (forall k hit, map_get k c = Some hit -> clk n <= expiresAt hit ->
        let read := get clk k n c in
        exists fresh,
          result read = Some (data hit)
          /\ readings read = S (S n)
          /\ map_get k (final read) = Some fresh
          /\ lastAccessed fresh = clk (S n)
          /\ data fresh = data hit
          /\ expiresAt fresh = expiresAt hit
          /\ createdAt fresh = createdAt hit
          /\ size (final read) = size c
          /\ (k <> key ->
              clk (readings read) <= expiresAt hit ->
              (lruBatch
               <= length (List.filter (fun e => (lastAccessed (snd e) <? clk (S n))%Z)
                                      (liveAt (clk (readings read)) (final read))))%nat ->
              map_get k (final (set clk key d ttl (readings read) (final read))) = Some fresh)).
Proof.
  intros Hok Hfull live item. split.
  - rewrite set_run.
    replace (size c >=? maxCacheSize) with true by (symmetry; apply Z.geb_le; lia).
    unfold final at 1. simpl snd. rewrite cleanup_run. unfold final. simpl snd.
    destruct Hok as [Hnd Hsz].
    rewrite (removeExpired_live (clk n) c Hnd). fold live.
    destruct (liveAt_ok (clk n) c (conj Hnd Hsz)) as [Hnd' Hsz']. fold live in Hnd', Hsz'.
    destruct (size live >=? maxCacheSize) eqn:Hlive.
    + exists (itemsToRemove live), (removeAll (itemsToRemove live) live).
      assert (Hlen : (lruBatch <= length live)%nat).
      { rewrite lruBatch_value. unfold size, maxCacheSize in *. lia. }
      assert (Hlru : forall e s, In e (itemsToRemove live) ->
                                 In s (removeAll (itemsToRemove live) live) ->
                                 lastAccessed (snd e) <= lastAccessed (snd s)).
      { intros e s. now apply removeAll_lru. }
      split; [reflexivity|]. split; [now apply removeAll_split|].
      split; [intros Hlt; lia|]. intros _.
      split; [|split].
      * unfold size in *. rewrite (itemsToRemove_length live Hlen), lruBatch_value.
        unfold maxCacheSize in *. lia.
      * exact Hlru.
      * intros s Hs Hcount.
        apply (lru_keeps_fresh live (itemsToRemove live)); auto.
        now apply removeAll_split.
    + exists [], live.
      split; [reflexivity|]. split; [reflexivity|].
      split; [now split|]. intros Hge. lia.
  - intros k hit Hget Hfresh read.
    assert (Hread : read = (Some (data hit), S (S n), map_replace k (touch (clk (S n)) hit) c)).
    { unfold read. rewrite get_run, Hget.
      replace (clk n >? expiresAt hit) with false
        by (symmetry; rewrite Z.gtb_ltb; apply Z.ltb_ge; lia).
      reflexivity. }
    set (fresh := touch (clk (S n)) hit).
    set (c' := map_replace k fresh c).
    assert (Hstored : map_get k c' = Some fresh).
    { unfold c'. now rewrite map_replace_get, String.eqb_refl, Hget. }
    exists fresh. rewrite Hread. unfold result, readings, final. cbn [fst snd].
    fold fresh. fold c'.
    split; [reflexivity|]. split; [reflexivity|]. split; [exact Hstored|].
    split; [reflexivity|]. split; [reflexivity|]. split; [reflexivity|].
    split; [reflexivity|].
    assert (Hsize : size c' = size c).
    { unfold size, c'. now rewrite map_replace_length. }
    split; [exact Hsize|].
    intros Hne Hlive Hstale.
    assert (Hok' : cache_ok c') by now apply map_replace_ok.
    destruct Hok' as [Hnd' Hsz'].
    rewrite set_run.
    replace (size c' >=? maxCacheSize) with true by (symmetry; apply Z.geb_le; lia).
    unfold final at 1. cbn [snd]. rewrite cleanup_run. unfold final. cbn [snd].
    rewrite (removeExpired_live (clk (S (S n))) c' Hnd').
    set (live' := liveAt (clk (S (S n))) c') in *.
    destruct (liveAt_ok (clk (S (S n))) c' (conj Hnd' Hsz')) as [Hndl Hszl].
    fold live' in Hndl, Hszl.
    assert (Hin : In (k, fresh) live').
    { unfold live', liveAt. apply filter_In. split; [now apply map_get_Some_In|].
      unfold expiredAt. cbn [snd]. apply Bool.negb_true_iff.
      rewrite Z.gtb_ltb. apply Z.ltb_ge. exact Hlive. }
    rewrite map_get_set_other by exact Hne.
    destruct (size live' >=? maxCacheSize) eqn:Hcap.
    + assert (Hlen : (lruBatch <= length live')%nat).
      { pose proof (filter_length_le
                      (fun e : Entry => lastAccessed (snd e) <? clk (S n)) live'). lia. }
      pose proof (removeAll_split live' Hndl) as Hsplit.
      apply map_get_In.
      * assert (Hkeys : List.NoDup (map fst (itemsToRemove live' ++ removeAll (itemsToRemove live') live'))).
        { eapply Permutation.Permutation_NoDup; [apply Permutation_map; exact Hsplit|].
          exact Hndl. }
        rewrite map_app in Hkeys. now apply List.NoDup_app_remove_l in Hkeys.
      * apply (lru_keeps_fresh live' (itemsToRemove live')); auto.
        -- intros e s. now apply removeAll_lru.
        -- rewrite (itemsToRemove_length live' Hlen). exact Hstale.
    + now apply map_get_In.
Qed.

End CacheFacts.

Section CacheExamples.
Import Clocked CacheManager Scenario.
Local Open Scope string_scope.
Local Open Scope Z_scope.

Lemma fullCache_ok : cache_ok fullCache.
Proof. apply performAll_ok, empty_ok. Qed.

Lemma fullCache_size : size fullCache = 100.
Proof. vm_compute. reflexivity. Qed.

(** The theorem at a full cache none of whose entries has expired: a
    write evicts 30 of the 100 entries; when the oldest entry is read
    first, the read is its last access and the entry outlives the write. *)
Lemma cleanup_evicts_lru_witness :
  (exists evicted kept : @Cache nat,
      final (set (ticking t0) "fresh" 7%nat SEARCH_RESULTS 300%nat fullCache)
      = map_set "fresh"
                {| data := 7%nat; expiresAt := ticking t0 301 + SEARCH_RESULTS;
                   lastAccessed := ticking t0 302; createdAt := ticking t0 303 |}
                kept
      /\ Permutation (liveAt (ticking t0 300) fullCache) (evicted ++ kept)
      /\ 10 * size evicted = 3 * size (liveAt (ticking t0 300) fullCache))
  /\ (exists fresh : @CacheItem nat,
        map_get "k0"
          (final (set (ticking t0) "fresh" 7%nat SEARCH_RESULTS 302%nat
                      (final (get (ticking t0) "k0" 300%nat fullCache))))
        = Some fresh
        /\ lastAccessed fresh = ticking t0 301).
Proof.
  destruct (cleanup_evicts_lru (ticking t0) "fresh" 7%nat SEARCH_RESULTS 300%nat fullCache)
    as [(evicted & kept & Hset & Hperm & _ & Hlru) Hread].
  - exact fullCache_ok.
  - rewrite fullCache_size. vm_compute. discriminate.
  - split.
    + exists evicted, kept. split; [exact Hset|]. split; [exact Hperm|].
      apply Hlru. vm_compute. discriminate.
    + destruct (map_get "k0" fullCache) as [hit|] eqn:Hget;
        [|vm_compute in Hget; discriminate Hget].
      assert (Hhit : hit = {| data := 0%nat; expiresAt := ticking t0 0 + SEARCH_RESULTS;
                              lastAccessed := ticking t0 1; createdAt := ticking t0 2 |}).
      { pose proof Hget as Hval. vm_compute in Hval. injection Hval as <-.
        vm_compute. reflexivity. }
      destruct (Hread "k0" hit Hget) as (fresh & _ & _ & _ & Hlast & _ & _ & _ & _ & Hkept).
      { rewrite Hhit. vm_compute. discriminate. }
      exists fresh. split; [|exact Hlast].
      apply Hkept.
      * discriminate.
      * rewrite Hhit. vm_compute. discriminate.
      * vm_compute. repeat constructor.
Defined.

(** One hundred and one writes into an empty cache. *)
Lemma capacity_invariant_witness :
  size (final (performAll (ticking t0) (firstn 101 (fillCalls ++ [CallSet "fresh" 7%nat SEARCH_RESULTS]))
                          0%nat (@nil (string * @CacheItem nat)))) <= 100.
Proof. apply capacity_invariant. Defined.

(** The oldest entry of the full cache is read, then one more entry is
    written: the entry that was read stays, the thirty entries written
    after it go. *)
Example refreshed_entry_survives :
  let afterGet := get (ticking t0) "k0" 300%nat fullCache in
  let afterSet := set (ticking t0) "fresh" 7%nat SEARCH_RESULTS (readings afterGet) (final afterGet) in
  result afterGet = Some 0%nat
  /\ map (fun e => fst e) (firstn 3 (final afterSet)) = ["k0"; "k31"; "k32"]
  /\ size (final afterSet) = 71.
Proof. vm_compute. repeat split. Qed.

End CacheExamples.

(** ** The usage ledger *)

Section LedgerFacts.
Import Clocked APIUsageManager.
Variable clk : nat -> Z.
Variable toDateString : Z -> string.
Local Open Scope Z_scope.

(** Reading the ledger writes nothing. *)
Lemma getUsageData_pure (n : nat) (st : Storage) :
  final (getUsageData clk toDateString n st) = st.
Proof.
  unfold getUsageData, bind, gets, createNewUsageData, todayString, dateNow, ret, final.
  destruct (slot st) as [| |d]; simpl; try reflexivity.
  destruct (negb (String.eqb (date d) (toDateString (clk n)))); reflexivity.
Qed.

Lemma canMakeCall_run (n : nat) (st : Storage) :
  canMakeCall clk toDateString n st
  = (calls (result (getUsageData clk toDateString n st)) <? dailyLimit,
     readings (getUsageData clk toDateString n st),
     st).
Proof.
  pose proof (getUsageData_pure n st) as Hpure.
  unfold canMakeCall, bind, ret, result, readings, final in *.
  destruct (getUsageData clk toDateString n st) as [[d n'] st']. simpl in *. now subst.
Qed.

Lemma getUsageStats_status (n : nat) (st : Storage) :
  stat_status (result (getUsageStats clk toDateString n st))
  = getUsageStatus
      ((inject_Z (calls (result (getUsageData clk toDateString n st))) / inject_Z dailyLimit) * 100)%Q.
Proof.
  unfold getUsageStats, bind, ret, result.
  destruct (getUsageData clk toDateString n st) as [[d n'] st']. reflexivity.
Qed.

Lemma getUsageStatus_critical (usagePercent : Q) :
  getUsageStatus usagePercent = Critical <-> (criticalThreshold * 100 <= usagePercent)%Q.
Proof.
  unfold getUsageStatus. rewrite <- Qle_bool_iff.
  destruct (Qle_bool (criticalThreshold * 100) usagePercent).
  - tauto.
  - destruct (Qle_bool (warningThreshold * 100) usagePercent); split; discriminate.
Qed.

(** C8. Whatever the storage holds, with [data] the ledger as it is read:
    [canMakeCall()] is false exactly when [data.calls >= 150], and the
    status of [getUsageStats()] is critical exactly when
    [data.calls / 150 >= 0.95]. *)
Theorem quota_gating (n : nat) (st : Storage) :
  let data := result (getUsageData clk toDateString n st) in
  (result (canMakeCall clk toDateString n st) = false <-> 150 <= calls data)
  /\ (stat_status (result (getUsageStats clk toDateString n st)) = Critical
      <-> (95 # 100 <= inject_Z (calls data) / 150)%Q).
Proof.
  intros data. split.
  - rewrite canMakeCall_run. unfold result at 1. simpl. fold data.
    unfold dailyLimit. apply Z.ltb_ge.
  - rewrite getUsageStats_status, getUsageStatus_critical. fold data.
    unfold criticalThreshold, dailyLimit.
    change (inject_Z 150) with (150 : Q).
    split; intros H.
    + apply (Qmult_le_r _ _ 100); [reflexivity | exact H].
    + apply (Qmult_le_r _ _ 100) in H; [exact H | reflexivity].
Qed.

(** The thresholds in whole calls: critical from the 143rd call on. *)
Lemma critical_from_143 (callsMade : Z) :
  (95 # 100 <= inject_Z callsMade / 150)%Q <-> 143 <= callsMade.
Proof.
  unfold Qle, Qdiv, Qmult, Qinv, inject_Z. simpl. lia.
Qed.

(** C9. A read of the ledger compares the stored date with the date of
    today first; on a mismatch what is read is a zeroed ledger dated today,
    whatever the stored counters were, and nothing is written: the
    ledger reports no call made, allows a call, and the counters of the new
    day start from zero. *)
Theorem ledger_day_rollover (n : nat) (st : Storage) (stored : UsageData) (ep : string) :
  slot st = Parsed stored ->
  date stored <> toDateString (clk n) ->
  let fresh := {| date := toDateString (clk (1 + n)); calls := 0; endpoints := ∅;
                  lastReset := clk (2 + n); errors := 0; cached := 0 |} in
  getUsageData clk toDateString n st = (fresh, (3 + n)%nat, st)
  /\ result (canMakeCall clk toDateString n st) = true
  /\ stat_calls (result (getUsageStats clk toDateString n st)) = 0
  /\ stat_remaining (result (getUsageStats clk toDateString n st)) = 150
  /\ calls (result (recordCall clk toDateString ep true n st)) = 1
  /\ errors (result (recordCall clk toDateString ep false n st)) = 1
  /\ cached (result (recordCacheHit clk toDateString n st)) = 1.
Proof.
  intros Hslot Hdate fresh.
  assert (Hread : getUsageData clk toDateString n st = (fresh, (3 + n)%nat, st)).
  { unfold getUsageData, bind, gets. rewrite Hslot.
    unfold todayString, bind, dateNow, ret.
    apply String.eqb_neq in Hdate. rewrite Hdate. reflexivity. }
  split; [exact Hread|].
  unfold canMakeCall, getUsageStats, recordCall, recordCacheHit, bind.
  rewrite Hread. repeat split.
Qed.

End LedgerFacts.

Section LedgerExamples.
Import Clocked APIUsageManager Scenario.
Local Open Scope Z_scope.

(** The ledger of yesterday with 150 calls, read today. *)
Lemma ledger_day_rollover_witness :
  calls (result (getUsageData (ticking t0) dayString 0%nat yesterdayStorage)) = 0
  /\ result (canMakeCall (ticking t0) dayString 0%nat yesterdayStorage) = true.
Proof.
  destruct (ledger_day_rollover (ticking t0) dayString 0%nat yesterdayStorage
                                yesterdayLedger "/complexSearch"%string)
    as (Hread & Hcan & _).
  - reflexivity.
  - vm_compute. discriminate.
  - rewrite Hread. split; [reflexivity | exact Hcan].
Defined.

(** With 150 calls recorded today no call may be made and the status is
    critical. *)
Lemma quota_gating_witness :
  result (canMakeCall (ticking t0) dayString 0%nat exhaustedStorage) = false
  /\ stat_status (result (getUsageStats (ticking t0) dayString 0%nat exhaustedStorage)) = Critical.
Proof.
  destruct (quota_gating (ticking t0) dayString 0%nat exhaustedStorage) as [Hcan Hstatus].
  split.
  - apply Hcan. vm_compute. discriminate.
  - apply Hstatus. vm_compute. discriminate.
Defined.

(** The same ledger dated today keeps its 150 calls and forbids a call. *)
Example exhausted_today :
  calls (result (getUsageData (ticking t0) dayString 0%nat exhaustedStorage)) = 150
  /\ result (canMakeCall (ticking t0) dayString 0%nat exhaustedStorage) = false.
Proof. vm_compute. split; reflexivity. Qed.

End LedgerExamples.

(** ** The service *)

Section ServiceFacts.
Import Js Clocked LocalRecipes RecipeService.
Variable clk : nat -> Z.
Variable toDateString : Z -> string.
Variable envKey : option string.
Local Open Scope string_scope.
Local Open Scope Z_scope.

Lemma map_get_delete {D : Type} (key : string) (c : @CacheManager.Cache D) :
  CacheManager.map_get key (CacheManager.map_delete key c) = None.
Proof.
  apply map_get_None. intros Hin. apply in_map_iff in Hin.
  destruct Hin as [[k item] [Hk Hin]]. simpl in Hk. subst k.
  apply filter_In in Hin. destruct Hin as [_ Hneq]. simpl in Hneq.
  now rewrite String.eqb_refl in Hneq.
Qed.

(** After a miss the key is not in the cache. *)
Lemma get_miss_absent {D : Type} (key : string) (n : nat) (c : @CacheManager.Cache D) :
  result (CacheManager.get clk key n c) = None ->
  CacheManager.map_get key (final (CacheManager.get clk key n c)) = None.
Proof.
  rewrite get_run. destruct (CacheManager.map_get key c) as [item|] eqn:Hget.
  - destruct (clk n >? CacheManager.expiresAt item); unfold result, final; simpl.
    + intros _. apply map_get_delete.
    + discriminate.
  - intros _. exact Hget.
Qed.

(** Whatever the query and the options, the local search returns recipes
    of the catalog. *)
Lemma getLocalRecipes_incl (query : option string) (options : JsObject) (x : Recipe) :
  In x (getLocalRecipes query options) -> In x recipeDatabase.
Proof.
  unfold getLocalRecipes.
  destruct (filtersByVegetarian options), (filtersByCategory options), query as [q|];
    try destruct (filtersByText (Some q));
    rewrite ?filter_In; tauto.
Qed.

(** The fallback branch of [searchRecipes]: the cache misses and the
    service is not configured or the quota is used up. *)
Lemma searchRecipes_fallback (query : string) (options : JsObject)
      (net : Response (option (list Recipe))) (n : nat) (w : World) :
  let probe := CacheManager.get clk (searchKey query options) n (searchCache w) in
  result probe = None ->
  isApiConfigured envKey = false
  \/ result (APIUsageManager.canMakeCall clk toDateString (readings probe) (usage w)) = false ->
  let r := searchRecipes clk toDateString envKey query options net n w in
  result r = Returned (getLocalRecipes (Some query) options)
  /\ requests (final r) = requests w
  /\ usage (final r) = usage w
  /\ searchCache (final r) = final probe.
Proof.
  intros probe Hmiss Hgate r. subst r. unfold searchRecipes, bind, onCache, zoom.
  fold probe. destruct probe as [[cached n'] c'] eqn:Hprobe.
  unfold result, readings, final in *. simpl in Hmiss, Hgate. subst cached.
  destruct (isApiConfigured envKey) eqn:Hconf; simpl.
  - destruct Hgate as [Hgate|Hgate]; [discriminate|].
    unfold onUsage, zoom. simpl. rewrite canMakeCall_run in Hgate |- *.
    simpl in Hgate. rewrite Hgate. simpl. repeat split.
  - repeat split.
Qed.

(** C3. When the cache misses and the service is not configured or
    [canMakeCall()] is false, [searchRecipes("chicken", {})] returns the
    recipes of the bundled catalog that mention chicken (there are some),
    sends no request, leaves the stored ledger as it was (so [calls] is
    unchanged), and leaves no entry under the key of the search. *)
Theorem fallback_substitution (net : Response (option (list Recipe))) (n : nat) (w : World) :
  let key := searchKey "chicken" [] in
  let probe := CacheManager.get clk key n (searchCache w) in
  result probe = None ->
  isApiConfigured envKey = false
  \/ result (APIUsageManager.canMakeCall clk toDateString (readings probe) (usage w)) = false ->
  let r := searchRecipes clk toDateString envKey "chicken" [] net n w in
  result r = Returned (getLocalRecipes (Some "chicken") [])
  /\ getLocalRecipes (Some "chicken") [] <> []
  /\ (forall x, In x (getLocalRecipes (Some "chicken") []) -> In x recipeDatabase)
  /\ requests (final r) = requests w
  /\ usage (final r) = usage w
  /\ CacheManager.map_get key (searchCache (final r)) = None.
Proof.
  intros key probe Hmiss Hgate r.
  destruct (searchRecipes_fallback "chicken" [] net n w Hmiss Hgate)
    as (Hres & Hreq & Huse & Hcache).
  fold r in Hres, Hreq, Huse, Hcache.
  split; [exact Hres|]. split; [vm_compute; discriminate|].
  split; [|split; [exact Hreq|split; [exact Huse|]]].
  - intros x. apply getLocalRecipes_incl.
  - rewrite Hcache. now apply get_miss_absent.
Qed.

(** The recipes that pass the category and vegetarian options. *)
Lemma getLocalRecipes_unfiltered (query : option string) (options : JsObject) (x : Recipe) :
  filtersByText query = false ->
  In x (getLocalRecipes query options)
  <-> In x recipeDatabase
      /\ (filtersByCategory options = true -> obj_get "category" options = JStr (category x))
      /\ (filtersByVegetarian options = true -> obj_get "vegetarian" options = JBool (vegetarian x)).
Proof.
  intros Hq. unfold getLocalRecipes.
  assert (Hbase : match query with
                  | Some q => if filtersByText query
                              then List.filter (matchesText q) recipeDatabase
                              else recipeDatabase
                  | None => recipeDatabase
                  end = recipeDatabase).
  { destruct query; [now rewrite Hq | reflexivity]. }
  rewrite Hbase. clear Hbase.
  assert (Hcat : forall v c, strictEqString v c = true <-> v = JStr c).
  { intros v c. destruct v; simpl; try (split; [discriminate|congruence]).
    rewrite String.eqb_eq. split; congruence. }
  assert (Hveg : forall v b, strictEqBool v b = true <-> v = JBool b).
  { intros v b. destruct v; simpl; try (split; [discriminate|congruence]).
    rewrite Bool.eqb_true_iff. split; congruence. }
  destruct (filtersByCategory options), (filtersByVegetarian options);
    rewrite ?filter_In, ?Hcat, ?Hveg; intuition congruence.
Qed.

(** C10. The queries ["random"], ["similar"] and the empty query are not
    searched for in the text of the recipes: [getLocalRecipes] returns the
    catalog narrowed by the category and vegetarian options only, and with
    no option the whole catalog; so a [searchRecipes("random", {})] that
    falls back to the local data returns every recipe of the catalog,
    although no recipe mentions the word. *)
Theorem local_search_special_queries :
  (forall query options x,
      In query ["random"; "similar"; EmptyString] ->
      (In x (getLocalRecipes (Some query) options)
       <-> In x recipeDatabase
           /\ (filtersByCategory options = true ->
               obj_get "category" options = JStr (category x))
           /\ (filtersByVegetarian options = true ->
               obj_get "vegetarian" options = JBool (vegetarian x))))
  /\ (forall query, In query ["random"; "similar"; EmptyString] ->
                    getLocalRecipes (Some query) [] = recipeDatabase)
  /\ List.filter (matchesText "random") recipeDatabase = []
  /\ (forall net n w,
         let probe := CacheManager.get clk (searchKey "random" []) n (searchCache w) in
         result probe = None ->
         isApiConfigured envKey = false
         \/ result (APIUsageManager.canMakeCall clk toDateString (readings probe) (usage w)) = false ->
         result (searchRecipes clk toDateString envKey "random" [] net n w)
         = Returned recipeDatabase).
Proof.
  split; [|split; [|split]].
  - intros query options x Hq. apply getLocalRecipes_unfiltered.
    simpl in Hq. destruct Hq as [<-|[<-|[<-|[]]]]; reflexivity.
  - intros query Hq. simpl in Hq. destruct Hq as [<-|[<-|[<-|[]]]]; reflexivity.
  - vm_compute. reflexivity.
  - intros net n w probe Hmiss Hgate.
    destruct (searchRecipes_fallback "random" [] net n w Hmiss Hgate) as (Hres & _).
    exact Hres.
Qed.

End ServiceFacts.

Section ServiceExamples.
Import Js Clocked LocalRecipes RecipeService Scenario.
Local Open Scope string_scope.
Local Open Scope Z_scope.

(** The quota of today is used up: the search for chicken is answered
    from the catalog and nothing is sent. *)
Lemma fallback_substitution_witness :
  let r := searchRecipes (ticking t0) dayString someKey "chicken" [] (Fulfilled None)
                         0%nat exhaustedWorld in
  result r = Returned (getLocalRecipes (Some "chicken") [])
  /\ requests (final r) = []
  /\ usage (final r) = exhaustedStorage.
Proof.
  destruct (fallback_substitution (ticking t0) dayString someKey (Fulfilled None)
                                  0%nat exhaustedWorld)
    as (Hres & _ & _ & Hreq & Huse & _).
  - vm_compute. reflexivity.
  - right. vm_compute. reflexivity.
  - split; [exact Hres|]. split; [exact Hreq | exact Huse].
Defined.

(** Without a credential the same search is answered from the catalog. *)
Example fallback_unconfigured :
  let r := searchRecipes (ticking t0) dayString None "chicken" [] (Fulfilled None)
                         0%nat freshWorld in
  result r = Returned (getLocalRecipes (Some "chicken") [])
  /\ map title (getLocalRecipes (Some "chicken") [])
     = ["Chicken Stir Fry"; "Chicken Biryani"; "Butter Chicken"; "Chicken Tikka Masala";
        "Chicken Curry"; "Chicken Korma"; "Tandoori Chicken"]
  /\ final r = freshWorld.
Proof. vm_compute. repeat split. Qed.

(** With the quota used up, the search for ["random"] returns the whole
    catalog of 55 recipes. *)
Lemma local_search_special_queries_witness :
  result (searchRecipes (ticking t0) dayString someKey "random" [] (Rejected None)
                        0%nat exhaustedWorld)
  = Returned recipeDatabase
  /\ length recipeDatabase = 55%nat.
Proof.
  destruct (local_search_special_queries (ticking t0) dayString someKey)
    as (_ & _ & _ & Hsearch).
  split; [|reflexivity].
  apply Hsearch.
  - vm_compute. reflexivity.
  - right. vm_compute. reflexivity.
Defined.

End ServiceExamples.

Section LedgerRuns.
Import Clocked APIUsageManager.
Variable clk : nat -> Z.
Variable toDateString : Z -> string.
Local Open Scope Z_scope.

Lemma getUsageData_date (n : nat) (st : Storage) :
  exists i, date (result (getUsageData clk toDateString n st)) = toDateString (clk i).
Proof.
  unfold getUsageData, bind, gets, createNewUsageData, todayString, dateNow, ret, result.
  destruct (slot st) as [| |d]; simpl; eauto.
  destruct (String.eqb (date d) (toDateString (clk n))) eqn:Hd; simpl; eauto.
  apply String.eqb_eq in Hd. eauto.
Qed.

Lemma getUsageData_fresh (n : nat) (st : Storage) :
  freshLedger st ->
  calls (result (getUsageData clk toDateString n st)) = 0
  /\ cached (result (getUsageData clk toDateString n st)) = 0.
Proof.
  unfold freshLedger, getUsageData, bind, gets, createNewUsageData, todayString, dateNow, ret, result.
  destruct (slot st) as [| |d]; simpl; auto.
  destruct (String.eqb (date d) (toDateString (clk n))); simpl; auto.
Qed.

(** A record of the current day is read back as it was stored. *)
Lemma getUsageData_stored (n : nat) (st : Storage) (d : UsageData) :
  sameDay clk toDateString ->
  slot st = Parsed d ->
  (exists i, date d = toDateString (clk i)) ->
  result (getUsageData clk toDateString n st) = d.
Proof.
  intros Hday Hslot [i Hd].
  unfold getUsageData, bind, gets, todayString, dateNow, ret, result. rewrite Hslot.
  simpl. rewrite Hd, (Hday i n), String.eqb_refl. reflexivity.
Qed.

Lemma recordCall_success (endpoint : string) (n : nat) (st : Storage) :
  let data := result (getUsageData clk toDateString n st) in
  let r := recordCall clk toDateString endpoint true n st in
  date (result r) = date data
  /\ calls (result r) = calls data + 1
  /\ endpoints (result r) !! endpoint = Some (default 0 (endpoints data !! endpoint) + 1)
  /\ errors (result r) = errors data
  /\ cached (result r) = cached data
  /\ final r = (if writable st then {| slot := Parsed (result r); writable := true |} else st).
Proof.
  pose proof (getUsageData_pure clk toDateString n st) as Hpure.
  unfold recordCall, saveUsageData, bind, modify, ret, result, final in *.
  destruct (getUsageData clk toDateString n st) as [[d n'] st']. simpl in *. subst st'.
  rewrite lookup_insert_eq.
  destruct (writable st) eqn:Hw; repeat split; reflexivity.
Qed.

Lemma recordCall_failure (endpoint : string) (n : nat) (st : Storage) :
  let data := result (getUsageData clk toDateString n st) in
  let r := recordCall clk toDateString endpoint false n st in
  date (result r) = date data
  /\ calls (result r) = calls data
  /\ endpoints (result r) = endpoints data
  /\ errors (result r) = errors data + 1
  /\ cached (result r) = cached data
  /\ final r = (if writable st then {| slot := Parsed (result r); writable := true |} else st).
Proof.
  pose proof (getUsageData_pure clk toDateString n st) as Hpure.
  unfold recordCall, saveUsageData, bind, modify, ret, result, final in *.
  destruct (getUsageData clk toDateString n st) as [[d n'] st']. simpl in *. subst st'.
  destruct (writable st) eqn:Hw; repeat split; reflexivity.
Qed.

Lemma recordCacheHit_run (n : nat) (st : Storage) :
  let data := result (getUsageData clk toDateString n st) in
  let r := recordCacheHit clk toDateString n st in
  date (result r) = date data
  /\ calls (result r) = calls data
  /\ endpoints (result r) = endpoints data
  /\ errors (result r) = errors data
  /\ cached (result r) = cached data + 1
  /\ final r = (if writable st then {| slot := Parsed (result r); writable := true |} else st).
Proof.
  pose proof (getUsageData_pure clk toDateString n st) as Hpure.
  unfold recordCacheHit, saveUsageData, bind, modify, ret, result, final in *.
  destruct (getUsageData clk toDateString n st) as [[d n'] st']. simpl in *. subst st'.
  destruct (writable st) eqn:Hw; repeat split; reflexivity.
Qed.

End LedgerRuns.

Section ServiceRuns.
Import Js Clocked LocalRecipes RecipeService.
Variable clk : nat -> Z.
Variable toDateString : Z -> string.
Variable envKey : option string.
Local Open Scope string_scope.
Local Open Scope Z_scope.

(** The branch of [searchRecipes] that is answered from the cache. *)
Lemma searchRecipes_hit (query : string) (options : JsObject)
      (net : Response (option (list Recipe))) (n : nat) (w : World) (hit : list Recipe) :
  let probe := CacheManager.get clk (searchKey query options) n (searchCache w) in
  result probe = Some hit ->
  let rec := APIUsageManager.recordCacheHit clk toDateString (readings probe) (usage w) in
  searchRecipes clk toDateString envKey query options net n w
  = (Returned hit, readings rec,
     {| searchCache := final probe; usage := final rec; requests := requests w |}).
Proof.
  intros probe Hhit rec. subst rec. unfold searchRecipes, bind, onCache, onUsage, zoom.
  fold probe. destruct probe as [[cached n'] c'].
  unfold result, readings, final in *. simpl in Hhit. subst cached. simpl.
  destruct (APIUsageManager.recordCacheHit clk toDateString n' (usage w)) as [[d n''] u'].
  reflexivity.
Qed.

(** The branch of [searchRecipes] in which the request is answered. *)
Lemma searchRecipes_fulfilled (query : string) (options : JsObject)
      (body : option (list Recipe)) (n : nat) (w : World) :
  let key := searchKey query options in
  let probe := CacheManager.get clk key n (searchCache w) in
  let gate := APIUsageManager.canMakeCall clk toDateString (readings probe) (usage w) in
  let rec := APIUsageManager.recordCall clk toDateString "/complexSearch" true
                                        (readings gate) (usage w) in
  let store := CacheManager.set clk key (default [] body) CacheManager.SEARCH_RESULTS
                                (readings rec) (final probe) in
  result probe = None ->
  isApiConfigured envKey = true ->
  result gate = true ->
  searchRecipes clk toDateString envKey query options (Fulfilled body) n w
  = (Returned (default [] body), readings store,
     {| searchCache := final store; usage := final rec;
        requests := requests w ++ [mkRequest "/complexSearch" (searchParams query options)] |}).
Proof.
  intros key probe gate rec store Hmiss Hconf Hgate.
  unfold store, rec, gate, probe in *. clear store rec gate probe.
  unfold searchRecipes, bind, onCache, onUsage, zoom, send, modify.
  fold key.
  destruct (CacheManager.get clk key n (searchCache w)) as [[cached n1] c1].
  unfold result, readings, final in *. simpl in *. subst cached.
  rewrite Hconf. simpl.
  rewrite canMakeCall_run in *. simpl in *. rewrite Hgate. simpl.
  destruct (APIUsageManager.recordCall clk toDateString "/complexSearch" true _ (usage w))
    as [[d n3] u3].
  simpl.
  destruct (CacheManager.set clk key (default [] body) CacheManager.SEARCH_RESULTS n3 c1)
    as [[u n4] c4].
  reflexivity.
Qed.

(** The branch of [searchRecipes] in which the request fails. *)
Lemma searchRecipes_rejected (query : string) (options : JsObject)
      (status : option Z) (n : nat) (w : World) :
  let key := searchKey query options in
  let probe := CacheManager.get clk key n (searchCache w) in
  let gate := APIUsageManager.canMakeCall clk toDateString (readings probe) (usage w) in
  let rec := APIUsageManager.recordCall clk toDateString "/complexSearch" false
                                        (readings gate) (usage w) in
  result probe = None ->
  isApiConfigured envKey = true ->
  result gate = true ->
  searchRecipes clk toDateString envKey query options (Rejected status) n w
  = ((if quotaSignal status then Returned (getLocalRecipes (Some query) options)
      else Thrown (HttpError status)),
     readings rec,
     {| searchCache := final probe; usage := final rec;
        requests := requests w ++ [mkRequest "/complexSearch" (searchParams query options)] |}).
Proof.
  intros key probe gate rec Hmiss Hconf Hgate.
  unfold rec, gate, probe in *. clear rec gate probe.
  unfold searchRecipes, bind, onCache, onUsage, zoom, send, modify.
  fold key.
  destruct (CacheManager.get clk key n (searchCache w)) as [[cached n1] c1].
  unfold result, readings, final in *. simpl in *. subst cached.
  rewrite Hconf. simpl.
  rewrite canMakeCall_run in *. simpl in *. rewrite Hgate. simpl.
  destruct (APIUsageManager.recordCall clk toDateString "/complexSearch" false _ (usage w))
    as [[d n3] u3].
  simpl. destruct (quotaSignal status); reflexivity.
Qed.

End ServiceRuns.

Section ServiceScenario.
Import Js Clocked LocalRecipes RecipeService.
Variable clk : nat -> Z.
Variable toDateString : Z -> string.
Variable envKey : option string.
Local Open Scope string_scope.
Local Open Scope Z_scope.

(** C2. From a fresh ledger, an empty search cache and a configured
    credential, a search that the network answers returns the answer,
    sends one request, leaves the ledger at [calls = 1] and the answer in
    the search cache under the key of the search; the same search made
    again at once (before the entry expires, on the same day) returns the
    cached answer, sends nothing, and leaves the ledger at [calls = 1],
    [cached = 1]. *)
Theorem search_then_cache_hit (query : string) (options : JsObject)
        (body : option (list Recipe)) (net2 : Response (option (list Recipe)))
        (n : nat) (w0 : World) :
  isApiConfigured envKey = true ->
  searchCache w0 = [] ->
  APIUsageManager.freshLedger (usage w0) ->
  APIUsageManager.writable (usage w0) = true ->
  APIUsageManager.sameDay clk toDateString ->
  within clk CacheManager.SEARCH_RESULTS ->
  let key := searchKey query options in
  let results := default [] body in
  let r1 := searchRecipes clk toDateString envKey query options (Fulfilled body) n w0 in
  let r2 := searchRecipes clk toDateString envKey query options net2 (readings r1) (final r1) in
  let ledger1 :=
    result (APIUsageManager.getUsageData clk toDateString (readings r1) (usage (final r1))) in
  let ledger2 :=
    result (APIUsageManager.getUsageData clk toDateString (readings r2) (usage (final r2))) in
  result r1 = Returned results
  /\ requests (final r1)
     = (requests w0 ++ [mkRequest "/complexSearch" (searchParams query options)])%list
  /\ APIUsageManager.calls ledger1 = 1
  /\ (exists item, CacheManager.map_get key (searchCache (final r1)) = Some item
                   /\ CacheManager.data item = results)
  /\ result r2 = Returned results
  /\ requests (final r2) = requests (final r1)
  /\ APIUsageManager.calls ledger2 = 1
  /\ APIUsageManager.cached ledger2 = 1.
Proof.
  intros Hconf Hempty Hfresh Hwr Hday Himm key results.
  (* the first call: miss, gate, request, record, store *)
  set (gate := APIUsageManager.canMakeCall clk toDateString n (usage w0)).
  set (rec := APIUsageManager.recordCall clk toDateString "/complexSearch" true
                                         (readings gate) (usage w0)).
  set (m := readings rec).
  set (item := {| CacheManager.data := results;
                  CacheManager.expiresAt := clk m + CacheManager.SEARCH_RESULTS;
                  CacheManager.lastAccessed := clk (1 + m)%nat;
                  CacheManager.createdAt := clk (2 + m)%nat |}).
  set (u1 := {| APIUsageManager.slot := APIUsageManager.Parsed (result rec);
                APIUsageManager.writable := true |}).
  assert (Hgate : result gate = true).
  { unfold gate. rewrite canMakeCall_run. unfold result at 1. simpl.
    destruct (getUsageData_fresh clk toDateString n (usage w0) Hfresh) as [-> _].
    reflexivity. }
  destruct (recordCall_success clk toDateString "/complexSearch" (readings gate) (usage w0))
    as (Hdate1 & Hcalls1 & _ & _ & Hcached1 & Hfinal1).
  fold rec in Hdate1, Hcalls1, Hcached1, Hfinal1.
  destruct (getUsageData_fresh clk toDateString (readings gate) (usage w0) Hfresh)
    as [Hc0 Hh0].
  rewrite Hc0 in Hcalls1. rewrite Hh0 in Hcached1. rewrite Hwr in Hfinal1. fold u1 in Hfinal1.
  destruct (getUsageData_date clk toDateString (readings gate) (usage w0)) as [i1 Hd1].
  rewrite Hd1 in Hdate1.
  assert (Hrun1 : searchRecipes clk toDateString envKey query options (Fulfilled body) n w0
                  = (Returned results, (3 + m)%nat,
                     {| searchCache := [(key, item)]; usage := u1;
                        requests := (requests w0 ++
                                     [mkRequest "/complexSearch" (searchParams query options)])%list |})).
  { pose proof (searchRecipes_fulfilled clk toDateString envKey query options body n w0) as H.
    cbv zeta in H. rewrite Hempty in H.
    rewrite H; [|reflexivity|exact Hconf|exact Hgate].
    fold key results.
    change (readings (CacheManager.get clk key n [])) with n.
    change (final (CacheManager.get clk key n [])) with (@nil (string * @CacheManager.CacheItem (list Recipe))).
    fold gate. fold rec. fold m. rewrite Hfinal1, set_run. reflexivity. }
  (* the second call: hit, record *)
  set (w1 := {| searchCache := [(key, item)]; usage := u1;
                requests := (requests w0 ++
                             [mkRequest "/complexSearch" (searchParams query options)])%list |}) in *.
  set (n1 := (3 + m)%nat) in *.
  assert (Hprobe2 : CacheManager.get clk key n1 (searchCache w1)
                    = (Some results, S (S n1),
                       [(key, CacheManager.touch (clk (S n1)) item)])).
  { rewrite get_run. simpl. rewrite String.eqb_refl.
    replace (clk n1 >? CacheManager.expiresAt item) with false; [reflexivity|].
    symmetry. rewrite Z.gtb_ltb. apply Z.ltb_ge. apply Himm. }
  set (rec2 := APIUsageManager.recordCacheHit clk toDateString (S (S n1)) u1).
  destruct (recordCacheHit_run clk toDateString (S (S n1)) u1)
    as (Hdate2 & Hcalls2 & _ & _ & Hcached2 & Hfinal2).
  fold rec2 in Hdate2, Hcalls2, Hcached2, Hfinal2.
  assert (Hread1 : forall k, result (APIUsageManager.getUsageData clk toDateString k u1) = result rec).
  { intros k. apply getUsageData_stored; [exact Hday|reflexivity|eauto]. }
  rewrite Hread1 in Hdate2, Hcalls2, Hcached2. simpl in Hfinal2.
  assert (Hrun2 : searchRecipes clk toDateString envKey query options net2 n1 w1
                  = (Returned results, readings rec2,
                     {| searchCache := [(key, CacheManager.touch (clk (S n1)) item)];
                        usage := final rec2; requests := requests w1 |})).
  { pose proof (searchRecipes_hit clk toDateString envKey query options net2 n1 w1 results) as H.
    cbv zeta in H. fold key in H. rewrite Hprobe2 in H. apply H. reflexivity. }
  assert (Hread2 : forall k, result (APIUsageManager.getUsageData clk toDateString k (final rec2))
                             = result rec2).
  { intros k. rewrite Hfinal2. apply getUsageData_stored; [exact Hday|reflexivity|].
    exists i1. congruence. }
  intros r1 r2 ledger1 ledger2. subst ledger2 ledger1 r2 r1.
  rewrite Hrun1.
  change (readings (Returned results, n1, w1)) with n1.
  change (final (Returned results, n1, w1)) with w1.
  rewrite Hrun2.
  unfold result, readings, final in *. cbn [fst snd usage requests searchCache] in *.
  change (usage w1) with u1.
  rewrite Hread1, Hread2, Hcalls2, Hcached2, Hcalls1, Hcached1.
  repeat split; try reflexivity.
  exists item. split; [|reflexivity].
  subst w1. simpl. now rewrite String.eqb_refl.
Qed.
End ServiceScenario.

Section ServiceScenarioExamples.
Import Js Clocked LocalRecipes RecipeService Scenario.
Local Open Scope string_scope.
Local Open Scope Z_scope.

Lemma burst_sameDay : APIUsageManager.sameDay (burst t0) dayString.
Proof.
  assert (H : forall k, burst t0 k / msPerDay = 19675).
  { intros k. unfold burst. symmetry.
    apply (Z.div_unique _ _ _ (80000000 + Z.of_nat (Nat.min k 1000)));
      unfold t0, msPerDay; lia. }
  intros i j. unfold dayString. now rewrite !H.
Qed.

Lemma burst_within : within (burst t0) CacheManager.SEARCH_RESULTS.
Proof. intros i j. unfold burst, CacheManager.SEARCH_RESULTS. lia. Qed.

(** The scenario of the specification: [searchRecipes("pasta", {number: 5})]
    twice in a row. *)
Lemma search_then_cache_hit_witness :
  let r1 := searchRecipes (burst t0) dayString someKey "pasta" [("number", JNum 5)]
                          (Fulfilled (Some (firstn 5 recipeDatabase))) 0%nat freshWorld in
  let r2 := searchRecipes (burst t0) dayString someKey "pasta" [("number", JNum 5)]
                          (Rejected None) (readings r1) (final r1) in
  result r1 = Returned (firstn 5 recipeDatabase)
  /\ result r2 = Returned (firstn 5 recipeDatabase)
  /\ requests (final r2) = requests (final r1)
  /\ APIUsageManager.calls
       (result (APIUsageManager.getUsageData (burst t0) dayString (readings r2) (usage (final r2))))
     = 1
  /\ APIUsageManager.cached
       (result (APIUsageManager.getUsageData (burst t0) dayString (readings r2) (usage (final r2))))
     = 1.
Proof.
  destruct (search_then_cache_hit (burst t0) dayString someKey "pasta" [("number", JNum 5)]
                                  (Some (firstn 5 recipeDatabase)) (Rejected None)
                                  0%nat freshWorld)
    as (H1 & _ & _ & _ & H2 & Hreq & Hcalls & Hcached).
  - vm_compute. reflexivity.
  - reflexivity.
  - exact I.
  - reflexivity.
  - exact burst_sameDay.
  - exact burst_within.
  - repeat split; assumption.
Defined.

(** The scenario evaluated: one request, the answer under the canonical key. *)
Example pasta_search_run :
  let r1 := searchRecipes (burst t0) dayString someKey "pasta" [("number", JNum 5)]
                          (Fulfilled (Some [])) 0%nat freshWorld in
  let r2 := searchRecipes (burst t0) dayString someKey "pasta" [("number", JNum 5)]
                          (Fulfilled (Some [])) (readings r1) (final r1) in
  map endpoint (requests (final r2)) = ["/complexSearch"]
  /\ map fst (searchCache (final r2))
     = [CacheKey.generateKey "complexSearch" [("number", JNum 5); ("query", JStr "pasta")]]
  /\ readings r2 = 10%nat.
Proof. vm_compute. repeat split. Qed.

(** The three other operations never touch the ledger. *)
Lemma other_operations_leave_ledger (envKey : option string)
      {Details Match : Type} (recipeId number : Z) (ingredients : list string)
      (options : JsObject) (net1 : Response Details) (net2 : Response (option (list Recipe)))
      (net3 : Response (option (list Match))) (n : nat) (w : World) :
  usage (final (getRecipeDetails envKey recipeId net1 n w)) = usage w
  /\ usage (final (getRandomRecipes envKey number net2 n w)) = usage w
  /\ usage (final (findRecipesByIngredients envKey ingredients options net3 n w)) = usage w.
Proof.
  unfold getRecipeDetails, getRandomRecipes, findRecipesByIngredients, bind, send, modify, ret, final.
  destruct (isApiConfigured envKey), net1, net2, net3; simpl; repeat split.
Qed.

(** C1, at the failing input.  With a credential, a fresh ledger and a
    request that succeeds, [getRecipeDetails(716429)] sends its request
    and returns the body, and the ledger still reports no call; a failing
    request leaves [errors] at zero as well, while the same attempts made
    by [searchRecipes] are recorded. *)
Theorem getRecipeDetails_unrecorded :
  let ok := getRecipeDetails someKey 716429 (Fulfilled tt) 0%nat freshWorld in
  let ko := @getRecipeDetails someKey unit 716429 (Rejected (Some 500)) 0%nat freshWorld in
  let ledger w := result (APIUsageManager.getUsageData (ticking t0) dayString 0%nat (usage w)) in
  let search := searchRecipes (ticking t0) dayString someKey "pasta" []
                              (Fulfilled (Some [])) 0%nat freshWorld in
  let searchKo := searchRecipes (ticking t0) dayString someKey "pasta" []
                                (Rejected (Some 500)) 0%nat freshWorld in
  result ok = Returned tt
  /\ map endpoint (requests (final ok)) = ["/716429/information"]
  /\ APIUsageManager.calls (ledger (final ok)) = 0
  /\ usage (final ok) = usage freshWorld
  /\ result ko = Thrown (HttpError (Some 500))
  /\ APIUsageManager.errors (ledger (final ko)) = 0
  /\ APIUsageManager.calls (ledger (final search)) = 1
  /\ APIUsageManager.errors (ledger (final searchKo)) = 1.
Proof. vm_compute. repeat split. Qed.

End ServiceScenarioExamples.

(** ** The arithmetic of doubles *)

Section DoubleFacts.
Import JsNumber.
Local Open Scope Q_scope.

Lemma pow2_pos (e : Z) : 0 < pow2 e.
Proof. apply Qpower_0_lt. reflexivity. Qed.

Lemma pow2_plus (a b : Z) : pow2 (a + b) == pow2 a * pow2 b.
Proof. apply Qpower_plus. discriminate. Qed.

Lemma pow2_le (a b : Z) : (a <= b)%Z -> pow2 a <= pow2 b.
Proof. intros H. apply Qpower_le_compat_l; [exact H|discriminate]. Qed.

Lemma pow2_lt_inv (a b : Z) : pow2 a < pow2 b -> (a < b)%Z.
Proof. intros H. apply (Qpower_lt_compat_l_inv 2); [exact H|reflexivity]. Qed.

Lemma pow2_Z (e : Z) : (0 <= e)%Z -> pow2 e == inject_Z (2 ^ e).
Proof. intros H. unfold pow2. now rewrite Zpower_Qpower. Qed.

(** [ilog2 q] is the exponent of the binade of [q]. *)
Lemma ilog2_spec (q : Q) : 0 < q -> pow2 (ilog2 q) <= q /\ q < pow2 (ilog2 q + 1).
Proof.
  intros Hq. destruct q as [n d].
  assert (Hn : (0 < n)%Z) by (unfold Qlt in Hq; simpl in Hq; lia).
  destruct (Z.log2_spec n Hn) as [Hn1 Hn2].
  destruct (Z.log2_spec (Zpos d) (Pos2Z.is_pos d)) as [Hd1 Hd2].
  pose proof (Z.log2_nonneg n) as Hln. pose proof (Z.log2_nonneg (Zpos d)) as Hld.
  set (ln := Z.log2 n) in *. set (ld := Z.log2 (Zpos d)) in *.
  assert (HD : 0 < inject_Z (Zpos d)) by reflexivity.
  assert (Hfrac : n # d == inject_Z n / inject_Z (Zpos d)) by apply Qmake_Qdiv.
  assert (Hlow : pow2 (ln - ld - 1) <= n # d).
  { rewrite Hfrac. apply Qle_shift_div_l; [exact HD|].
    apply (Qle_trans _ (pow2 (ln - ld - 1) * pow2 (ld + 1))).
    - apply Qmult_le_l; [apply pow2_pos|].
      rewrite pow2_Z by lia. rewrite <- Zle_Qle. unfold Z.succ in Hd2. lia.
    - rewrite <- pow2_plus. replace (ln - ld - 1 + (ld + 1))%Z with ln by lia.
      rewrite pow2_Z by lia. now rewrite <- Zle_Qle. }
  assert (Hhigh : n # d < pow2 (ln - ld + 1)).
  { rewrite Hfrac. apply Qlt_shift_div_r; [exact HD|].
    apply (Qlt_le_trans _ (pow2 (ln - ld + 1) * pow2 ld)).
    - rewrite <- pow2_plus. replace (ln - ld + 1 + ld)%Z with (ln + 1)%Z by lia.
      rewrite pow2_Z by lia. rewrite <- Zlt_Qlt. unfold Z.succ in Hn2. lia.
    - apply Qmult_le_l; [apply pow2_pos|].
      rewrite pow2_Z by lia. now rewrite <- Zle_Qle. }
  unfold ilog2. cbn [Qnum Qden]. fold ln ld.
  destruct (Qle_bool (pow2 (ln - ld)) (n # d)) eqn:Htest.
  - apply Qle_bool_iff in Htest. split; [exact Htest|exact Hhigh].
  - split; [exact Hlow|].
    replace (ln - ld - 1 + 1)%Z with (ln - ld)%Z by lia.
    apply Qnot_le_lt. intros H. apply Qle_bool_iff in H. congruence.
Qed.

Lemma ilog2_mono (x y : Q) : 0 < x -> x <= y -> (ilog2 x <= ilog2 y)%Z.
Proof.
  intros Hx Hxy.
  destruct (ilog2_spec x Hx) as [Hx1 _].
  destruct (ilog2_spec y (Qlt_le_trans _ _ _ Hx Hxy)) as [_ Hy2].
  assert (H : pow2 (ilog2 x) < pow2 (ilog2 y + 1)).
  { apply (Qle_lt_trans _ x); [exact Hx1|]. apply (Qle_lt_trans _ y); assumption. }
  apply pow2_lt_inv in H. lia.
Qed.

Lemma ilog2_comp (x y : Q) : 0 < x -> x == y -> ilog2 x = ilog2 y.
Proof.
  intros Hx Hxy. assert (Hy : 0 < y) by now rewrite <- Hxy.
  assert (H1 : x <= y) by (rewrite Hxy; apply Qle_refl).
  assert (H2 : y <= x) by (rewrite Hxy; apply Qle_refl).
  pose proof (ilog2_mono x y Hx H1). pose proof (ilog2_mono y x Hy H2). lia.
Qed.

Lemma Qabs_positive (q : Q) : 0 < q -> Qabs q = q.
Proof.
  intros Hq. destruct q as [n d]. unfold Qabs.
  rewrite Z.abs_eq; [reflexivity|]. unfold Qlt in Hq. simpl in Hq. lia.
Qed.

Lemma exponent_mono (x y : Q) : 0 < x -> x <= y -> (exponent x <= exponent y)%Z.
Proof.
  intros Hx Hxy. unfold exponent.
  rewrite (Qabs_positive x Hx), (Qabs_positive y (Qlt_le_trans _ _ _ Hx Hxy)).
  pose proof (ilog2_mono x y Hx Hxy). lia.
Qed.

Lemma exponent_comp (x y : Q) : ~ x == 0 -> x == y -> exponent x = exponent y.
Proof.
  intros Hx Hxy. unfold exponent.
  assert (Habs : 0 < Qabs x).
  { destruct (Qlt_le_dec 0 x) as [H|H].
    - now rewrite (Qabs_positive x H).
    - rewrite (Qabs_neg x H).
      assert (Hlt : x < 0).
      { apply Qle_lt_or_eq in H. destruct H as [H|H]; [exact H|contradiction]. }
      lra. }
  rewrite (ilog2_comp (Qabs x) (Qabs y) Habs); [reflexivity|]. now rewrite Hxy.
Qed.

Lemma roundEven_floor (q : Q) : (Qfloor q <= roundEven q <= Qfloor q + 1)%Z.
Proof.
  unfold roundEven. destruct (Qcompare _ _); [destruct (Z.even _)| |]; lia.
Qed.

Lemma roundEven_Z (z : Z) : roundEven (inject_Z z) = z.
Proof.
  unfold roundEven. rewrite Qfloor_Z.
  destruct (Qcompare_spec (inject_Z z - inject_Z z) (1 # 2)) as [H|H|H];
    [exfalso; lra | reflexivity | exfalso; lra].
Qed.

Lemma roundEven_mono (x y : Q) : x <= y -> (roundEven x <= roundEven y)%Z.
Proof.
  intros Hxy. pose proof (Qfloor_resp_le x y Hxy) as Hf.
  destruct (Z.eq_dec (Qfloor x) (Qfloor y)) as [E|NE].
  - unfold roundEven. rewrite E.
    destruct (Qcompare_spec (x - inject_Z (Qfloor y)) (1 # 2)) as [H1|H1|H1];
      destruct (Qcompare_spec (y - inject_Z (Qfloor y)) (1 # 2)) as [H2|H2|H2];
      try (destruct (Z.even (Qfloor y))); try lia; exfalso; lra.
  - pose proof (roundEven_floor x). pose proof (roundEven_floor y). lia.
Qed.

Lemma roundEven_comp (x y : Q) : x == y -> roundEven x = roundEven y.
Proof.
  intros Hxy. apply Z.le_antisymm; apply roundEven_mono; rewrite Hxy; apply Qle_refl.
Qed.

Lemma roundEven_ge (a : Z) (x : Q) : inject_Z a <= x -> (a <= roundEven x)%Z.
Proof. intros H. rewrite <- (roundEven_Z a). now apply roundEven_mono. Qed.

Lemma roundEven_le (b : Z) (x : Q) : x <= inject_Z b -> (roundEven x <= b)%Z.
Proof. intros H. rewrite <- (roundEven_Z b). now apply roundEven_mono. Qed.

Lemma round_nonneg (x : Q) : 0 <= x -> 0 <= round x.
Proof.
  intros Hx. unfold round. apply Qmult_le_0_compat; [|apply Qlt_le_weak, pow2_pos].
  change 0 with (inject_Z 0). rewrite <- Zle_Qle. apply roundEven_ge.
  apply Qle_shift_div_l; [apply pow2_pos|]. simpl. now rewrite Qmult_0_l.
Qed.

Lemma round_nonpos (x : Q) : x <= 0 -> round x <= 0.
Proof.
  intros Hx. unfold round.
  assert (H : (roundEven (x / pow2 (exponent x)) <= 0)%Z).
  { apply roundEven_le. apply Qle_shift_div_r; [apply pow2_pos|]. simpl. now rewrite Qmult_0_l. }
  rewrite Zle_Qle in H.
  apply (Qle_trans _ (inject_Z 0 * pow2 (exponent x))).
  - apply Qmult_le_compat_r; [exact H|apply Qlt_le_weak, pow2_pos].
  - rewrite Qmult_0_l. apply Qle_refl.
Qed.

Lemma round_zero (x : Q) : x == 0 -> round x == 0.
Proof.
  intros Hx. apply Qle_antisym.
  - apply round_nonpos. rewrite Hx. apply Qle_refl.
  - apply round_nonneg. rewrite Hx. apply Qle_refl.
Qed.

(** Equal rationals are rounded to equal doubles, whatever the fractions
    that denote them. *)
Lemma round_comp (x y : Q) : x == y -> round x == round y.
Proof.
  intros Hxy. destruct (Qeq_dec x 0) as [Hz|Hnz].
  - rewrite (round_zero x Hz). symmetry. apply round_zero. now rewrite <- Hxy.
  - unfold round. rewrite <- (exponent_comp x y Hnz Hxy).
    rewrite (roundEven_comp (x / pow2 (exponent x)) (y / pow2 (exponent x))); [reflexivity|].
    unfold Qdiv. apply Qmult_comp; [exact Hxy|reflexivity].
Qed.

#[local] Instance round_Proper : Proper (Qeq ==> Qeq) round.
Proof. intros x y H. now apply round_comp. Qed.

(** The significand of the rounded value is at most [2^53]. *)
Lemma significand_le (x : Q) :
  0 < x -> (roundEven (x / pow2 (exponent x)) <= 2 ^ 53)%Z.
Proof.
  intros Hx. apply roundEven_le. apply Qle_shift_div_r; [apply pow2_pos|].
  destruct (ilog2_spec x Hx) as [_ Hup].
  apply Qlt_le_weak. apply (Qlt_le_trans _ _ _ Hup).
  rewrite <- pow2_Z by lia. rewrite <- pow2_plus. apply pow2_le.
  unfold exponent. rewrite (Qabs_positive x Hx). lia.
Qed.

(** Above the least exponent it is at least [2^52]. *)
Lemma significand_ge (x : Q) :
  0 < x -> (-1074 < exponent x)%Z -> (2 ^ 52 <= roundEven (x / pow2 (exponent x)))%Z.
Proof.
  intros Hx He. apply roundEven_ge. apply Qle_shift_div_l; [apply pow2_pos|].
  destruct (ilog2_spec x Hx) as [Hlow _].
  apply (Qle_trans _ (pow2 (ilog2 x))); [|exact Hlow].
  rewrite <- pow2_Z by lia. rewrite <- pow2_plus. apply pow2_le.
  unfold exponent in *. rewrite (Qabs_positive x Hx) in *. lia.
Qed.

Lemma round_mono_pos (x y : Q) : 0 < x -> x <= y -> round x <= round y.
Proof.
  intros Hx Hxy. assert (Hy : 0 < y) by now apply (Qlt_le_trans _ x).
  pose proof (exponent_mono x y Hx Hxy) as He.
  destruct (Z.eq_dec (exponent x) (exponent y)) as [E|NE].
  - unfold round. rewrite E. apply Qmult_le_compat_r; [|apply Qlt_le_weak, pow2_pos].
    rewrite <- Zle_Qle. apply roundEven_mono.
    apply Qmult_le_compat_r; [exact Hxy|]. apply Qlt_le_weak, Qinv_lt_0_compat, pow2_pos.
  - assert (Hlt : (exponent x < exponent y)%Z) by lia.
    assert (Hmin : (-1074 <= exponent x)%Z) by (unfold exponent; lia).
    pose proof (significand_le x Hx) as Hsx.
    pose proof (significand_ge y Hy ltac:(lia)) as Hsy.
    rewrite Zle_Qle in Hsx, Hsy.
    unfold round.
    apply (Qle_trans _ (inject_Z (2 ^ 53) * pow2 (exponent x))).
    { apply Qmult_le_compat_r; [exact Hsx|apply Qlt_le_weak, pow2_pos]. }
    apply (Qle_trans _ (inject_Z (2 ^ 52) * pow2 (exponent y))).
    2:{ apply Qmult_le_compat_r; [exact Hsy|apply Qlt_le_weak, pow2_pos]. }
    rewrite <- !pow2_Z by lia. rewrite <- !pow2_plus. apply pow2_le. lia.
Qed.

(** Rounding is monotone below a number that is not negative. *)
Lemma round_le (x y : Q) : 0 <= y -> x <= y -> round x <= round y.
Proof.
  intros Hy Hxy. destruct (Qlt_le_dec 0 x) as [Hx|Hx].
  - now apply round_mono_pos.
  - apply (Qle_trans _ 0); [now apply round_nonpos | now apply round_nonneg].
Qed.

Lemma ilog2_Z (z : Z) : (0 < z)%Z -> ilog2 (inject_Z z) = Z.log2 z.
Proof.
  intros Hz. unfold ilog2, inject_Z. cbn [Qnum Qden].
  change (Z.log2 1) with 0%Z. rewrite Z.sub_0_r.
  replace (Qle_bool (pow2 (Z.log2 z)) (z # 1)) with true; [reflexivity|].
  symmetry. apply Qle_bool_iff. rewrite pow2_Z by apply Z.log2_nonneg.
  change (z # 1) with (inject_Z z). rewrite <- Zle_Qle. now apply Z.log2_spec.
Qed.

(** The integers from 0 to [2^53] are doubles. *)
Lemma round_Z (z : Z) : (0 <= z < 2 ^ 53)%Z -> round (inject_Z z) == inject_Z z.
Proof.
  intros [Hz0 Hz]. destruct (Z.eq_dec z 0%Z) as [->|Hne]; [reflexivity|].
  assert (Hpos : (0 < z)%Z) by lia.
  assert (Hq : 0 < inject_Z z) by (change 0 with (inject_Z 0); now rewrite <- Zlt_Qlt).
  assert (Hlog : (0 <= Z.log2 z < 53)%Z).
  { split; [apply Z.log2_nonneg|]. apply Z.log2_lt_pow2; lia. }
  assert (He : exponent (inject_Z z) = (Z.log2 z - 52)%Z).
  { unfold exponent. rewrite (Qabs_positive _ Hq), (ilog2_Z z Hpos). lia. }
  unfold round. rewrite He.
  set (k := (52 - Z.log2 z)%Z).
  assert (Hscaled : inject_Z z / pow2 (Z.log2 z - 52) == inject_Z (z * 2 ^ k)).
  { rewrite inject_Z_mult, <- pow2_Z by (unfold k; lia).
    unfold Qdiv. apply Qmult_comp; [reflexivity|].
    replace (Z.log2 z - 52)%Z with (- k)%Z by (unfold k; lia).
    unfold pow2. rewrite Qpower_opp. apply Qinv_involutive. }
  assert (Hr : roundEven (inject_Z z / pow2 (Z.log2 z - 52)) = (z * 2 ^ k)%Z).
  { rewrite (roundEven_comp _ _ Hscaled). apply roundEven_Z. }
  rewrite Hr, inject_Z_mult, <- pow2_Z by (unfold k; lia).
  rewrite <- Qmult_assoc, <- pow2_plus.
  replace (k + (Z.log2 z - 52))%Z with 0%Z by (unfold k; lia).
  apply Qmult_1_r.
Qed.

(** The quotient of two counts, the first not above the second, is a
    double between 0 and 1, and a hundred times it one between 0 and
    100. *)
Lemma ratio_bounds (m n : Z) :
  (0 <= m <= n)%Z -> (0 < n)%Z ->
  0 <= div (inject_Z m) (inject_Z n) <= 1
  /\ 0 <= mul (div (inject_Z m) (inject_Z n)) 100 <= 100
  /\ 0 <= mul (div (inject_Z m) (inject_Z n)) 5 <= 5.
Proof.
  intros Hm Hn.
  assert (Hq : 0 <= inject_Z m / inject_Z n <= 1).
  { assert (Hn' : 0 < inject_Z n) by (change 0 with (inject_Z 0); now rewrite <- Zlt_Qlt).
    split.
    - apply Qle_shift_div_l; [exact Hn'|]. rewrite Qmult_0_l.
      change 0 with (inject_Z 0). rewrite <- Zle_Qle. lia.
    - apply Qle_shift_div_r; [exact Hn'|]. rewrite Qmult_1_l. rewrite <- Zle_Qle. lia. }
  assert (Hr : 0 <= div (inject_Z m) (inject_Z n) <= 1).
  { unfold div. split.
    - apply round_nonneg, Hq.
    - rewrite <- (round_Z 1) by lia. apply round_le; [discriminate|apply Hq]. }
  split; [exact Hr|]. unfold mul. split; split.
  - apply round_nonneg. destruct Hr. nra.
  - rewrite <- (round_Z 100) at 2 by lia. apply round_le; [discriminate|].
    change (inject_Z 100) with 100. destruct Hr. nra.
  - apply round_nonneg. destruct Hr. nra.
  - rewrite <- (round_Z 5) at 2 by lia. apply round_le; [discriminate|].
    change (inject_Z 5) with 5. destruct Hr. nra.
Qed.

End DoubleFacts.

(** ** The local matcher *)

Section StringFacts.
Import JsString.
Local Open Scope string_scope.

Lemma toLowerCase_idem (s : string) : toLowerCase (toLowerCase s) = toLowerCase s.
Proof.
  induction s as [|c s IH]; simpl; [reflexivity|].
  rewrite IH. f_equal.
  destruct c as [[] [] [] [] [] [] [] []]; vm_compute; reflexivity.
Qed.

(** Lower-casing a string and removing its white space commute. *)
Lemma toLowerCase_stripWhitespace (s : string) :
  toLowerCase (stripWhitespace s) = stripWhitespace (toLowerCase s).
Proof.
  induction s as [|c s IH]; simpl; [reflexivity|].
  assert (Hsp : is_space (lower_ascii c) = is_space c).
  { destruct c as [[] [] [] [] [] [] [] []]; vm_compute; reflexivity. }
  rewrite Hsp. destruct (is_space c); simpl; now rewrite IH.
Qed.

Lemma toLowerCase_squeezed (s : string) :
  toLowerCase (stripWhitespace (toLowerCase s)) = stripWhitespace (toLowerCase s).
Proof. now rewrite toLowerCase_stripWhitespace, toLowerCase_idem. Qed.

End StringFacts.

Section ScoreFacts.
Import JsString Js LocalRecipes ScoreRule.
Local Open Scope Q_scope.

Lemma count_cons {A : Type} (x : A) (l : list A) : count (x :: l) == count l + 1.
Proof.
  unfold count. simpl length. rewrite Nat2Z.inj_succ. unfold Z.succ.
  rewrite inject_Z_plus. reflexivity.
Qed.

Lemma count_nil {A : Type} : count (@nil A) == 0.
Proof. reflexivity. Qed.

(** The loop over the user ingredients. *)
Lemma fold_checkUserIngredient (names userIngredients : list string) (t : Tally) :
  let t' := fold_left (checkUserIngredient names) userIngredients t in
  matched t' = (matched t ++ List.filter (found names) userIngredients)%list
  /\ score t' == score t + 2 * count (List.filter (found names) userIngredients)
  /\ essentialMissing t' = essentialMissing t.
Proof.
  revert t. induction userIngredients as [|u us IH]; intros t; simpl.
  - rewrite app_nil_r. repeat split. rewrite count_nil. ring.
  - destruct (IH (checkUserIngredient names t u)) as (Hm & Hs & He).
    rewrite Hm, Hs, He. unfold checkUserIngredient.
    destruct (found names u); simpl.
    + rewrite <- app_assoc. repeat split. rewrite count_cons. ring.
    + repeat split.
Qed.

(** The loop over the ingredients of the recipe. *)
Lemma fold_checkRecipeIngredient (userIngredients : list string)
      (recipeIngredients : list Ingredient) (t : Tally) :
  let t' := fold_left (checkRecipeIngredient userIngredients) recipeIngredients t in
  matched t' = matched t
  /\ score t' == score t - 1 * count (List.filter (penalised userIngredients) recipeIngredients)
  /\ essentialMissing t'
     = (essentialMissing t
        ++ map name (List.filter (penalised userIngredients) recipeIngredients))%list.
Proof.
  revert t. induction recipeIngredients as [|ing rest IH]; intros t; simpl.
  - rewrite app_nil_r. repeat split. rewrite count_nil. ring.
  - destruct (IH (checkRecipeIngredient userIngredients t ing)) as (Hm & Hs & He).
    rewrite Hm, Hs, He. unfold checkRecipeIngredient, penalised.
    destruct (isEssential (JsString.toLowerCase (name ing))); simpl.
    + repeat split.
    + destruct (userHasIngredient userIngredients (JsString.toLowerCase (name ing))); simpl.
      * repeat split.
      * rewrite <- app_assoc. repeat split. rewrite count_cons. ring.
Qed.

Lemma existsb_pointwise {A : Type} (f g : A -> bool) (l : list A) :
  (forall x, f x = g x) -> existsb f l = existsb g l.
Proof. intros H. induction l as [|x l IH]; simpl; [reflexivity|]. now rewrite H, IH. Qed.

Lemma existsb_map {A B : Type} (f : B -> bool) (g : A -> B) (l : list A) :
  existsb f (map g l) = existsb (fun x => f (g x)) l.
Proof. induction l as [|x l IH]; simpl; [reflexivity|]. now rewrite IH. Qed.

(** [find] followed by a test that every element of the array passes. *)
Lemma find_existsb {A : Type} (f g : A -> bool) (l : list A) :
  List.Forall (fun x => g x = true) l ->
  match List.find f l with Some x => g x | None => false end = existsb f l.
Proof.
  induction 1 as [|x l Hx Hl IH]; simpl; [reflexivity|].
  destruct (f x); [exact Hx|exact IH].
Qed.

(** What the helper [areIngredientsRelated] computes, on the strings. *)
Lemma areIngredientsRelated_rule (a b : string) :
  areIngredientsRelated a b
  = contains (toLowerCase a) (toLowerCase b) || sameGroup (toLowerCase a) (toLowerCase b).
Proof.
  unfold areIngredientsRelated, contains, sameGroup.
  destruct (includes (toLowerCase a) (toLowerCase b) || includes (toLowerCase b) (toLowerCase a));
    reflexivity.
Qed.

(** The test of the first loop, on the name of a recipe ingredient. *)
Lemma matchesName_rule (userIngredient recipeName : string) :
  matchesName userIngredient (normalise recipeName) = bonusTest userIngredient recipeName.
Proof.
  unfold matchesName, bonusTest, normalise.
  rewrite areIngredientsRelated_rule, toLowerCase_squeezed.
  unfold contains.
  set (n := stripWhitespace (toLowerCase recipeName)).
  set (u := stripWhitespace (toLowerCase userIngredient)).
  destruct (includes n u), (includes u n); reflexivity.
Qed.

(** Every name in the table of ingredients has a letter. *)
Lemma ingredient_names_nonEmpty (recipeId : Z) :
  List.Forall (fun n => nonEmpty n = true)
              (map (fun ing => normalise (name ing)) (getRecipeIngredients recipeId)).
Proof.
  unfold getRecipeIngredients.
  repeat match goal with |- context [if ?c then _ else _] => destruct c end;
    vm_compute; repeat constructor.
Qed.

Lemma found_rule (userIngredients : list string) (r : Recipe) :
  List.filter (found (map (fun ing => normalise (name ing)) (getRecipeIngredients (id r))))
              userIngredients
  = matchedBy userIngredients r.
Proof.
  unfold matchedBy. apply filter_ext. intros u. unfold found.
  rewrite (find_existsb _ nonEmpty _ (ingredient_names_nonEmpty (id r))).
  rewrite existsb_map. apply existsb_pointwise. intros ing. apply matchesName_rule.
Qed.

Lemma penalised_rule (userIngredients : list string) (r : Recipe) :
  List.filter (penalised userIngredients) (getRecipeIngredients (id r))
  = missingFrom userIngredients r.
Proof.
  unfold missingFrom. apply filter_ext. intros ing.
  unfold penalised, userHasIngredient, matches. f_equal. f_equal.
  apply existsb_pointwise. intros u.
  now rewrite areIngredientsRelated_rule, toLowerCase_idem.
Qed.

Lemma mathMax0_positive (x : Q) : 0 < x -> mathMax0 x = x.
Proof.
  intros H. unfold mathMax0.
  destruct (Qle_bool 0 x) eqn:Hx; [reflexivity|].
  exfalso. apply Qlt_le_weak in H. apply Qle_bool_iff in H. congruence.
Qed.

Lemma Qle_bool_eq (x y z : Q) : x == y -> Qle_bool x z = Qle_bool y z.
Proof.
  intros H. destruct (Qle_bool y z) eqn:Hy.
  - apply Qle_bool_iff. rewrite H. now apply Qle_bool_iff.
  - apply Bool.not_true_is_false. intros Hx. apply Qle_bool_iff in Hx.
    rewrite H in Hx. apply Qle_bool_iff in Hx. congruence.
Qed.

(** A score is above zero exactly when the score cut at zero is. *)
Lemma mathMax0_sign (x : Q) : Qle_bool (mathMax0 x) 0 = Qle_bool x 0.
Proof.
  unfold mathMax0. destruct (Qle_bool 0 x) eqn:Hx; [reflexivity|].
  symmetry. apply Qle_bool_iff.
  destruct (Qlt_le_dec x 0) as [H|H]; [now apply Qlt_le_weak|].
  apply Qle_bool_iff in H. congruence.
Qed.

Lemma mathMax0_comp (x y : Q) : x == y -> mathMax0 x == mathMax0 y.
Proof.
  intros H. unfold mathMax0.
  assert (E : Qle_bool 0 x = Qle_bool 0 y).
  { destruct (Qle_bool 0 y) eqn:Hy.
    - apply Qle_bool_iff. rewrite H. now apply Qle_bool_iff.
    - apply Bool.not_true_is_false. intros Hx. apply Qle_bool_iff in Hx.
      rewrite H in Hx. apply Qle_bool_iff in Hx. congruence. }
  rewrite E. destruct (Qle_bool 0 y); [exact H|reflexivity].
Qed.

(** The record the callback builds, field by field, in closed form. *)
Lemma scoreRecipe_rule (userIngredients : list string) (r : Recipe) :
  let s := scoreRecipe userIngredients r in
  recipe s = r
  /\ matchedIngredients s = matchedBy userIngredients r
  /\ matchPercentage s = percentage userIngredients r
  /\ missingIngredients s = firstn 5 (map name (missingFrom userIngredients r))
  /\ totalIngredients s = Z.of_nat (length (getRecipeIngredients (id r)))
  /\ matchScore s == mathMax0 (ruleScore userIngredients r).
Proof.
  unfold scoreRecipe, percentage, ruleScore, matchRatio, isSimple, count.
  set (ings := getRecipeIngredients (id r)).
  set (names := map (fun ing => normalise (name ing)) ings).
  set (t0 := {| score := 0; matched := []; essentialMissing := [] |}).
  destruct (fold_checkUserIngredient names userIngredients t0) as (Hm1 & Hs1 & He1).
  destruct (fold_checkRecipeIngredient userIngredients ings
              (fold_left (checkUserIngredient names) userIngredients t0)) as (Hm2 & Hs2 & He2).
  rewrite Hm1 in Hm2. rewrite Hs1 in Hs2. rewrite He1 in He2.
  cbn [matched score essentialMissing t0 app] in Hm2, Hs2, He2.
  unfold names, ings in Hm2, Hs2, He2. rewrite found_rule in Hm2, Hs2.
  rewrite penalised_rule in Hs2, He2. fold ings in Hm2, Hs2, He2. fold names in Hm2, Hs2, He2.
  unfold count in Hs2.
  remember (fold_left (checkRecipeIngredient userIngredients) ings
                      (fold_left (checkUserIngredient names) userIngredients t0)) as t2 eqn:Et2.
  clear Et2.
  remember (matchedBy userIngredients r) as m eqn:Em. clear Em.
  remember (missingFrom userIngredients r) as p eqn:Ep. clear Ep.
  cbv zeta.
  cbn [recipe matchedIngredients matchPercentage missingIngredients totalIngredients matchScore].
  rewrite Hm2, He2.
  split; [reflexivity|]. split; [reflexivity|]. split; [reflexivity|].
  split; [reflexivity|]. split; [reflexivity|].
  apply mathMax0_comp.
  set (x := JsNumber.mul (JsNumber.div (inject_Z (Z.of_nat (length m)))
                                       (inject_Z (Z.of_nat (length userIngredients)))) 5).
  assert (Hadd : JsNumber.add (score t2) x
                 == JsNumber.add (2 * inject_Z (Z.of_nat (length m))
                                  - 1 * inject_Z (Z.of_nat (length p))) x).
  { unfold JsNumber.add. apply round_comp. apply Qplus_comp; [|reflexivity].
    apply (Qeq_trans _ _ _ Hs2). ring. }
  destruct (Nat.leb_spec (length ings) 8) as [Hle|Hgt].
  - replace (Z.of_nat (length ings) <=? 8)%Z with true by (symmetry; apply Z.leb_le; lia).
    unfold JsNumber.add at 1 3. apply round_comp. apply Qplus_comp; [exact Hadd|reflexivity].
  - replace (Z.of_nat (length ings) <=? 8)%Z with false by (symmetry; apply Z.leb_gt; lia).
    exact Hadd.
Qed.

Lemma StronglySorted_weaken {A : Type} (R1 R2 : A -> A -> Prop) (l : list A) :
  (forall a b, R1 a b -> R2 a b) -> StronglySorted R1 l -> StronglySorted R2 l.
Proof.
  intros Himp. induction 1 as [|x l Hl IH Hx]; constructor; [exact IH|].
  eapply List.Forall_impl; [|exact Hx]. intros b. apply Himp.
Qed.



End ScoreFacts.

Section ScoreTheorems.
Import JsString Js LocalRecipes ScoreRule Scenario.
Local Open Scope string_scope.
Local Open Scope Q_scope.

Lemma scoreRecipe_sign (userIngredients : list string) (r : Recipe) :
  negb (Qle_bool (matchScore (scoreRecipe userIngredients r)) 0)
  = negb (Qle_bool (ruleScore userIngredients r) 0).
Proof.
  destruct (scoreRecipe_rule userIngredients r) as (_ & _ & _ & _ & _ & Hscore).
  f_equal. rewrite (Qle_bool_eq _ _ 0 Hscore). apply mathMax0_sign.
Qed.

Lemma ruleScore_positive (userIngredients : list string) (r : Recipe) :
  negb (Qle_bool (ruleScore userIngredients r) 0) = true -> 0 < ruleScore userIngredients r.
Proof.
  intros H. apply Bool.negb_true_iff in H.
  destruct (Qlt_le_dec 0 (ruleScore userIngredients r)) as [Hlt|Hle]; [exact Hlt|].
  apply Qle_bool_iff in Hle. congruence.
Qed.


(** C4. The scoring of the matcher at the user ingredient "spice" and the
    first recipe of the catalog, which has garam masala among its
    ingredients.  The table relates the two, the specified rule counts
    one match, a score of 5 and 100%, and the second loop of the matcher
    does take garam masala as covered; but the first loop compares against
    the name without its white space, finds no match and gives no point:
    the score is cut to 0 and the matcher returns nothing at all.  Where
    the two tests agree, so do the rule and the matcher: with 23 of 40
    user ingredients matched, the recipe is scored above 0 and both
    percentages are 57, the double just below 57.5 rounded. *)
Theorem spice_earns_no_point :
  In paneerButterMasala recipeDatabase
  /\ In "garam masala" (map name (getRecipeIngredients (id paneerButterMasala)))
  /\ matches "spice" "garam masala" = true
  /\ areIngredientsRelated "spice" "garam masala" = true
  /\ bonusTest "spice" "garam masala" = false
  /\ map name (missingFrom ["spice"] paneerButterMasala)
     = ["paneer"; "tomatoes"; "heavy cream"; "butter"]
  /\ claimedMatches ["spice"] paneerButterMasala = ["spice"]
  /\ claimedScore ["spice"] paneerButterMasala == 5
  /\ claimedPercentage ["spice"] paneerButterMasala = 100%Z
  /\ matchedIngredients (scoreRecipe ["spice"] paneerButterMasala) = []
  /\ missingIngredients (scoreRecipe ["spice"] paneerButterMasala)
     = ["paneer"; "tomatoes"; "heavy cream"; "butter"]
  /\ matchScore (scoreRecipe ["spice"] paneerButterMasala) == 0
  /\ findRecipesByIngredientsAdvanced ["spice"] [] = []
  /\ claimedPercentage fortyIngredients paneerButterMasala = 57%Z
  /\ matchPercentage (scoreRecipe fortyIngredients paneerButterMasala) = 57%Z
  /\ 0 < matchScore (scoreRecipe fortyIngredients paneerButterMasala).
Proof.
  split. { unfold recipeDatabase, paneerButterMasala. left. reflexivity. }
  split. { vm_compute. tauto. }
  split; [vm_compute; reflexivity|]. split; [vm_compute; reflexivity|].
  split; [vm_compute; reflexivity|].
  split; [vm_compute; reflexivity|].
  split; [vm_compute; reflexivity|]. split; [vm_compute; reflexivity|].
  split; [vm_compute; reflexivity|]. split; [vm_compute; reflexivity|].
  split; [vm_compute; reflexivity|]. split; [vm_compute; reflexivity|].
  split; [vm_compute; reflexivity|]. split; [vm_compute; reflexivity|].
  split; [vm_compute; reflexivity|].
  vm_compute. reflexivity.
Qed.





(** At 23 of 40 the exact ratio times 100 is 57.5, which rounds to 58; the
    doubles give 57.49999999999999, which rounds to 57. *)
Example twenty_three_of_forty :
  APIUsageManager.mathRound (23 / 40 * 100) = 58%Z
  /\ APIUsageManager.mathRound (JsNumber.mul (JsNumber.div 23 40) 100) = 57%Z
  /\ matchedIngredients (scoreRecipe fortyIngredients paneerButterMasala) = repeat "paneer" 23.
Proof. vm_compute. repeat split. Qed.

(** Tomato and onion against the first recipe of the catalog: both are
    found (+4), paneer, cream, butter and garam masala are missing (-4),
    the ratio is 1 (+5) and the recipe has 7 ingredients (+2). *)
Example tomato_onion_first :
  match findRecipesByIngredientsAdvanced ["tomato"; "onion"] [] with
  | s :: _ =>
      title (recipe s) = "Paneer Butter Masala"
      /\ Qred (matchScore s) = 7
      /\ matchPercentage s = 100%Z
      /\ missingIngredients s = ["paneer"; "heavy cream"; "butter"; "garam masala"]
  | [] => False
  end.
Proof. vm_compute. repeat split. Qed.

(** One of three user ingredients matched: the ratio is the double nearest
    to a third, and the percentage 33. *)
Example one_of_three :
  let s := scoreRecipe ["paneer"; "zucchini"; "quinoa"] paneerButterMasala in
  matchedIngredients s = ["paneer"]
  /\ matchRatio ["paneer"; "zucchini"; "quinoa"] paneerButterMasala
     == 6004799503160661 # 18014398509481984
  /\ matchPercentage s = 33%Z.
Proof. vm_compute. repeat split. Qed.

End ScoreTheorems.


(** * Further properties *)

(** ** The cache: reads after writes, untouched keys, statistics *)

Section CacheMore.
Import Clocked CacheManager.
Variable clk : nat -> Z.
Context {D : Type}.
Local Open Scope Z_scope.

Abbreviation CacheOf := (@Cache D).
Abbreviation EntryOf := (string * @CacheItem D)%type.

Lemma filter_length_split {A : Type} (f g : A -> bool) (l : list A) :
  (forall x, g x = negb (f x)) ->
  (length (List.filter f l) + length (List.filter g l) = length l)%nat.
Proof.
  intros Hg. induction l as [|x l IH]; simpl; [reflexivity|].
  rewrite Hg. destruct (f x); simpl; lia.
Qed.

(** The entry written by [set] is the one found under the key afterwards. *)
Lemma set_stored (key : string) (d : D) (ttl : Z) (n : nat) (c : CacheOf) :
  let s := set clk key d ttl n c in
  (3 <= readings s)%nat
  /\ map_get key (final s)
     = Some {| data := d;
               expiresAt := clk (readings s - 3)%nat + ttl;
               lastAccessed := clk (readings s - 2)%nat;
               createdAt := clk (readings s - 1)%nat |}.
Proof.
  intros s. subst s. rewrite set_run.
  destruct (size c >=? maxCacheSize); unfold readings, final; simpl fst; simpl snd.
  - split; [lia|]. rewrite map_get_set_same; repeat f_equal; lia.
  - split; [lia|]. rewrite map_get_set_same; repeat f_equal; lia.
Qed.

(** X1. What [set] stores is what [get] returns, whatever the cache held
    (full or not, the key present or not), as long as the clock read by
    [get] has not passed the reading of [set] plus the time to live. *)
Theorem set_then_get (key : string) (d : D) (ttl : Z) (n m : nat) (c : CacheOf) :
  let s := set clk key d ttl n c in
  clk m <= clk (readings s - 3)%nat + ttl ->
  result (get clk key m (final s)) = Some d.
Proof.
  intros s Hfresh. destruct (set_stored key d ttl n c) as [_ Hstored]. fold s in Hstored.
  rewrite get_run, Hstored. simpl.
  replace (clk m >? clk (readings s - 3)%nat + ttl) with false; [reflexivity|].
  symmetry. rewrite Z.gtb_ltb. apply Z.ltb_ge. exact Hfresh.
Qed.

(** Deleting a key that is present removes one entry. *)
Lemma map_delete_length (key : string) (item : CacheItem) (c : CacheOf) :
  List.NoDup (map fst c) -> map_get key c = Some item ->
  size (map_delete key c) = size c - 1.
Proof.
  unfold size, map_delete. induction c as [|[k i] c IH]; simpl; [discriminate|].
  intros Hnd Hget. inversion Hnd as [|? ? Hnot Hnd']; subst.
  destruct (String.eqb key k) eqn:Hk; simpl.
  - apply String.eqb_eq in Hk. subst k.
    rewrite filter_all; [lia|].
    intros [k' i'] Hin. simpl. apply Bool.negb_true_iff. apply String.eqb_neq.
    intros ->. apply Hnot. change k' with (fst (k', i')). now apply in_map.
  - specialize (IH Hnd' Hget). lia.
Qed.

(** X2. Once the clock has passed the expiry of an entry, [get] answers
    with a miss and the entry is gone from the cache, which has become
    smaller, by exactly one entry when its keys are distinct as those of a
    [Map] are. *)
Theorem set_then_expired (key : string) (d : D) (ttl : Z) (n m : nat) (c : CacheOf) :
  let s := set clk key d ttl n c in
  clk (readings s - 3)%nat + ttl < clk m ->
  result (get clk key m (final s)) = None
  /\ map_get key (final (get clk key m (final s))) = None
  /\ size (final (get clk key m (final s))) < size (final s)
  /\ (cache_ok c -> size (final (get clk key m (final s))) = size (final s) - 1).
Proof.
  intros s Hlate. destruct (set_stored key d ttl n c) as [_ Hstored]. fold s in Hstored.
  rewrite get_run, Hstored. simpl.
  replace (clk m >? clk (readings s - 3)%nat + ttl) with true
    by (symmetry; rewrite Z.gtb_ltb; apply Z.ltb_lt; exact Hlate).
  unfold result, final at 1 2 4. cbn [fst snd]. split; [reflexivity|]. split; [|split].
  - apply map_get_delete.
  - apply map_get_Some_In in Hstored. unfold size, map_delete.
    apply Nat2Z.inj_lt.
    apply (filter_length_lt _ _ _ Hstored). simpl. now rewrite String.eqb_refl.
  - intros Hok. destruct (set_ok clk key d ttl n c Hok) as [Hnd _]. fold s in Hnd.
    exact (map_delete_length key _ (final s) Hnd Hstored).
Qed.

(** X3. A read of one key leaves what is stored under every other key as
    it was, hit, miss or expiry. *)
Theorem get_leaves_other_keys (key k : string) (n : nat) (c : CacheOf) :
  k <> key ->
  map_get k (final (get clk key n c)) = map_get k c.
Proof.
  intros Hne. rewrite get_run. destruct (map_get key c) as [item|]; [|reflexivity].
  destruct (clk n >? expiresAt item); unfold final; simpl.
  - now apply map_get_delete_other.
  - rewrite map_replace_get. apply String.eqb_neq in Hne. now rewrite Hne.
Qed.

(** X4. Below the capacity a write of one key leaves what is stored under
    every other key as it was. *)
Theorem set_leaves_other_keys (key k : string) (d : D) (ttl : Z) (n : nat) (c : CacheOf) :
  size c < maxCacheSize ->
  k <> key ->
  map_get k (final (set clk key d ttl n c)) = map_get k c.
Proof.
  intros Hroom Hne. rewrite set_run.
  replace (size c >=? maxCacheSize) with false by (symmetry; rewrite Z.geb_leb; apply Z.leb_gt; lia).
  unfold final. simpl. now apply map_get_set_other.
Qed.

End CacheMore.

Section CacheToolsFacts.
Import Clocked CacheManager.
Variable clk : nat -> Z.
Variable regExp : string -> option (string -> bool).
Context {D : Type}.
Local Open Scope Z_scope.

Lemma minOf_le (x : Z) (xs : list Z) :
  minOf x xs <= x /\ forall y, In y xs -> minOf x xs <= y.
Proof.
  unfold minOf. revert x. induction xs as [|z xs IH]; intros x; simpl.
  - split; [lia | tauto].
  - destruct (IH (Z.min x z)) as [H1 H2]. split; [lia|].
    intros y [<-|Hy]; [lia | now apply H2].
Qed.

Lemma maxOf_ge (x : Z) (xs : list Z) :
  x <= maxOf x xs /\ forall y, In y xs -> y <= maxOf x xs.
Proof.
  unfold maxOf. revert x. induction xs as [|z xs IH]; intros x; simpl.
  - split; [lia | tauto].
  - destruct (IH (Z.max x z)) as [H1 H2]. split; [lia|].
    intros y [<-|Hy]; [lia | now apply H2].
Qed.

(** X5. The statistics count every entry once, as valid or as expired;
    the oldest and newest creation times bound the creation time of every
    entry, and are [null] exactly for the empty cache; taking the
    statistics changes nothing in the cache (no entry is refreshed, no
    expired entry is removed). *)
Theorem getStats_partition (n : nat) (c : @Cache D) :
  let st := result (getStats clk n c) in
  validItems st + expiredItems st = totalItems st
  /\ totalItems st = size c
  /\ final (getStats clk n c) = c
  /\ (forall e, In e c ->
        exists lo hi, oldestItem st = Some lo /\ newestItem st = Some hi
                      /\ lo <= createdAt (snd e) <= hi)
  /\ (oldestItem st = None <-> c = [])
  /\ (newestItem st = None <-> c = []).
Proof.
  unfold getStats, bind, dateNow, gets, ret, result, final. simpl.
  split; [|split; [reflexivity|split; [reflexivity|split; [|split]]]].
  - unfold size. rewrite <- Nat2Z.inj_add.
    rewrite (filter_length_split _ (fun item : @CacheItem D => clk n >? expiresAt item)).
    + now rewrite length_map.
    + intros item. rewrite Z.gtb_ltb.
      destruct (Z.ltb_spec (expiresAt item) (clk n)), (Z.leb_spec (clk n) (expiresAt item));
        simpl; try reflexivity; lia.
  - intros e He.
    assert (Hin : In (createdAt (snd e)) (map createdAt (map snd c))).
    { apply in_map. now apply in_map. }
    destruct (map createdAt (map snd c)) as [|x xs]; [destruct Hin|].
    exists (minOf x xs), (maxOf x xs). split; [reflexivity|]. split; [reflexivity|].
    destruct (minOf_le x xs) as [Hlo1 Hlo2]. destruct (maxOf_ge x xs) as [Hhi1 Hhi2].
    destruct Hin as [<-|Hin]; [lia|].
    specialize (Hlo2 _ Hin). specialize (Hhi2 _ Hin). lia.
  - destruct c; simpl; split; congruence.
  - destruct c; simpl; split; congruence.
Qed.

Lemma fold_delete_keys (ks : list string) (c : @Cache D) :
  fold_left (fun acc key => map_delete key acc) ks c
  = List.filter (fun e => negb (existsb (fun key => String.eqb key (fst e)) ks)) c.
Proof.
  revert c. induction ks as [|k ks IH]; intros c; simpl.
  - symmetry. now apply filter_all.
  - rewrite IH. unfold map_delete. rewrite filter_twice. apply filter_ext.
    intros e. now rewrite negb_orb.
Qed.

(** X6. [invalidatePattern] deletes exactly the entries whose key the
    regular expression matches, leaves the others in place and in order,
    and returns the number of entries it deleted; when the pattern is not
    a regular expression the constructor throws and the cache is as it
    was. *)
Theorem invalidatePattern_removes (pattern : string) (n : nat) (c : @Cache D) :
  let r := invalidatePattern regExp pattern n c in
  match regExp pattern with
  | Some test =>
      final r = List.filter (fun e => negb (test (fst e))) c
      /\ result r = Some (size c - size (final r))
      /\ (forall e, In e (final r) -> test (fst e) = false)
  | None => result r = None /\ final r = c
  end.
Proof.
  unfold invalidatePattern. destruct (regExp pattern) as [test|]; [|split; reflexivity].
  unfold bind, gets, modify, ret, result, final. simpl.
  assert (Hfinal : fold_left (fun acc key => map_delete key acc)
                             (List.filter test (map fst c)) c
                   = List.filter (fun e => negb (test (fst e))) c).
  { rewrite fold_delete_keys. apply filter_ext_in. intros e He. f_equal.
    destruct (test (fst e)) eqn:Ht.
    - apply existsb_exists. exists (fst e). split; [|apply String.eqb_refl].
      apply filter_In. split; [now apply in_map | exact Ht].
    - apply Bool.not_true_is_false. intros H. apply existsb_exists in H.
      destruct H as [k [Hk Heq]]. apply String.eqb_eq in Heq. subst k.
      apply filter_In in Hk. destruct Hk as [_ Hk]. congruence. }
  rewrite Hfinal. split; [reflexivity|]. split.
  - f_equal. unfold size.
    pose proof (filter_length_split (fun e : string * @CacheItem D => test (fst e))
                                    (fun e => negb (test (fst e))) c (fun _ => eq_refl)) as Hsplit.
    assert (Hkeys : length (List.filter test (map fst c))
                    = length (List.filter (fun e : string * @CacheItem D => test (fst e)) c)).
    { clear. induction c as [|e c IH]; simpl; [reflexivity|].
      destruct (test (fst e)); simpl; now rewrite IH. }
    rewrite Hkeys. lia.
  - intros e He. apply filter_In in He. destruct He as [_ He].
    now apply Bool.negb_true_iff in He.
Qed.

End CacheToolsFacts.

(** ** The ledger: accumulation, lost writes, bands, reset *)

Section LedgerMore.
Import Clocked APIUsageManager.
Variable clk : nat -> Z.
Variable toDateString : Z -> string.
Local Open Scope Z_scope.

(** On one calendar day the counters that are read do not depend on the
    moment of the read. *)
Lemma getUsageData_counters (n m : nat) (st : Storage) :
  sameDay clk toDateString ->
  calls (result (getUsageData clk toDateString n st))
  = calls (result (getUsageData clk toDateString m st))
  /\ errors (result (getUsageData clk toDateString n st))
     = errors (result (getUsageData clk toDateString m st))
  /\ cached (result (getUsageData clk toDateString n st))
     = cached (result (getUsageData clk toDateString m st))
  /\ endpoints (result (getUsageData clk toDateString n st))
     = endpoints (result (getUsageData clk toDateString m st)).
Proof.
  intros Hday.
  unfold getUsageData, bind, gets, createNewUsageData, todayString, dateNow, ret, result.
  destruct (slot st) as [| |d]; simpl; auto.
  rewrite (Hday n m).
  destruct (String.eqb (date d) (toDateString (clk m))); simpl; auto.
Qed.

(** X7. On one calendar day, with a storage that accepts writes, a run of
    recorded attempts adds the number of successes to [calls] and, for an
    endpoint that is not a name inherited from [Object.prototype], to the
    count of the endpoint, and the number of failures to [errors];
    failures use no quota, and a call may still be made afterwards exactly
    when the calls before plus the successes stay below 150. *)
Theorem recordAll_accumulates (endpoint : string) (outcomes : list bool)
        (n : nat) (st : Storage) :
  sameDay clk toDateString ->
  writable st = true ->
  let before := result (getUsageData clk toDateString n st) in
  let r := recordAll clk toDateString endpoint outcomes n st in
  let after := result (getUsageData clk toDateString (readings r) (final r)) in
  calls after = calls before + successes outcomes
  /\ errors after = errors before + failures outcomes
  /\ cached after = cached before
  /\ (ownName endpoint = true ->
      default 0 (endpoints after !! endpoint)
      = default 0 (endpoints before !! endpoint) + successes outcomes)
  /\ result (canMakeCall clk toDateString (readings r) (final r))
     = (calls before + successes outcomes <? 150).
Proof.
  intros Hday. revert n st.
  assert (Hmain : forall outcomes n st, writable st = true ->
            let before := result (getUsageData clk toDateString n st) in
            let r := recordAll clk toDateString endpoint outcomes n st in
            let after := result (getUsageData clk toDateString (readings r) (final r)) in
            calls after = calls before + successes outcomes
            /\ errors after = errors before + failures outcomes
            /\ cached after = cached before
            /\ default 0 (endpoints after !! endpoint)
               = default 0 (endpoints before !! endpoint) + successes outcomes).
  { clear outcomes. induction outcomes as [|success rest IH]; intros n st Hw.
    - cbv zeta. unfold recordAll, ret, readings, final. simpl fst. simpl snd.
      unfold successes, failures. simpl. rewrite !Z.add_0_r. repeat split.
    - cbv zeta. simpl recordAll. unfold bind.
      destruct (recordCall clk toDateString endpoint success n st) as [[d1 n1] st1] eqn:Hrec.
      assert (Hst1 : st1 = {| slot := Parsed d1; writable := true |}).
      { destruct success.
        - destruct (recordCall_success clk toDateString endpoint n st) as (_ & _ & _ & _ & _ & H).
          rewrite Hrec, Hw in H. exact H.
        - destruct (recordCall_failure clk toDateString endpoint n st) as (_ & _ & _ & _ & _ & H).
          rewrite Hrec, Hw in H. exact H. }
      assert (Hd1 : exists i, date d1 = toDateString (clk i)).
      { destruct (getUsageData_date clk toDateString n st) as [i Hi]. exists i. rewrite <- Hi.
        destruct success.
        - destruct (recordCall_success clk toDateString endpoint n st) as (H & _).
          now rewrite Hrec in H.
        - destruct (recordCall_failure clk toDateString endpoint n st) as (H & _).
          now rewrite Hrec in H. }
      assert (Hread : result (getUsageData clk toDateString n1 st1) = d1).
      { apply getUsageData_stored; [exact Hday | now rewrite Hst1 | exact Hd1]. }
      assert (Hw1 : writable st1 = true) by now rewrite Hst1.
      specialize (IH n1 st1 Hw1). cbv zeta in IH. rewrite Hread in IH.
      destruct IH as (Hc & He & Hh & Hep).
      rewrite Hc, He, Hh, Hep.
      destruct success.
      + destruct (recordCall_success clk toDateString endpoint n st)
          as (_ & Hc1 & Hep1 & He1 & Hh1 & _).
        rewrite Hrec in Hc1, Hep1, He1, Hh1. unfold result in Hc1, Hep1, He1, Hh1.
        simpl in Hc1, Hep1, He1, Hh1.
        rewrite Hc1, He1, Hh1, Hep1. unfold successes, failures. simpl List.filter.
        simpl length. rewrite Nat2Z.inj_succ. simpl. unfold result. repeat split; lia.
      + destruct (recordCall_failure clk toDateString endpoint n st)
          as (_ & Hc1 & Hep1 & He1 & Hh1 & _).
        rewrite Hrec in Hc1, Hep1, He1, Hh1. unfold result in Hc1, Hep1, He1, Hh1.
        simpl in Hc1, Hep1, He1, Hh1.
        rewrite Hc1, He1, Hh1, Hep1. unfold successes, failures. simpl List.filter.
        simpl length. rewrite Nat2Z.inj_succ. unfold result. repeat split; lia. }
  intros n st Hw before r after.
  destruct (Hmain outcomes n st Hw) as (Hc & He & Hh & Hep).
  fold before r after in Hc, He, Hh, Hep.
  repeat split; auto.
  rewrite canMakeCall_run. unfold result at 1. simpl. fold after. rewrite Hc. reflexivity.
Qed.

(** X8. When the storage refuses writes, recording a call, a failure or a
    cache hit, and resetting the ledger, return their updated record (the
    counter moved by one, the count of the endpoint of a successful call
    moved by one, the emptied ledger of the day) and leave the storage as
    it was: the update is lost without an error. *)
Theorem unwritable_storage_keeps_ledger (endpoint : string) (success : bool)
        (n : nat) (st : Storage) :
  writable st = false ->
  let before := result (getUsageData clk toDateString n st) in
  let called := recordCall clk toDateString endpoint success n st in
  let hit := recordCacheHit clk toDateString n st in
  let reset := resetUsage clk toDateString n st in
  final called = st
  /\ final hit = st
  /\ final reset = st
  /\ cached (result hit) = cached before + 1
  /\ calls (result hit) = calls before
  /\ errors (result hit) = errors before
  /\ calls (result called) = calls before + (if success then 1 else 0)
  /\ errors (result called) = errors before + (if success then 0 else 1)
  /\ cached (result called) = cached before
  /\ (ownName endpoint = true ->
      endpoints (result called)
      = if success
        then <[endpoint := default 0 (endpoints before !! endpoint) + 1]> (endpoints before)
        else endpoints before)
  /\ date (result reset) = toDateString (clk n)
  /\ calls (result reset) = 0
  /\ errors (result reset) = 0
  /\ cached (result reset) = 0
  /\ endpoints (result reset) = ∅.
Proof.
  intros Hw before called hit reset.
  destruct (recordCacheHit_run clk toDateString n st) as (_ & Hhc & _ & Hhe & Hhh & Hhf).
  rewrite Hw in Hhf.
  assert (Hcalled : final called = st
                    /\ calls (result called) = calls before + (if success then 1 else 0)
                    /\ errors (result called) = errors before + (if success then 0 else 1)
                    /\ cached (result called) = cached before).
  { unfold called, before. destruct success.
    - destruct (recordCall_success clk toDateString endpoint n st)
        as (_ & Hc & _ & He & Hh & Hf).
      rewrite Hw in Hf. rewrite Hc, He, Hh, Hf. repeat split; lia.
    - destruct (recordCall_failure clk toDateString endpoint n st)
        as (_ & Hc & _ & He & Hh & Hf).
      rewrite Hw in Hf. rewrite Hc, He, Hh, Hf. repeat split; lia. }
  destruct Hcalled as (Hf & Hc & He & Hh).
  split; [exact Hf|]. split; [exact Hhf|]. split.
  { unfold reset, resetUsage, createNewUsageData, saveUsageData, todayString, bind, dateNow,
      modify, ret, final. simpl. now rewrite Hw. }
  split; [exact Hhh|]. split; [exact Hhc|]. split; [exact Hhe|].
  split; [exact Hc|]. split; [exact He|]. split; [exact Hh|].
  split.
  { intros _. unfold called, before, recordCall, bind, ret, result.
    destruct (getUsageData clk toDateString n st) as [[data n'] st'].
    cbn [fst]. unfold saveUsageData.
    destruct success; reflexivity. }
  repeat split.
Qed.

(** X9. After [resetUsage()] on a storage that accepts writes the ledger
    of the day is empty, whatever it held: no call, no error, no cache
    hit, no endpoint, the whole quota remaining, and a call may be made. *)
Theorem resetUsage_clears (n m : nat) (st : Storage) :
  sameDay clk toDateString ->
  writable st = true ->
  let r := resetUsage clk toDateString n st in
  let after := result (getUsageData clk toDateString m (final r)) in
  calls after = 0 /\ errors after = 0 /\ cached after = 0 /\ endpoints after = ∅
  /\ result (canMakeCall clk toDateString m (final r)) = true
  /\ stat_remaining (result (getUsageStats clk toDateString m (final r))) = 150.
Proof.
  intros Hday Hw r after.
  assert (Hfinal : final r = {| slot := Parsed (result r); writable := true |}).
  { unfold r, resetUsage, createNewUsageData, saveUsageData, todayString, bind, dateNow,
      modify, ret, final, result. simpl. now rewrite Hw. }
  assert (Hres : result r = {| date := toDateString (clk n); calls := 0; endpoints := ∅;
                               lastReset := clk (S n); errors := 0; cached := 0 |}).
  { reflexivity. }
  assert (Hread : result (getUsageData clk toDateString m (final r)) = result r).
  { apply getUsageData_stored; [exact Hday | now rewrite Hfinal |].
    exists n. now rewrite Hres. }
  assert (Hstats : stat_remaining (result (getUsageStats clk toDateString m (final r))) = 150).
  { unfold getUsageStats, bind, ret. rewrite Hres in Hread. unfold result in Hread |- *.
    destruct (getUsageData clk toDateString m (final r)) as [[d n'] st']. simpl in Hread |- *.
    now subst d. }
  subst after. rewrite canMakeCall_run. unfold result at 5. cbn [fst].
  rewrite Hread, Hres. simpl. repeat split. exact Hstats.
Qed.

End LedgerMore.

Section LedgerFigures.
Import Clocked APIUsageManager.
Variable clk : nat -> Z.
Variable toDateString : Z -> string.
Local Open Scope Z_scope.

Lemma getUsageStats_run (n : nat) (st : Storage) :
  let data := result (getUsageData clk toDateString n st) in
  result (getUsageStats clk toDateString n st)
  = {| stat_calls := calls data;
       stat_remaining := Z.max 0 (dailyLimit - calls data);
       stat_limit := dailyLimit;
       stat_usagePercent :=
         (inject_Z (mathRound (inject_Z (calls data) / inject_Z dailyLimit * 100 * 100)) / 100)%Q;
       stat_date := date data;
       stat_endpoints := endpoints data;
       stat_errors := errors data;
       stat_cached := cached data;
       stat_status := getUsageStatus (inject_Z (calls data) / inject_Z dailyLimit * 100)%Q;
       stat_canMakeCall := calls data <? dailyLimit |}
  /\ final (getUsageStats clk toDateString n st) = st.
Proof.
  pose proof (getUsageData_pure clk toDateString n st) as Hpure.
  unfold getUsageStats, bind, ret, result, final in *.
  destruct (getUsageData clk toDateString n st) as [[d n'] st']. simpl in *. now subst.
Qed.

Lemma warning_from_120 (c : Z) :
  Qle_bool (warningThreshold * 100) (inject_Z c / inject_Z dailyLimit * 100) = true <-> 120 <= c.
Proof.
  rewrite Qle_bool_iff. unfold Qle, Qdiv, Qmult, Qinv, inject_Z, warningThreshold, dailyLimit.
  simpl. lia.
Qed.

Lemma critical_from_143_bool (c : Z) :
  Qle_bool (criticalThreshold * 100) (inject_Z c / inject_Z dailyLimit * 100) = true <-> 143 <= c.
Proof.
  rewrite Qle_bool_iff. unfold Qle, Qdiv, Qmult, Qinv, inject_Z, criticalThreshold, dailyLimit.
  simpl. lia.
Qed.

(** X10. The status reported with the statistics is normal below 120
    calls, warning from 120 to 142 and critical from 143 on; the remaining
    quota is never negative, a call may be made exactly while some quota
    remains, and once no call may be made the status is critical. *)
Theorem usage_status_bands (n : nat) (st : Storage) :
  let data := result (getUsageData clk toDateString n st) in
  let stats := result (getUsageStats clk toDateString n st) in
  (stat_status stats = Normal <-> calls data < 120)
  /\ (stat_status stats = Warning <-> 120 <= calls data < 143)
  /\ (stat_status stats = Critical <-> 143 <= calls data)
  /\ 0 <= stat_remaining stats
  /\ (stat_canMakeCall stats = true <-> 0 < stat_remaining stats)
  /\ (stat_canMakeCall stats = false -> stat_status stats = Critical)
  /\ stat_canMakeCall stats = result (canMakeCall clk toDateString n st).
Proof.
  intros data stats. destruct (getUsageStats_run n st) as [Hrun _].
  fold data stats in Hrun. rewrite Hrun. cbn [stat_status stat_remaining stat_canMakeCall].
  pose proof (warning_from_120 (calls data)) as Hw.
  pose proof (critical_from_143_bool (calls data)) as Hc.
  unfold getUsageStatus.
  destruct (Qle_bool (criticalThreshold * 100) (inject_Z (calls data) / inject_Z dailyLimit * 100));
    destruct (Qle_bool (warningThreshold * 100) (inject_Z (calls data) / inject_Z dailyLimit * 100));
    rewrite canMakeCall_run; unfold result at 1; cbn [fst]; fold data;
    unfold dailyLimit;
    destruct (Z.ltb_spec (calls data) 150);
    repeat split; intros; try discriminate; try lia; try reflexivity;
      try (exfalso; assert (120 <= calls data) by lia; intuition discriminate);
      try (exfalso; assert (143 <= calls data) by lia; intuition discriminate);
      try (exfalso; intuition lia).
Qed.

(** X11. The time until the reset is the time to the next midnight of the
    time zone UTC: more than nothing and at most a day; the hours and
    minutes reported are its whole hours and the whole minutes of the
    rest, 24 hours being reported exactly at midnight; nothing is written. *)
Theorem time_until_reset_bounds (n : nat) (st : Storage) :
  let t := result (getTimeUntilReset clk n st) in
  0 < milliseconds t <= 86400000
  /\ (clk n + milliseconds t) mod 86400000 = 0
  /\ 0 <= hours t <= 24
  /\ 0 <= minutes t <= 59
  /\ hours t * 3600000 + minutes t * 60000 <= milliseconds t
     < hours t * 3600000 + (minutes t + 1) * 60000
  /\ (hours t = 24 <-> clk n mod 86400000 = 0)
  /\ final (getTimeUntilReset clk n st) = st.
Proof.
  unfold getTimeUntilReset, bind, dateNow, ret, result, final. simpl.
  unfold nextUTCMidnight, msPerDay, msPerHour, msPerMinute.
  change (24 * (1000 * 60 * 60)) with 86400000.
  change (1000 * 60 * 60) with 3600000. change (1000 * 60) with 60000.
  generalize (clk n) as now. intros now.
  pose proof (Z.div_mod now 86400000 ltac:(lia)) as Hdm.
  pose proof (Z.mod_pos_bound now 86400000 ltac:(lia)) as Hmod.
  set (q := now / 86400000) in *. set (r := now mod 86400000) in *.
  assert (Hms : (q + 1) * 86400000 - now = 86400000 - r) by lia.
  rewrite Hms. clear Hms.
  assert (Hsum : now + (86400000 - r) = (q + 1) * 86400000) by lia.
  rewrite Hsum, Z.mod_mul by lia. clear Hsum Hdm.
  set (ms := 86400000 - r) in *.
  assert (Hbound : 0 < ms <= 86400000) by (unfold ms; lia).
  rewrite Z.rem_mod_nonneg by lia.
  pose proof (Z.div_mod ms 3600000 ltac:(lia)) as Hh.
  pose proof (Z.mod_pos_bound ms 3600000 ltac:(lia)) as Hhm.
  pose proof (Z.div_mod (ms mod 3600000) 60000 ltac:(lia)) as Hm.
  pose proof (Z.mod_pos_bound (ms mod 3600000) 60000 ltac:(lia)) as Hmm.
  set (h := ms / 3600000) in *. set (hr := ms mod 3600000) in *.
  set (mi := hr / 60000) in *. set (mr := hr mod 60000) in *.
  repeat split; lia.
Qed.

End LedgerFigures.

Section LedgerAdvice.
Import Clocked APIUsageManager.
Variable clk : nat -> Z.
Variable toDateString : Z -> string.
Local Open Scope Z_scope.

Lemma rounded_percent (c : Z) :
  mathRound (inject_Z c / inject_Z dailyLimit * 100 * 100) = (20000 * c + 150) / 300.
Proof.
  unfold mathRound, Qfloor, Qplus, Qdiv, Qmult, Qinv, inject_Z, dailyLimit. simpl.
  f_equal. lia.
Qed.

Lemma high_usage_from_106 (c : Z) :
  negb (Qle_bool (inject_Z (mathRound (inject_Z c / inject_Z dailyLimit * 100 * 100)) / 100) 70)
  = true <-> 106 <= c.
Proof.
  rewrite rounded_percent. rewrite Bool.negb_true_iff.
  set (k := (20000 * c + 150) / 300).
  assert (Hk : Qle_bool (inject_Z k / 100) 70 = true <-> k <= 7000).
  { rewrite Qle_bool_iff. unfold Qle, Qdiv, Qmult, Qinv, inject_Z. simpl. lia. }
  assert (Hc : k <= 7000 <-> c <= 105).
  { pose proof (Z.div_mod (20000 * c + 150) 300 ltac:(lia)) as Hdm.
    pose proof (Z.mod_pos_bound (20000 * c + 150) 300 ltac:(lia)) as Hmod.
    fold k in Hdm. lia. }
  destruct (Qle_bool (inject_Z k / 100) 70); split; intros H; try discriminate; try reflexivity.
  - assert (c <= 105) by (apply Hc, Hk; reflexivity). lia.
  - assert (~ c <= 105) by (intros Hle; apply Hc, Hk in Hle; discriminate). lia.
Qed.

Lemma low_cache_iff (c h : Z) :
  negb (Qle_bool (inject_Z c * (3 # 10)) (inject_Z h)) = true <-> 10 * h < 3 * c.
Proof.
  rewrite Bool.negb_true_iff.
  assert (H : Qle_bool (inject_Z c * (3 # 10)) (inject_Z h) = true <-> 3 * c <= 10 * h).
  { rewrite Qle_bool_iff. unfold Qle, Qmult, inject_Z. simpl. lia. }
  destruct (Qle_bool (inject_Z c * (3 # 10)) (inject_Z h)); split; intros H'; try discriminate;
    try reflexivity.
  - assert (3 * c <= 10 * h) by (apply H; reflexivity). lia.
  - assert (~ 3 * c <= 10 * h) by (intros Hle; apply H in Hle; discriminate). lia.
Qed.

(** X12. The advice of [getRecommendations()]: high usage is reported from
    the 106th call of the day on, errors from the sixth error on, a low
    cache ratio when the cache hits are fewer than three tenths of the
    calls; the advice comes in that order and nothing is written. *)
Theorem recommendations_thresholds (n : nat) (st : Storage) :
  let data := result (getUsageData clk toDateString n st) in
  let advice := result (getRecommendations clk toDateString n st) in
  advice
  = (if 106 <=? calls data then [highUsage] else [])
      ++ (if 6 <=? errors data then [manyErrors] else [])
      ++ (if 10 * cached data <? 3 * calls data then [lowCache] else [])
  /\ final (getRecommendations clk toDateString n st) = st.
Proof.
  intros data advice. destruct (getUsageStats_run clk toDateString n st) as [Hrun Hfinal].
  fold data in Hrun.
  unfold advice, getRecommendations, bind, ret.
  unfold result, final in Hrun, Hfinal |- *.
  destruct (getUsageStats clk toDateString n st) as [[stats n'] st']. simpl in Hrun, Hfinal |- *.
  subst st' stats. cbn [stat_usagePercent stat_errors stat_calls stat_cached].
  split; [|reflexivity].
  pose proof (high_usage_from_106 (calls data)) as Hhigh.
  pose proof (low_cache_iff (calls data) (cached data)) as Hlow.
  destruct (negb (Qle_bool (inject_Z (mathRound (inject_Z (calls data) / inject_Z dailyLimit
                                                  * 100 * 100)) / 100) 70));
    destruct (negb (Qle_bool (inject_Z (calls data) * (3 # 10)) (inject_Z (cached data))));
    destruct (Z.leb_spec 106 (calls data)); destruct (Z.ltb_spec (10 * cached data) (3 * calls data));
    try (exfalso; intuition (discriminate || lia));
    rewrite Z.gtb_ltb; destruct (Z.ltb_spec 5 (errors data)); destruct (Z.leb_spec 6 (errors data));
    try lia; reflexivity.
Qed.

End LedgerAdvice.

Section LedgerTrends.
Import Clocked APIUsageManager.
Variable clk : nat -> Z.
Variable toDateString : Z -> string.
Local Open Scope Z_scope.

(** Rounding keeps a number between two integers between them. *)
Lemma mathRound_bounds (q : Q) (lo hi : Z) :
  (inject_Z lo <= q)%Q -> (q <= inject_Z hi)%Q -> lo <= mathRound q <= hi.
Proof.
  intros Hlo Hhi. unfold mathRound. split.
  - rewrite <- (Qfloor_Z lo). apply Qfloor_resp_le.
    apply (Qle_trans _ q); [exact Hlo|].
    rewrite <- (Qplus_0_r q) at 1. apply Qplus_le_r. discriminate.
  - assert (Hhalf : Qfloor (inject_Z hi + (1 # 2)) = hi).
    { unfold Qfloor, Qplus, inject_Z. simpl.
      symmetry. apply (Z.div_unique _ _ _ 1); lia. }
    rewrite <- Hhalf. apply Qfloor_resp_le. now apply Qplus_le_l.
Qed.

Lemma mathRound_zero (q : Q) : (q == 0)%Q -> mathRound q = 0.
Proof.
  intros H.
  assert (Hlo : (inject_Z 0 <= q)%Q) by (rewrite H; apply Qle_refl).
  assert (Hhi : (q <= inject_Z 0)%Q) by (rewrite H; apply Qle_refl).
  pose proof (mathRound_bounds q 0 0 Hlo Hhi). lia.
Qed.

(** X13. With counters that are not negative, the cache efficiency of
    [getUsageTrends()] is a percentage between 0 and 100: 0 without cache
    hits, 100 when there are cache hits and no call; with no call the
    calls per hour and the projected daily usage are 0; nothing is
    written. *)
Theorem usage_trends_bounds (n : nat) (st : Storage) :
  let data := result (getUsageData clk toDateString n st) in
  let trends := result (getUsageTrends clk toDateString n st) in
  0 <= calls data ->
  0 <= cached data ->
  0 <= cacheEfficiency trends <= 100
  /\ (cached data = 0 -> cacheEfficiency trends = 0)
  /\ (calls data = 0 -> 0 < cached data -> cacheEfficiency trends = 100)
  /\ (calls data = 0 -> (callsPerHour trends == 0)%Q /\ projectedDailyUsage trends = 0)
  /\ final (getUsageTrends clk toDateString n st) = st.
Proof.
  intros data trends Hc Hh.
  pose proof (getUsageData_pure clk toDateString n st) as Hpure.
  unfold trends, data, getUsageTrends, bind, dateNow, ret, result, final in *.
  destruct (getUsageData clk toDateString n st) as [[d n'] st']. simpl in *. subst st'.
  set (c := calls d) in *. set (h := cached d) in *.
  assert (Hratio : 0 < c + h ->
                   (inject_Z 0 <= inject_Z h / inject_Z (c + h) * 100)%Q
                   /\ (inject_Z h / inject_Z (c + h) * 100 <= inject_Z 100)%Q
                   /\ (h = 0 -> (inject_Z h / inject_Z (c + h) * 100 <= inject_Z 0)%Q)
                   /\ (c = 0 -> (inject_Z 100 <= inject_Z h / inject_Z (c + h) * 100)%Q)).
  { intros Hpos. destruct (c + h) as [|p|p] eqn:Hsum; try lia.
    unfold Qle, Qdiv, Qmult, Qinv, inject_Z. simpl. repeat split; intros; lia. }
  split; [|split; [|split; [|split]]].
  - destruct (Z.gtb_spec (c + h) 0) as [Hpos|Hzero]; [|lia].
    destruct (Hratio Hpos) as (H0 & H100 & _). now apply mathRound_bounds.
  - intros Hzero. destruct (Z.gtb_spec (c + h) 0) as [Hpos|_]; [|reflexivity].
    destruct (Hratio Hpos) as (H0 & _ & Hz & _).
    pose proof (mathRound_bounds _ 0 0 H0 (Hz Hzero)). lia.
  - intros Hzero Hhits. destruct (Z.gtb_spec (c + h) 0) as [Hpos|Hno]; [|lia].
    destruct (Hratio Hpos) as (_ & H100 & _ & Hfull).
    pose proof (mathRound_bounds _ 100 100 (Hfull Hzero) H100). lia.
  - intros Hzero. rewrite Hzero.
    destruct (negb (Qle_bool (inject_Z (clk n' - lastReset d) / inject_Z msPerHour) 0));
      [|split; reflexivity].
    assert (Hq : forall k : Q, (inject_Z 0 / (inject_Z (clk n' - lastReset d) / inject_Z msPerHour) * k
                                == 0)%Q).
    { intros k. unfold Qdiv. rewrite !Qmult_0_l. reflexivity. }
    split.
    + rewrite (mathRound_zero _ (Hq 100%Q)). reflexivity.
    + apply mathRound_zero, Hq.
  - reflexivity.
Qed.

End LedgerTrends.

(** ** The local catalog: search, lookup by title, categories *)

Section LocalCatalog.
Import JsString Js LocalRecipes Scenario.
Local Open Scope string_scope.

Lemma matchesText_lower (q q' : string) :
  toLowerCase q = toLowerCase q' -> forall r, matchesText q r = matchesText q' r.
Proof. intros H r. unfold matchesText. now rewrite H. Qed.

(** X14. The text filter of the local search does not look at the case of
    the query, and keeps catalog recipes whose title or summary contains
    the lower-cased query. *)
Theorem text_search_ignores_case (q q' : string) (o : JsObject) :
  filtersByText (Some q) = true ->
  filtersByText (Some q') = true ->
  toLowerCase q = toLowerCase q' ->
  getLocalRecipes (Some q) o = getLocalRecipes (Some q') o
  /\ forall r, In r (getLocalRecipes (Some q) o) ->
       In r recipeDatabase
       /\ (includes (toLowerCase (title r)) (toLowerCase q') = true
           \/ includes (toLowerCase (summary r)) (toLowerCase q') = true).
Proof.
  intros Hq Hq' Hlow.
  assert (Hf : List.filter (matchesText q) recipeDatabase
               = List.filter (matchesText q') recipeDatabase).
  { apply filter_ext. apply matchesText_lower, Hlow. }
  split.
  - unfold getLocalRecipes. rewrite Hq, Hq', Hf. reflexivity.
  - intros r Hr. unfold getLocalRecipes in Hr. rewrite Hq in Hr.
    assert (Hin : In r (List.filter (matchesText q) recipeDatabase)).
    { destruct (filtersByVegetarian o); [apply filter_In in Hr; destruct Hr as [Hr _]|];
        (destruct (filtersByCategory o); [apply filter_In in Hr; destruct Hr as [Hr _]|]);
        exact Hr. }
    apply filter_In in Hin. destruct Hin as [Hdb Hm]. split; [exact Hdb|].
    unfold matchesText in Hm. rewrite Hlow in Hm.
    apply orb_true_iff in Hm. exact Hm.
Qed.

Lemma text_search_ignores_case_witness :
  getLocalRecipes (Some "PANEER") [] = getLocalRecipes (Some "paneer") [].
Proof.
  apply (text_search_ignores_case "PANEER" "paneer" []); reflexivity.
Defined.

(** X15. [getRecipesByCategory] is the local search with only the category
    option: no category, the empty one and ['all'] give the whole catalog,
    any other gives exactly the catalog recipes of that category. *)
Theorem getRecipesByCategory_as_search (c : option string) :
  getRecipesByCategory c
  = getLocalRecipes None (match c with Some s => [("category", JStr s)] | None => [] end)
  /\ (c = None \/ c = Some EmptyString \/ c = Some "all" -> getRecipesByCategory c = recipeDatabase)
  /\ (forall s, c = Some s -> s <> EmptyString -> s <> "all" ->
      forall r, In r (getRecipesByCategory c) <-> In r recipeDatabase /\ category r = s).
Proof.
  assert (Hall : getLocalRecipes None [] = recipeDatabase) by reflexivity.
  split; [|split].
  - destruct c as [s|]; [|reflexivity].
    unfold getRecipesByCategory. rewrite Hall.
    unfold getLocalRecipes, filtersByCategory, filtersByVegetarian.
    cbn [obj_get find fst snd String.eqb Ascii.eqb Bool.eqb option_map strictEqString
         isNullOrUndefined negb truthy].
    replace (obj_get "category" [("category", JStr s)]) with (JStr s) by reflexivity.
    replace (obj_get "vegetarian" [("category", JStr s)]) with JUndefined by reflexivity.
    cbn [strictEqString isNullOrUndefined negb truthy].
    destruct s as [|a s]; [reflexivity|].
    cbn [truthy nonEmpty negb andb orb].
    destruct (String.eqb (String a s) "all"); cbn [negb orb andb]; [reflexivity|].
    apply filter_ext. intros r. apply String.eqb_sym.
  - intros [->|[->| ->]]; reflexivity.
  - intros s -> Hne Hall' r. unfold getRecipesByCategory. rewrite Hall.
    destruct (String.eqb_spec s "all") as [E|_]; [contradiction|].
    destruct s as [|a s]; [contradiction|]. cbn [nonEmpty negb orb].
    rewrite filter_In. split; intros [H1 H2]; split; try exact H1.
    + apply String.eqb_eq, H2.
    + apply String.eqb_eq, H2.
Qed.

(** X16. Looking a catalog recipe up by its title gives that recipe back,
    whatever the case of the letters and the white space around the
    title. *)
Theorem findRecipeByTitle_round_trip (r : Recipe) (t : string) :
  In r recipeDatabase ->
  trim (toLowerCase t) = toLowerCase (title r) ->
  findRecipeByTitle t = Some r.
Proof.
  intros Hin Ht. unfold findRecipeByTitle. rewrite Ht. clear Ht t.
  unfold recipeDatabase in Hin. cbn [In] in Hin.
  repeat (destruct Hin as [<- | Hin]; [vm_compute; reflexivity|]).
  contradiction.
Qed.

Lemma findRecipeByTitle_round_trip_witness :
  In chickenBiryani recipeDatabase
  /\ findRecipeByTitle "   chicken BIRYANI  " = Some chickenBiryani.
Proof.
  assert (Hin : In chickenBiryani recipeDatabase).
  { unfold recipeDatabase, chickenBiryani. cbn [In].
    repeat (first [left; reflexivity | right]). }
  split; [exact Hin|].
  apply findRecipeByTitle_round_trip; [exact Hin|].
  vm_compute. reflexivity.
Defined.

(** X17. A title that is empty or only white space is not answered with
    [null]: the partial match accepts every title, and the first recipe of
    the catalog comes back. *)
Theorem findRecipeByTitle_blank (t : string) :
  trim (toLowerCase t) = EmptyString ->
  findRecipeByTitle t = hd_error recipeDatabase
  /\ findRecipeByTitle t <> None.
Proof.
  intros Ht. unfold findRecipeByTitle. rewrite Ht.
  split; [vm_compute; reflexivity|].
  vm_compute. discriminate.
Qed.

Lemma findRecipeByTitle_blank_witness :
  findRecipeByTitle "   " = hd_error recipeDatabase /\ findRecipeByTitle "   " <> None.
Proof.
  apply findRecipeByTitle_blank.
  vm_compute. reflexivity.
Defined.

End LocalCatalog.

(** ** The matchers on the local catalog *)

Lemma In_firstn {A : Type} (n : nat) (l : list A) (x : A) : In x (firstn n l) -> In x l.
Proof.
  revert n. induction l as [|y l IH]; intros [|n]; simpl; try tauto.
  intros [->|H]; [now left|right; now apply (IH n)].
Qed.

Section SortedSublists.
Context {A : Type}.
Variable R : A -> A -> Prop.

Lemma StronglySorted_filter (f : A -> bool) (l : list A) :
  StronglySorted R l -> StronglySorted R (List.filter f l).
Proof.
  induction 1 as [|x l Hl IH Hx]; simpl; [constructor|].
  destruct (f x); [|exact IH].
  constructor; [exact IH|].
  rewrite List.Forall_forall in *. intros y Hy.
  apply filter_In in Hy. now apply Hx.
Qed.

Lemma StronglySorted_firstn (n : nat) (l : list A) :
  StronglySorted R l -> StronglySorted R (firstn n l).
Proof.
  intros Hs. revert n.
  induction Hs as [|x l Hl IH Hx]; intros [|n]; simpl; try constructor.
  - apply IH.
  - rewrite List.Forall_forall in *. intros y Hy. apply Hx. now apply In_firstn in Hy.
Qed.

End SortedSublists.

Section LocalMatchers.
Import JsString Js LocalRecipes ScoreRule Scenario.
Local Open Scope string_scope.
Local Open Scope Z_scope.

Lemma In_sliceTo {A : Type} (k : Z) (l : list A) (x : A) : In x (sliceTo k l) -> In x l.
Proof. unfold sliceTo. destruct (k <? 0); intros H; exact (In_firstn _ _ _ H). Qed.

Lemma StronglySorted_sliceTo {A : Type} (R : A -> A -> Prop) (k : Z) (l : list A) :
  StronglySorted R l -> StronglySorted R (sliceTo k l).
Proof. unfold sliceTo. intros H. destruct (k <? 0); now apply StronglySorted_firstn. Qed.

Lemma length_sliceTo {A : Type} (k : Z) (l : list A) :
  0 <= k -> Z.of_nat (length (sliceTo k l)) <= k.
Proof.
  intros Hk. unfold sliceTo. destruct (Z.ltb_spec k 0) as [H|_]; [lia|].
  pose proof (firstn_le_length (Z.to_nat k) l).
  rewrite length_firstn. lia.
Qed.

Lemma geTextScore_total (a b : TextMatch) : geTextScore a b = false -> geTextScore b a = true.
Proof. unfold geTextScore. rewrite Z.leb_gt, Z.leb_le. lia. Qed.

Lemma geTextScore_trans (a b c : TextMatch) :
  geTextScore a b = true -> geTextScore b c = true -> geTextScore a c = true.
Proof. unfold geTextScore. rewrite !Z.leb_le. lia. Qed.

(** The results that come out of the sort. *)
Lemma scored_by_text (low : list string) (s : TextMatch) :
  In s (JsSort.sort geTextScore
          (List.filter (fun s => tm_score s >? 0) (map (scoreByText low) recipeDatabase))) ->
  In (tm_recipe s) recipeDatabase /\ s = scoreByText low (tm_recipe s) /\ 1 <= tm_score s.
Proof.
  intros Hs.
  apply (Permutation_in _ (sort_Permutation geTextScore _)) in Hs.
  apply filter_In in Hs. destruct Hs as [Hs Hpos].
  apply in_map_iff in Hs. destruct Hs as (r & <- & Hr).
  split; [exact Hr|]. split; [reflexivity|].
  apply Z.gtb_lt in Hpos. lia.
Qed.

Lemma sorted_by_text (l : list TextMatch) :
  StronglySorted (fun a b => tm_score b <= tm_score a) (JsSort.sort geTextScore l).
Proof.
  eapply StronglySorted_weaken;
    [|apply (sort_StronglySorted geTextScore geTextScore_total geTextScore_trans)].
  intros a b Hab. unfold geTextScore in Hab. now apply Z.leb_le in Hab.
Qed.

(** A time limit that is absent or 0 filters nothing. *)
Lemma time_limit (test : Z -> Z -> bool) (limit : option Z) (base : list TextMatch) :
  let kept := match limit with
              | Some m =>
                  if given limit
                  then List.filter (fun s => test (readyInMinutes (tm_recipe s)) m) base
                  else base
              | None => base
              end in
  (forall s, In s kept ->
     In s base /\ forall m, limit = Some m -> m <> 0 -> test (readyInMinutes (tm_recipe s)) m = true)
  /\ forall R, StronglySorted R base -> StronglySorted R kept.
Proof.
  destruct limit as [m|]; simpl.
  - destruct (Z.eqb_spec m 0) as [E|E]; simpl.
    + split; [|auto]. intros s Hs. split; [exact Hs|]. intros m' [= <-] Hm. contradiction.
    + split; [|intros R; apply StronglySorted_filter].
      intros s Hs. apply filter_In in Hs. destruct Hs as [Hs Hle]. split; [exact Hs|].
      now intros m' [= <-] _.
  - split; [|auto]. intros s Hs. split; [exact Hs|]. discriminate.
Qed.

(** X18. Every result of the text matcher is a catalog recipe; its
    matched ingredients are the lower-cased ingredients that occur in the
    lower-cased text made of its title, summary and category, there is at
    least one, and its score is their number; its percentage is the double
    ratio of the score to the number of ingredients, times 100, rounded,
    and lies between 0 and 100; the time limits that are given and not 0
    hold, the results are in descending order of score, and there are at
    most [number] of them, 12 when [number] is absent or 0; no ingredient
    gives no result. *)
Theorem findLocalRecipesByIngredients_bounds (ingredients : list string)
        (o : IngredientSearchOptions) :
  let res := findLocalRecipesByIngredients ingredients o in
  (forall s, In s res ->
     In (tm_recipe s) recipeDatabase
     /\ tm_matchedIngredients s
        = List.filter
            (fun ing => includes (toLowerCase (title (tm_recipe s) +:+ " " +:+
                                               summary (tm_recipe s) +:+ " " +:+
                                               category (tm_recipe s))) ing)
            (map toLowerCase ingredients)
     /\ 1 <= tm_score s <= Z.of_nat (length ingredients)
     /\ tm_score s = Z.of_nat (length (tm_matchedIngredients s))
     /\ (forall x, In x (tm_matchedIngredients s) -> In x (map toLowerCase ingredients))
     /\ tm_matchPercentage s
        = APIUsageManager.mathRound
            (JsNumber.mul (JsNumber.div (inject_Z (tm_score s))
                                        (inject_Z (Z.of_nat (length ingredients))))
                          100)
     /\ 0 <= tm_matchPercentage s <= 100
     /\ (forall m, maxReadyTime o = Some m -> m <> 0 -> readyInMinutes (tm_recipe s) <= m)
     /\ (forall m, minReadyTime o = Some m -> m <> 0 -> m <= readyInMinutes (tm_recipe s)))
  /\ StronglySorted (fun a b => tm_score b <= tm_score a) res
  /\ (given (number o) = false -> (length res <= 12)%nat)
  /\ (forall k, number o = Some k -> 0 < k -> Z.of_nat (length res) <= k)
  /\ (ingredients = [] -> res = []).
Proof.
  cbv zeta. unfold findLocalRecipesByIngredients.
  replace (getLocalRecipes None []) with recipeDatabase by reflexivity.
  pose proof (scored_by_text (map toLowerCase ingredients)) as Hbase.
  pose proof (sorted_by_text
                (List.filter (fun s => tm_score s >? 0)
                             (map (scoreByText (map toLowerCase ingredients)) recipeDatabase)))
    as Sbase.
  pose proof (length_map toLowerCase ingredients) as Hlow.
  remember (map toLowerCase ingredients) as low eqn:Elow.
  remember (JsSort.sort geTextScore
              (List.filter (fun s => tm_score s >? 0) (map (scoreByText low) recipeDatabase)))
    as base eqn:Ebase.
  clear Ebase.
  destruct (time_limit Z.leb (maxReadyTime o) base) as [H1 S1].
  remember (match maxReadyTime o with
            | Some limit =>
                if given (maxReadyTime o)
                then List.filter (fun s => readyInMinutes (tm_recipe s) <=? limit) base
                else base
            | None => base
            end) as r1 eqn:E1.
  clear E1.
  destruct (time_limit Z.geb (minReadyTime o) r1) as [H2 S2].
  remember (match minReadyTime o with
            | Some limit =>
                if given (minReadyTime o)
                then List.filter (fun s => readyInMinutes (tm_recipe s) >=? limit) r1
                else r1
            | None => r1
            end) as r2 eqn:E2.
  clear E2.
  assert (Hres : forall k s, In s (sliceTo k r2) ->
            In (tm_recipe s) recipeDatabase
            /\ s = scoreByText low (tm_recipe s)
            /\ 1 <= tm_score s
            /\ (forall m, maxReadyTime o = Some m -> m <> 0 -> readyInMinutes (tm_recipe s) <= m)
            /\ (forall m, minReadyTime o = Some m -> m <> 0 -> m <= readyInMinutes (tm_recipe s))).
  { intros k s Hs. apply In_sliceTo in Hs.
    destruct (H2 s Hs) as [Hs1 Hmin]. destruct (H1 s Hs1) as [Hs0 Hmax].
    destruct (Hbase s Hs0) as (Hdb & Heq & Hpos).
    repeat split; try assumption.
    - intros m Hm Hne. apply Z.leb_le. now apply Hmax.
    - intros m Hm Hne. apply Z.leb_le. rewrite <- Z.geb_leb. now apply Hmin. }
  split; [|split; [|split; [|split]]].
  - intros s Hs. destruct (Hres _ s Hs) as (Hdb & Heq & Hpos & Hmax & Hmin).
    assert (Hlen : tm_score s = Z.of_nat (length (tm_matchedIngredients s))).
    { rewrite Heq. reflexivity. }
    assert (Hsub : forall x, In x (tm_matchedIngredients s) -> In x low).
    { intros x Hx. rewrite Heq in Hx. unfold scoreByText in Hx.
      cbn [tm_matchedIngredients] in Hx. now apply filter_In in Hx. }
    assert (Hle : tm_score s <= Z.of_nat (length low)).
    { rewrite Heq. unfold scoreByText. cbn [tm_score]. apply inj_le. apply filter_length_le. }
    assert (Hfound : tm_matchedIngredients s
                     = List.filter
                         (fun ing => includes (toLowerCase (title (tm_recipe s) +:+ " " +:+
                                                            summary (tm_recipe s) +:+ " " +:+
                                                            category (tm_recipe s))) ing)
                         low).
    { rewrite Heq at 1. reflexivity. }
    assert (Hval : tm_matchPercentage s
                   = APIUsageManager.mathRound
                       (JsNumber.mul (JsNumber.div (inject_Z (tm_score s))
                                                   (inject_Z (Z.of_nat (length low))))
                                     100)).
    { rewrite Heq at 1. rewrite Hlen, Hfound. reflexivity. }
    assert (Hpct : 0 <= tm_matchPercentage s <= 100).
    { rewrite Hval.
      destruct (ratio_bounds (tm_score s) (Z.of_nat (length low)) ltac:(lia) ltac:(lia))
        as (_ & [H0 H100] & _).
      now apply (mathRound_bounds _ 0 100). }
    rewrite Hlow in Hval.
    repeat split; try assumption; try lia.
  - apply StronglySorted_sliceTo, S2, S1, Sbase.
  - intros Hk. rewrite Hk.
    pose proof (length_sliceTo 12 r2 ltac:(lia)). lia.
  - intros k Hk Hpos. rewrite Hk. cbn [given default].
    destruct (Z.eqb_spec k 0) as [E|_]; [lia|]. cbn [negb].
    apply length_sliceTo. lia.
  - intros Hnil.
    match goal with |- ?l = [] => destruct l as [|s rest] eqn:Hl end; [reflexivity|]. exfalso.
    assert (Hs : In s (s :: rest)) by now left.
    rewrite <- Hl in Hs.
    destruct (Hres _ s Hs) as (_ & Heq & Hpos & _).
    rewrite Heq, Elow, Hnil in Hpos. cbn in Hpos. lia.
Qed.

(** Chicken and rice, no option: the biryani has both in its text. *)
Lemma findLocalRecipesByIngredients_bounds_witness :
  let res := findLocalRecipesByIngredients ["Chicken"; "rice"]
               (mkIngredientSearchOptions None None None) in
  let s := scoreByText ["chicken"; "rice"] chickenBiryani in
  In s res
  /\ tm_matchedIngredients s = ["chicken"; "rice"]
  /\ tm_matchPercentage s = 100
  /\ (length res <= 12)%nat.
Proof.
  cbv zeta.
  assert (H : In (scoreByText ["chicken"; "rice"] chickenBiryani)
                 (findLocalRecipesByIngredients ["Chicken"; "rice"]
                    (mkIngredientSearchOptions None None None))).
  { vm_compute. left. reflexivity. }
  destruct (findLocalRecipesByIngredients_bounds ["Chicken"; "rice"]
              (mkIngredientSearchOptions None None None)) as (Hres & _ & Hlen & _).
  destruct (Hres _ H) as (_ & Hfound & _ & _ & _ & Hpct & _).
  split; [exact H|].
  split; [rewrite Hfound; vm_compute; reflexivity|].
  split; [rewrite Hpct; vm_compute; reflexivity|].
  apply Hlen. reflexivity.
Defined.

Lemma findLocalRecipesByIngredients_limits :
  List.map (fun s => (title (tm_recipe s), tm_score s))
           (findLocalRecipesByIngredients ["Chicken"; "rice"] (mkIngredientSearchOptions (Some 60) None (Some 3)))
  = List.map (fun s => (title (tm_recipe s), tm_score s))
             (findLocalRecipesByIngredients ["chicken"; "RICE"] (mkIngredientSearchOptions (Some 60) (Some 0) (Some 3))).
Proof. vm_compute. reflexivity. Qed.

End LocalMatchers.

Section Relatedness.
Import JsString Js LocalRecipes ScoreRule Scenario.
Local Open Scope string_scope.

Lemma prefix_refl (s : string) : String.prefix s s = true.
Proof.
  induction s as [|c s IH]; simpl; [reflexivity|].
  destruct (Ascii.ascii_dec c c); [exact IH|contradiction].
Qed.

Lemma includes_refl (s : string) : includes s s = true.
Proof.
  destruct s as [|c s]; [reflexivity|].
  change (includes (String c s) (String c s))
    with (if String.prefix (String c s) (String c s) then true else includes s (String c s)).
  now rewrite prefix_refl.
Qed.

Lemma includes_empty (s : string) : includes s EmptyString = true.
Proof. destruct s; reflexivity. Qed.

Lemma existsb_ext_in {A : Type} (f g : A -> bool) (l : list A) :
  (forall x, f x = g x) -> existsb f l = existsb g l.
Proof. intros H. induction l as [|x l IH]; simpl; [reflexivity|]. now rewrite H, IH. Qed.

(** X19. Relatedness of two ingredient names is symmetric and reflexive,
    ignores the case of the letters, holds as soon as one lower-cased name
    contains the other, and so for the empty name against every name. *)
Theorem areIngredientsRelated_symmetric (a b : string) :
  areIngredientsRelated a b = areIngredientsRelated b a
  /\ areIngredientsRelated a a = true
  /\ areIngredientsRelated (toLowerCase a) b = areIngredientsRelated a b
  /\ areIngredientsRelated a (toLowerCase b) = areIngredientsRelated a b
  /\ (includes (toLowerCase a) (toLowerCase b) = true -> areIngredientsRelated a b = true)
  /\ areIngredientsRelated EmptyString b = true.
Proof.
  unfold areIngredientsRelated. repeat split.
  - rewrite (Bool.orb_comm (includes (toLowerCase a) (toLowerCase b))).
    destruct (includes (toLowerCase b) (toLowerCase a) || includes (toLowerCase a) (toLowerCase b));
      [reflexivity|].
    apply existsb_ext_in. intros group. apply Bool.andb_comm.
  - now rewrite includes_refl.
  - now rewrite toLowerCase_idem.
  - now rewrite toLowerCase_idem.
  - intros H. now rewrite H.
  - cbn [toLowerCase]. now rewrite includes_empty, Bool.orb_true_r.
Qed.

End Relatedness.

Section AdvancedMatcher.
Import JsString Js LocalRecipes ScoreRule Scenario.
Local Open Scope string_scope.
Local Open Scope Z_scope.

(** Every ingredient list of the table has six or seven entries. *)
Lemma getRecipeIngredients_length (recipeId : Z) :
  (6 <= length (getRecipeIngredients recipeId) <= 7)%nat.
Proof.
  unfold getRecipeIngredients.
  repeat match goal with |- context [if ?c then _ else _] => destruct c end;
    simpl; lia.
Qed.

Lemma getRecipeIngredients_default (recipeId : Z) :
  ~ In recipeId ownIngredients -> getRecipeIngredients recipeId = getRecipeIngredients 1.
Proof.
  intros Hown. unfold getRecipeIngredients.
  repeat match goal with
         | |- context [if ?x =? ?k then _ else _] =>
             destruct (Z.eqb_spec x k) as [E|_];
             [exfalso; apply Hown; rewrite E; unfold ownIngredients; simpl; tauto|]
         end.
  reflexivity.
Qed.

Lemma count_nonneg {A : Type} (l : list A) : (0 <= count l)%Q.
Proof. unfold count, Qle. simpl. lia. Qed.

Lemma count_le {A : Type} (l1 l2 : list A) :
  (length l1 <= length l2)%nat -> (count l1 <= count l2)%Q.
Proof. intros H. unfold count. rewrite <- Zle_Qle. lia. Qed.

(** X20. For a non-empty list of user ingredients, every result of the
    advanced matcher is about a catalog recipe: its matched ingredients are
    user ingredients, its percentage is the double ratio of their number to
    the number of user ingredients, times 100, rounded, and lies between 0
    and 100; at most five missing ingredients are listed; the recipe has
    six or seven ingredients, so that the bonus for short lists always
    applies; its score is above 0 and, for a list of fewer than 2^32 user
    ingredients, as every array has, at most twice their number plus 7. *)
Theorem advanced_results_bounds (userIngredients : list string) (o : JsObject)
        (s : ScoredRecipe) :
  userIngredients <> [] ->
  In s (findRecipesByIngredientsAdvanced userIngredients o) ->
  In (recipe s) recipeDatabase
  /\ (forall x, In x (matchedIngredients s) -> In x userIngredients)
  /\ (length (matchedIngredients s) <= length userIngredients)%nat
  /\ matchPercentage s
     = APIUsageManager.mathRound
         (JsNumber.mul (JsNumber.div (count (matchedIngredients s)) (count userIngredients))
                       100)
  /\ 0 <= matchPercentage s <= 100
  /\ (length (missingIngredients s) <= 5)%nat
  /\ 6 <= totalIngredients s <= 7
  /\ (simplicityBonus (recipe s) == 2)%Q
  /\ (0 < matchScore s)%Q
  /\ (Z.of_nat (length userIngredients) < 2 ^ 32 ->
      (matchScore s <= 2 * count userIngredients + 7)%Q).
Proof.
  intros Hne Hs.
  destruct userIngredients as [|u us] eqn:Hu; [contradiction|]. rewrite <- Hu in *.
  assert (Hfind : findRecipesByIngredientsAdvanced userIngredients o
                  = JsSort.sort geScore
                      (List.filter (fun s => negb (Qle_bool (matchScore s) 0))
                                   (map (scoreRecipe userIngredients) recipeDatabase))).
  { rewrite Hu. reflexivity. }
  rewrite Hfind in Hs. clear Hfind.
  apply (Permutation_in _ (sort_Permutation geScore _)) in Hs.
  apply filter_In in Hs. destruct Hs as [Hs Hpos].
  apply in_map_iff in Hs. destruct Hs as (r & Hr & Hdb).
  destruct (scoreRecipe_rule userIngredients r) as (Hrec & Hmat & Hpct & Hmiss & Htot & Hscore).
  rewrite Hr in Hrec, Hmat, Hpct, Hmiss, Htot, Hscore.
  assert (Hn : (0 < length userIngredients)%nat) by (rewrite Hu; simpl; lia).
  assert (Hm : (length (matchedBy userIngredients r) <= length userIngredients)%nat).
  { unfold matchedBy. apply filter_length_le. }
  assert (Hlen := getRecipeIngredients_length (id r)).
  assert (Hsimple : isSimple r = true).
  { unfold isSimple. apply Nat.leb_le. lia. }
  assert (Hgt : (0 < ruleScore userIngredients r)%Q).
  { apply ruleScore_positive. rewrite <- scoreRecipe_sign, Hr. exact Hpos. }
  assert (Hval : (matchScore s == ruleScore userIngredients r)%Q).
  { rewrite Hscore. now rewrite mathMax0_positive. }
  destruct (ratio_bounds (Z.of_nat (length (matchedBy userIngredients r)))
                         (Z.of_nat (length userIngredients)) ltac:(lia) ltac:(lia))
    as (_ & Hhundred & Hfive).
  rewrite Hrec, Hmat.
  split; [exact Hdb|].
  split; [intros x Hx; unfold matchedBy in Hx; now apply filter_In in Hx|].
  split; [exact Hm|].
  split; [rewrite Hpct; reflexivity|].
  split; [rewrite Hpct; apply (mathRound_bounds _ 0 100); apply Hhundred|].
  split; [rewrite Hmiss; apply firstn_le_length|].
  split; [rewrite Htot; lia|].
  split; [unfold simplicityBonus; now rewrite Hsimple|].
  split; [rewrite Hval; exact Hgt|].
  intros Hsmall. rewrite Hval. unfold ruleScore, matchRatio. rewrite Hsimple.
  pose proof (count_le _ _ Hm) as Hcm.
  pose proof (count_nonneg (missingFrom userIngredients r)) as Hp.
  destruct Hfive as [_ Hfive]. fold (count (matchedBy userIngredients r)) in Hfive.
  fold (count userIngredients) in Hfive.
  remember (JsNumber.mul (JsNumber.div (count (matchedBy userIngredients r))
                                       (count userIngredients)) 5) as x eqn:Ex.
  clear Ex.
  remember (count (matchedBy userIngredients r)) as m eqn:Em. clear Em.
  remember (count (missingFrom userIngredients r)) as p eqn:Ep. clear Ep.
  set (n := Z.of_nat (length userIngredients)) in *.
  assert (Hcount : (count userIngredients == inject_Z n)%Q) by reflexivity.
  assert (Hn0 : 0 <= n) by (unfold n; lia).
  assert (Hpow : 2 ^ 32 + 2 ^ 32 + 7 < 2 ^ 53) by (vm_compute; reflexivity).
  assert (Hinner : (JsNumber.add (2 * m - 1 * p) x <= inject_Z (2 * n + 5))%Q).
  { unfold JsNumber.add. rewrite <- (round_Z (2 * n + 5)) by lia.
    apply round_le.
    - change 0%Q with (inject_Z 0). rewrite <- Zle_Qle. lia.
    - rewrite inject_Z_plus, inject_Z_mult. rewrite Hcount in Hcm.
      change (inject_Z 2) with 2%Q. change (inject_Z 5) with 5%Q. lra. }
  unfold JsNumber.add at 1.
  apply (Qle_trans _ (inject_Z (2 * n + 7))).
  - rewrite <- (round_Z (2 * n + 7)) by lia.
    apply round_le.
    + change 0%Q with (inject_Z 0). rewrite <- Zle_Qle. lia.
    + replace (2 * n + 7) with ((2 * n + 5) + 2) by lia. rewrite (inject_Z_plus (2 * n + 5) 2).
      change (inject_Z 2) with 2%Q. lra.
  - rewrite inject_Z_plus, inject_Z_mult, Hcount.
    change (inject_Z 2) with 2%Q. change (inject_Z 7) with 7%Q. lra.
Qed.

(** Paneer and tomato against the first recipe of the catalog. *)
Lemma advanced_results_bounds_witness :
  let s := scoreRecipe ["paneer"; "tomato"] paneerButterMasala in
  In (recipe s) recipeDatabase
  /\ matchPercentage s = 100
  /\ (0 < matchScore s)%Q
  /\ (matchScore s <= 11)%Q.
Proof.
  assert (H : In (scoreRecipe ["paneer"; "tomato"] paneerButterMasala)
                 (findRecipesByIngredientsAdvanced ["paneer"; "tomato"] [])).
  { vm_compute. left. reflexivity. }
  destruct (advanced_results_bounds ["paneer"; "tomato"] [] _ ltac:(discriminate) H)
    as (Hdb & _ & _ & Hpct & _ & _ & _ & _ & Hpos & Hle).
  split; [exact Hdb|]. split; [rewrite Hpct; vm_compute; reflexivity|].
  split; [exact Hpos|]. apply Hle. vm_compute. reflexivity.
Defined.

(** X21. The score of a recipe depends on the recipe only through its
    ingredient list: a recipe whose id has no list of its own in the table
    is scored, for every list of user ingredients, exactly as the recipe
    with id 1, whose list it is given. *)
Theorem recipes_without_list_score_alike (userIngredients : list string) (r r' : Recipe) :
  ~ In (id r) ownIngredients ->
  id r' = 1 ->
  let s := scoreRecipe userIngredients r in
  let s' := scoreRecipe userIngredients r' in
  matchScore s = matchScore s'
  /\ matchedIngredients s = matchedIngredients s'
  /\ matchPercentage s = matchPercentage s'
  /\ missingIngredients s = missingIngredients s'
  /\ totalIngredients s = totalIngredients s'.
Proof.
  intros Hown Hid. cbv zeta. unfold scoreRecipe.
  rewrite (getRecipeIngredients_default _ Hown), Hid.
  cbn [matchScore matchedIngredients matchPercentage missingIngredients totalIngredients].
  repeat split.
Qed.

Lemma recipes_without_list_score_alike_witness :
  matchScore (scoreRecipe ["rice"; "carrot"] vegBiryani)
  = matchScore (scoreRecipe ["rice"; "carrot"] paneerButterMasala).
Proof.
  apply (recipes_without_list_score_alike ["rice"; "carrot"] vegBiryani paneerButterMasala).
  - unfold ownIngredients. simpl. intros H. repeat (destruct H as [H|H]; [discriminate H|]). exact H.
  - reflexivity.
Defined.

End AdvancedMatcher.

(** ** The service: the other branches of a search, the other operations *)

Section ServiceBranches.
Import Js Clocked LocalRecipes RecipeService.
Variable clk : nat -> Z.
Variable toDateString : Z -> string.
Variable envKey : option string.
Local Open Scope string_scope.
Local Open Scope Z_scope.

(** On one calendar day, a ledger that has just been written is read back as
    it was written. *)
Lemma ledger_read_back (n k : nat) (st : APIUsageManager.Storage) (d : APIUsageManager.UsageData) :
  APIUsageManager.sameDay clk toDateString ->
  APIUsageManager.date d
  = APIUsageManager.date (result (APIUsageManager.getUsageData clk toDateString n st)) ->
  result (APIUsageManager.getUsageData clk toDateString k
            {| APIUsageManager.slot := APIUsageManager.Parsed d;
               APIUsageManager.writable := true |}) = d.
Proof.
  intros Hday Hdate.
  destruct (getUsageData_date clk toDateString n st) as [i Hi].
  apply getUsageData_stored; [exact Hday|reflexivity|].
  exists i. congruence.
Qed.

(** X22. A search whose key is in the cache and has not expired is answered
    from the cache whatever the credential, the quota and the network: no
    request is sent, [calls] and [errors] stay and [cached] grows by one. *)
Theorem cache_hit_bypasses_gates (query : string) (options : JsObject)
        (net : Response (option (list Recipe))) (n : nat) (w : World) (hit : list Recipe) :
  let probe := CacheManager.get clk (searchKey query options) n (searchCache w) in
  result probe = Some hit ->
  APIUsageManager.sameDay clk toDateString ->
  APIUsageManager.writable (usage w) = true ->
  let r := searchRecipes clk toDateString envKey query options net n w in
  let before := result (APIUsageManager.getUsageData clk toDateString n (usage w)) in
  let after :=
    result (APIUsageManager.getUsageData clk toDateString (readings r) (usage (final r))) in
  result r = Returned hit
  /\ requests (final r) = requests w
  /\ APIUsageManager.calls after = APIUsageManager.calls before
  /\ APIUsageManager.cached after = APIUsageManager.cached before + 1
  /\ APIUsageManager.errors after = APIUsageManager.errors before.
Proof.
  intros probe Hhit Hday Hwr r before after. subst r before after probe.
  pose proof (searchRecipes_hit clk toDateString envKey query options net n w hit) as Hrun.
  cbv zeta in Hrun. specialize (Hrun Hhit). rewrite Hrun. clear Hrun.
  set (k := readings (CacheManager.get clk (searchKey query options) n (searchCache w))).
  destruct (recordCacheHit_run clk toDateString k (usage w))
    as (Hdate & Hcalls & _ & Herr & Hcached & Hfinal).
  rewrite Hwr in Hfinal.
  destruct (getUsageData_counters clk toDateString k n (usage w) Hday) as (Hc & He & Hh & _).
  set (rec := APIUsageManager.recordCacheHit clk toDateString k (usage w)) in *.
  pose proof (ledger_read_back k (readings rec) (usage w) (result rec) Hday Hdate) as Hback.
  change (final (Returned hit, readings rec,
                 {| searchCache := final (CacheManager.get clk (searchKey query options) n (searchCache w));
                    usage := final rec; requests := requests w |}))
    with {| searchCache := final (CacheManager.get clk (searchKey query options) n (searchCache w));
            usage := final rec; requests := requests w |}.
  change (readings (Returned hit, readings rec,
                    {| searchCache := final (CacheManager.get clk (searchKey query options) n (searchCache w));
                       usage := final rec; requests := requests w |}))
    with (readings rec).
  cbn [usage requests]. rewrite Hfinal, Hback, Hcalls, Hcached, Herr, Hc, He, Hh.
  repeat split.
Qed.

(** X23. A search that misses the cache, with a credential and quota left,
    and whose request fails: the failed attempt is counted in [errors] and
    not in [calls], one request has left, nothing enters the cache; the
    status 402 or 429 turns the failure into the result of the local
    search, any other failure is thrown on. *)
Theorem rejected_search (query : string) (options : JsObject)
        (status : option Z) (n : nat) (w : World) :
  let key := searchKey query options in
  let before := result (APIUsageManager.getUsageData clk toDateString n (usage w)) in
  result (CacheManager.get clk key n (searchCache w)) = None ->
  isApiConfigured envKey = true ->
  APIUsageManager.calls before < APIUsageManager.dailyLimit ->
  APIUsageManager.sameDay clk toDateString ->
  APIUsageManager.writable (usage w) = true ->
  let r := searchRecipes clk toDateString envKey query options (Rejected status) n w in
  let after :=
    result (APIUsageManager.getUsageData clk toDateString (readings r) (usage (final r))) in
  (status = Some 402 \/ status = Some 429 ->
   result r = Returned (getLocalRecipes (Some query) options))
  /\ (status <> Some 402 -> status <> Some 429 -> result r = Thrown (HttpError status))
  /\ requests (final r)
     = (requests w ++ [mkRequest "/complexSearch" (searchParams query options)])%list
  /\ APIUsageManager.errors after = APIUsageManager.errors before + 1
  /\ APIUsageManager.calls after = APIUsageManager.calls before
  /\ APIUsageManager.cached after = APIUsageManager.cached before
  /\ CacheManager.map_get key (searchCache (final r)) = None.
Proof.
  intros key before Hmiss Hconf Hquota Hday Hwr r after. subst r before after.
  set (probe := CacheManager.get clk key n (searchCache w)) in *.
  set (gate := APIUsageManager.canMakeCall clk toDateString (readings probe) (usage w)).
  destruct (getUsageData_counters clk toDateString (readings probe) n (usage w) Hday)
    as (Hc0 & _).
  assert (Hgate : result gate = true).
  { unfold gate. rewrite canMakeCall_run. unfold result at 1. cbn [fst].
    rewrite Hc0. apply Z.ltb_lt. exact Hquota. }
  pose proof (searchRecipes_rejected clk toDateString envKey query options status n w) as Hrun.
  cbv zeta in Hrun. fold key in Hrun. fold probe in Hrun. fold gate in Hrun.
  specialize (Hrun Hmiss Hconf Hgate). rewrite Hrun. clear Hrun.
  destruct (recordCall_failure clk toDateString "/complexSearch" (readings gate) (usage w))
    as (Hdate & Hcalls & _ & Herr & Hcached & Hfinal).
  rewrite Hwr in Hfinal.
  destruct (getUsageData_counters clk toDateString (readings gate) n (usage w) Hday)
    as (Hc & He & Hh & _).
  pose proof (get_miss_absent clk key n (searchCache w) Hmiss) as Habsent. fold probe in Habsent.
  set (rec := APIUsageManager.recordCall clk toDateString "/complexSearch" false
                                         (readings gate) (usage w)) in *.
  pose proof (ledger_read_back (readings gate) (readings rec) (usage w) (result rec) Hday Hdate)
    as Hback.
  set (out := if quotaSignal status then Returned (getLocalRecipes (Some query) options)
              else Thrown (HttpError status)).
  set (w' := {| searchCache := final probe; usage := final rec;
                requests := (requests w ++ [mkRequest "/complexSearch" (searchParams query options)])%list |}).
  change (final (out, readings rec, w')) with w'.
  change (readings (out, readings rec, w')) with (readings rec).
  change (result (out, readings rec, w')) with out.
  subst w'. cbn [usage requests searchCache].
  rewrite Hfinal, Hback, Hcalls, Hcached, Herr, Hc, He, Hh.
  split; [|split].
  - intros [-> | ->]; reflexivity.
  - intros H402 H429. unfold out. destruct status as [s|]; [|reflexivity]. simpl.
    destruct (Z.eqb_spec s 402) as [->|_]; [congruence|].
    destruct (Z.eqb_spec s 429) as [->|_]; [congruence|]. reflexivity.
  - repeat split. exact Habsent.
Qed.

(** X24. Without a usable credential, absent, empty, of ten characters or
    fewer, or the placeholder, the operations other than the search reject
    with the configuration error, send nothing and change nothing. *)
Theorem unconfigured_operations_reject {Details Match : Type} (recipeId number : Z)
        (ingredients : list string) (options : JsObject)
        (net1 : Response Details) (net2 : Response (option (list Recipe)))
        (net3 : Response (option (list Match))) (n : nat) (w : World) :
  (envKey = None
   \/ exists k, envKey = Some k /\ ((String.length k <= 10)%nat \/ k = placeholderKey)) ->
  isApiConfigured envKey = false
  /\ getRecipeDetails envKey recipeId net1 n w = (Thrown (NotConfigured notConfiguredMessage), n, w)
  /\ getRandomRecipes envKey number net2 n w = (Thrown (NotConfigured notConfiguredMessage), n, w)
  /\ findRecipesByIngredients envKey ingredients options net3 n w
     = (Thrown (NotConfigured notConfiguredMessage), n, w).
Proof.
  intros Hkey.
  assert (Hconf : isApiConfigured envKey = false).
  { unfold isApiConfigured, API_KEY.
    destruct Hkey as [->|(k & -> & Hk)]; [reflexivity|].
    destruct k as [|c k]; [reflexivity|]. cbn [JsString.nonEmpty].
    destruct Hk as [Hlen| ->]; [|reflexivity].
    replace (10 <? Z.of_nat (String.length (String c k))) with false.
    - now rewrite Bool.andb_false_r.
    - symmetry. apply Z.ltb_ge. lia. }
  unfold getRecipeDetails, getRandomRecipes, findRecipesByIngredients.
  rewrite Hconf. repeat split.
Qed.

End ServiceBranches.

Section SimilarRecipes.
Import Js Clocked LocalRecipes RecipeService.
Local Open Scope string_scope.
Local Open Scope Z_scope.

(** X25. [getSimilarRecipes] never rejects and does not look at the
    credential or at the ledger: the request always leaves, and when it
    fails the answer is the whole catalog, whatever the recipe and the
    number asked for. *)
Theorem getSimilarRecipes_fallback (recipeId number : Z)
        (net : Response (option (list Recipe))) (n : nat) (w : World) :
  let r := getSimilarRecipes recipeId number net n w in
  (forall status, net = Rejected status -> result r = Returned recipeDatabase)
  /\ (forall body, net = Fulfilled body -> result r = Returned (default [] body))
  /\ (forall e, result r <> Thrown e)
  /\ requests (final r)
     = (requests w ++ [mkRequest ("/" +:+ pretty recipeId +:+ "/similar") [("number", JNum number)]])%list
  /\ usage (final r) = usage w
  /\ searchCache (final r) = searchCache w
  /\ readings r = n.
Proof.
  unfold getSimilarRecipes, bind, send, modify, ret, result, final, readings.
  destruct net as [body|status]; cbn [fst snd usage searchCache requests];
    repeat split; try discriminate; try congruence.
Qed.

End SimilarRecipes.

Section ServiceExpiry.
Import Js Clocked LocalRecipes RecipeService.
Variable clk : nat -> Z.
Variable toDateString : Z -> string.
Variable envKey : option string.
Local Open Scope string_scope.
Local Open Scope Z_scope.

(** X26. From a fresh ledger, an empty search cache and a configured
    credential, a search that the network answers and the same search made
    again once the cached entry has expired: the second search goes to the
    network again, returns the new answer and stores it under the key; two
    requests have left, and the ledger is at [calls = 2], [cached = 0]. *)
Theorem expired_entry_is_refetched (query : string) (options : JsObject)
        (body1 body2 : option (list Recipe)) (n : nat) (w0 : World) :
  isApiConfigured envKey = true ->
  searchCache w0 = [] ->
  APIUsageManager.freshLedger (usage w0) ->
  APIUsageManager.writable (usage w0) = true ->
  APIUsageManager.sameDay clk toDateString ->
  let key := searchKey query options in
  let request := mkRequest "/complexSearch" (searchParams query options) in
  let r1 := searchRecipes clk toDateString envKey query options (Fulfilled body1) n w0 in
  (forall item, CacheManager.map_get key (searchCache (final r1)) = Some item ->
                CacheManager.expiresAt item < clk (readings r1)) ->
  let r2 := searchRecipes clk toDateString envKey query options (Fulfilled body2)
                          (readings r1) (final r1) in
  let ledger2 :=
    result (APIUsageManager.getUsageData clk toDateString (readings r2) (usage (final r2))) in
  result r2 = Returned (default [] body2)
  /\ requests (final r2) = (requests w0 ++ [request; request])%list
  /\ APIUsageManager.calls ledger2 = 2
  /\ APIUsageManager.cached ledger2 = 0
  /\ (exists item, CacheManager.map_get key (searchCache (final r2)) = Some item
                   /\ CacheManager.data item = default [] body2)
  /\ CacheManager.size (searchCache (final r2)) = 1.
Proof.
  intros Hconf Hempty Hfresh Hwr Hday key request.
  set (results := default [] body1).
  (* the first call: miss, gate, request, record, store *)
  set (gate := APIUsageManager.canMakeCall clk toDateString n (usage w0)).
  set (rec := APIUsageManager.recordCall clk toDateString "/complexSearch" true
                                         (readings gate) (usage w0)).
  set (m := readings rec).
  set (item := {| CacheManager.data := results;
                  CacheManager.expiresAt := clk m + CacheManager.SEARCH_RESULTS;
                  CacheManager.lastAccessed := clk (1 + m)%nat;
                  CacheManager.createdAt := clk (2 + m)%nat |}).
  set (u1 := {| APIUsageManager.slot := APIUsageManager.Parsed (result rec);
                APIUsageManager.writable := true |}).
  assert (Hgate : result gate = true).
  { unfold gate. rewrite canMakeCall_run. unfold result at 1. simpl.
    destruct (getUsageData_fresh clk toDateString n (usage w0) Hfresh) as [-> _].
    reflexivity. }
  destruct (recordCall_success clk toDateString "/complexSearch" (readings gate) (usage w0))
    as (Hdate1 & Hcalls1 & _ & _ & Hcached1 & Hfinal1).
  fold rec in Hdate1, Hcalls1, Hcached1, Hfinal1.
  destruct (getUsageData_fresh clk toDateString (readings gate) (usage w0) Hfresh)
    as [Hc0 Hh0].
  rewrite Hc0 in Hcalls1. rewrite Hh0 in Hcached1. rewrite Hwr in Hfinal1. fold u1 in Hfinal1.
  assert (Hrun1 : searchRecipes clk toDateString envKey query options (Fulfilled body1) n w0
                  = (Returned results, (3 + m)%nat,
                     {| searchCache := [(key, item)]; usage := u1;
                        requests := (requests w0 ++ [request])%list |})).
  { pose proof (searchRecipes_fulfilled clk toDateString envKey query options body1 n w0) as H.
    cbv zeta in H. rewrite Hempty in H.
    rewrite H; [|reflexivity|exact Hconf|exact Hgate].
    fold key results.
    change (readings (CacheManager.get clk key n [])) with n.
    change (final (CacheManager.get clk key n [])) with (@nil (string * @CacheManager.CacheItem (list Recipe))).
    fold gate. fold rec. fold m. rewrite Hfinal1, set_run. reflexivity. }
  set (w1 := {| searchCache := [(key, item)]; usage := u1;
                requests := (requests w0 ++ [request])%list |}) in *.
  set (n1 := (3 + m)%nat) in *.
  intros r1 Hexpired. subst r1. rewrite Hrun1 in Hexpired |- *.
  change (readings (Returned results, n1, w1)) with n1 in *.
  change (final (Returned results, n1, w1)) with w1 in *.
  assert (Hlate : (clk n1 >? CacheManager.expiresAt item) = true).
  { rewrite Z.gtb_ltb. apply Z.ltb_lt. apply Hexpired.
    unfold w1. simpl. now rewrite String.eqb_refl. }
  clear Hexpired.
  (* the second call: expired entry, gate, request, record, store *)
  assert (Hprobe2 : CacheManager.get clk key n1 (searchCache w1)
                    = (None, S n1, [])).
  { rewrite get_run. unfold w1. cbn [searchCache CacheManager.map_get find fst snd].
    rewrite String.eqb_refl. cbn [option_map snd]. rewrite Hlate.
    unfold CacheManager.map_delete. cbn [List.filter fst]. now rewrite String.eqb_refl. }
  assert (Hread1 : forall k, result (APIUsageManager.getUsageData clk toDateString k u1) = result rec).
  { intros k. apply (ledger_read_back clk toDateString (readings gate) k (usage w0)); assumption. }
  set (gate2 := APIUsageManager.canMakeCall clk toDateString (S n1) u1).
  assert (Hgate2 : result gate2 = true).
  { unfold gate2. rewrite canMakeCall_run. unfold result at 1. cbn [fst].
    rewrite Hread1, Hcalls1. reflexivity. }
  set (rec2 := APIUsageManager.recordCall clk toDateString "/complexSearch" true
                                          (readings gate2) u1).
  destruct (recordCall_success clk toDateString "/complexSearch" (readings gate2) u1)
    as (Hdate2 & Hcalls2 & _ & _ & Hcached2 & Hfinal2).
  fold rec2 in Hdate2, Hcalls2, Hcached2, Hfinal2.
  rewrite Hread1 in Hdate2, Hcalls2, Hcached2. cbn [APIUsageManager.writable u1] in Hfinal2.
  set (m2 := readings rec2).
  set (item2 := {| CacheManager.data := default [] body2;
                   CacheManager.expiresAt := clk m2 + CacheManager.SEARCH_RESULTS;
                   CacheManager.lastAccessed := clk (1 + m2)%nat;
                   CacheManager.createdAt := clk (2 + m2)%nat |}).
  assert (Hrun2 : searchRecipes clk toDateString envKey query options (Fulfilled body2) n1 w1
                  = (Returned (default [] body2), (3 + m2)%nat,
                     {| searchCache := [(key, item2)]; usage := final rec2;
                        requests := (requests w1 ++ [request])%list |})).
  { pose proof (searchRecipes_fulfilled clk toDateString envKey query options body2 n1 w1) as H.
    cbv zeta in H. fold key in H. rewrite Hprobe2 in H.
    change (readings (@None (list Recipe), S n1, @nil (string * @CacheManager.CacheItem (list Recipe))))
      with (S n1) in H.
    change (final (@None (list Recipe), S n1, @nil (string * @CacheManager.CacheItem (list Recipe))))
      with (@nil (string * @CacheManager.CacheItem (list Recipe))) in H.
    change (usage w1) with u1 in H. fold gate2 in H. fold rec2 in H. fold m2 in H.
    rewrite H; [|reflexivity|exact Hconf|exact Hgate2].
    rewrite set_run. reflexivity. }
  assert (Hread2 : forall k, result (APIUsageManager.getUsageData clk toDateString k (final rec2))
                             = result rec2).
  { intros k. rewrite Hfinal2.
    apply (ledger_read_back clk toDateString (readings gate) k (usage w0)); [exact Hday|].
    congruence. }
  intros r2 ledger2. subst ledger2 r2. rewrite Hrun2.
  set (w2 := {| searchCache := [(key, item2)]; usage := final rec2;
                requests := (requests w1 ++ [request])%list |}).
  change (result (Returned (default [] body2), (3 + m2)%nat, w2)) with (Returned (default [] body2)).
  change (readings (Returned (default [] body2), (3 + m2)%nat, w2)) with (3 + m2)%nat.
  change (final (Returned (default [] body2), (3 + m2)%nat, w2)) with w2.
  unfold w2. cbn [usage requests searchCache].
  rewrite Hread2, Hcalls2, Hcached2, Hcalls1, Hcached1.
  split; [reflexivity|]. split.
  { unfold w1. cbn [requests]. now rewrite <- app_assoc. }
  split; [reflexivity|]. split; [reflexivity|]. split; [|reflexivity].
  exists item2. split; [|reflexivity].
  simpl. now rewrite String.eqb_refl.
Qed.

End ServiceExpiry.

(** ** The key of a search whose options carry a query of their own *)

Section QueryOption.
Import JsString Js Clocked LocalRecipes RecipeService.
Local Open Scope string_scope.

Lemma obj_has_app (k : string) (o1 o2 : JsObject) :
  obj_has k (o1 ++ o2)%list = obj_has k o1 || obj_has k o2.
Proof. unfold obj_has. apply existsb_app. Qed.

Lemma obj_replace_has (k k' : string) (v : JsValue) (o : JsObject) :
  obj_has k' (obj_replace k v o) = obj_has k' o.
Proof.
  induction o as [|[k0 v0] o IH]; [reflexivity|].
  cbn [obj_replace]. destruct (String.eqb k k0); [reflexivity|].
  unfold obj_has in *. cbn [existsb fst]. now rewrite IH.
Qed.

Lemma obj_replace_app (k : string) (v : JsValue) (o1 o2 : JsObject) :
  obj_replace k v (o1 ++ o2)%list
  = (if obj_has k o1 then obj_replace k v o1 ++ o2 else o1 ++ obj_replace k v o2)%list.
Proof.
  induction o1 as [|[k0 v0] o1 IH]; [reflexivity|].
  cbn [obj_replace app]. unfold obj_has. cbn [existsb fst].
  destruct (String.eqb k k0); [reflexivity|]. cbn [orb].
  rewrite IH. unfold obj_has. now destruct (existsb _ o1).
Qed.

Lemma obj_add_index_app (i : N) (k q : string) (v a : JsValue) (o1 o2 : JsObject) :
  array_index q = None ->
  obj_add_index i k v (o1 ++ (q, a) :: o2)%list = (obj_add_index i k v o1 ++ (q, a) :: o2)%list.
Proof.
  intros Hq. induction o1 as [|[k0 v0] o1 IH].
  - cbn [app obj_add_index]. now rewrite Hq.
  - cbn [app obj_add_index]. destruct (array_index k0) as [j|]; [|reflexivity].
    destruct (j <? i)%N; [|reflexivity]. now rewrite IH.
Qed.

Lemma obj_add_index_has (i : N) (k k' : string) (v : JsValue) (o : JsObject) :
  k' <> k -> obj_has k' (obj_add_index i k v o) = obj_has k' o.
Proof.
  intros Hne. apply String.eqb_neq in Hne.
  induction o as [|[k0 v0] o IH].
  - unfold obj_has. cbn [obj_add_index existsb fst]. now rewrite Hne.
  - cbn [obj_add_index]. unfold obj_has in *.
    destruct (array_index k0) as [j|].
    + destruct (j <? i)%N; cbn [existsb fst]; [now rewrite IH|now rewrite Hne].
    + cbn [existsb fst]. now rewrite Hne.
Qed.

(** Two objects that differ in the value of one property, which is not an
    array index, still differ in that value only after another property has
    been set in both. *)
Lemma obj_set_other (q k : string) (a b v : JsValue) (pre post : JsObject) :
  array_index q = None ->
  obj_has q pre = false ->
  k <> q ->
  exists pre' post',
    obj_set k v (pre ++ (q, a) :: post)%list = (pre' ++ (q, a) :: post')%list
    /\ obj_set k v (pre ++ (q, b) :: post)%list = (pre' ++ (q, b) :: post')%list
    /\ obj_has q pre' = false.
Proof.
  intros Hq Hpre Hne.
  assert (Hkq : String.eqb k q = false) by now apply String.eqb_neq.
  assert (Hhas : forall c, obj_has k (pre ++ (q, c) :: post)%list = obj_has k pre || obj_has k post).
  { intros c. rewrite obj_has_app. unfold obj_has at 2. cbn [existsb fst]. now rewrite Hkq. }
  unfold obj_set. rewrite !Hhas.
  destruct (obj_has k pre) eqn:Hin1; cbn [orb].
  - exists (obj_replace k v pre), post. rewrite !obj_replace_app, Hin1.
    repeat split. now rewrite obj_replace_has.
  - destruct (obj_has k post) eqn:Hin2.
    + exists pre, (obj_replace k v post). rewrite !obj_replace_app, Hin1.
      cbn [obj_replace]. rewrite Hkq. repeat split. exact Hpre.
    + destruct (array_index k) as [i|].
      * exists (obj_add_index i k v pre), post. rewrite !obj_add_index_app by exact Hq.
        repeat split. rewrite obj_add_index_has; [exact Hpre|congruence].
      * exists pre, (post ++ [(k, v)])%list. rewrite <- !app_assoc. repeat split. exact Hpre.
Qed.

(** Setting the property itself makes the two objects equal. *)
Lemma obj_set_same (q : string) (a b v : JsValue) (pre post : JsObject) :
  obj_has q pre = false ->
  obj_set q v (pre ++ (q, a) :: post)%list = obj_set q v (pre ++ (q, b) :: post)%list.
Proof.
  intros Hpre. unfold obj_set.
  assert (Hhas : forall c, obj_has q (pre ++ (q, c) :: post)%list = true).
  { intros c. rewrite obj_has_app. unfold obj_has at 2. cbn [existsb fst].
    rewrite String.eqb_refl. apply Bool.orb_true_r. }
  rewrite !Hhas, !obj_replace_app, Hpre. cbn [obj_replace]. now rewrite String.eqb_refl.
Qed.

Lemma spread_shadowed (q : string) (a b : JsValue) (o : JsObject) (pre post : JsObject) :
  array_index q = None ->
  obj_has q pre = false ->
  obj_has q o = true ->
  spread (pre ++ (q, a) :: post)%list o = spread (pre ++ (q, b) :: post)%list o.
Proof.
  intros Hq. revert pre post.
  induction o as [|[k v] o IH]; intros pre post Hpre Ho; [discriminate Ho|].
  unfold spread in *. cbn [fold_left fst snd].
  destruct (String.eqb_spec q k) as [<-|Hne].
  - now rewrite (obj_set_same q a b v pre post Hpre).
  - unfold obj_has in Ho. cbn [existsb fst] in Ho.
    apply String.eqb_neq in Hne. rewrite Hne in Ho. cbn [orb] in Ho.
    apply String.eqb_neq in Hne.
    destruct (obj_set_other q k a b v pre post Hq Hpre) as (pre' & post' & -> & -> & Hpre');
      [congruence|].
    now apply IH.
Qed.

(** X27. When the options of a search have a property [query] of their
    own, the cache key is built from that property and not from the query
    that is searched: two searches for different queries with the same such
    options share one cache key, although the requests they send carry
    their own queries. *)
Theorem query_option_shadows_query (query1 query2 : string) (options : JsObject) :
  obj_has "query" options = true ->
  searchKey query1 options = searchKey query2 options
  /\ obj_get "query" (searchParams query1 options)
     = (if nonEmpty query1 then JStr query1 else JUndefined)
  /\ obj_get "query" (searchParams query2 options)
     = (if nonEmpty query2 then JStr query2 else JUndefined).
Proof.
  intros Hhas.
  assert (Hq : array_index "query" = None) by reflexivity.
  split; [|split; reflexivity].
  unfold searchKey. f_equal.
  apply (spread_shadowed "query" (JStr query1) (JStr query2) options [] [] Hq eq_refl Hhas).
Qed.

Lemma query_option_shadows_query_witness :
  searchKey "pasta" [("query", JStr "soup"); ("number", JNum 5)]
  = searchKey "pizza" [("query", JStr "soup"); ("number", JNum 5)].
Proof.
  apply (query_option_shadows_query "pasta" "pizza" [("query", JStr "soup"); ("number", JNum 5)]).
  reflexivity.
Defined.

End QueryOption.

(** ** The properties above on concrete runs *)

Section MoreExamples.
Import Js Clocked LocalRecipes RecipeService Scenario.
Local Open Scope string_scope.
Local Open Scope Z_scope.

Lemma leaping_sameDay (leap : nat) : APIUsageManager.sameDay (leaping t0 leap) dayString.
Proof.
  assert (H : forall k, leaping t0 leap k / msPerDay = 19675).
  { intros k. unfold leaping. symmetry.
    destruct (leap <=? k)%nat.
    - apply (Z.div_unique _ _ _ (83600000 + Z.of_nat (Nat.min k 1000)));
        unfold t0, msPerDay; lia.
    - apply (Z.div_unique _ _ _ (80000000 + Z.of_nat (Nat.min k 1000)));
        unfold t0, msPerDay; lia. }
  intros i j. unfold dayString. now rewrite !H.
Qed.

Lemma set_then_get_witness :
  result (CacheManager.get (ticking t0) "k100" 900%nat
            (final (CacheManager.set (ticking t0) "k100" 7%nat 1000 500%nat fullCache)))
  = Some 7%nat.
Proof.
  apply (set_then_get (ticking t0) "k100" 7%nat 1000 500%nat 900%nat fullCache).
  vm_compute. discriminate.
Defined.

Lemma set_then_expired_witness :
  let s := CacheManager.set (leaping t0 3) "pasta" 7%nat 1000 0%nat [] in
  result (CacheManager.get (leaping t0 3) "pasta" 3%nat (final s)) = None
  /\ CacheManager.size (final (CacheManager.get (leaping t0 3) "pasta" 3%nat (final s)))
     = CacheManager.size (final s) - 1.
Proof.
  destruct (set_then_expired (leaping t0 3) "pasta" 7%nat 1000 0%nat 3%nat [])
    as (Hmiss & _ & _ & Hsize).
  - vm_compute. reflexivity.
  - split; [exact Hmiss|]. apply Hsize. apply empty_ok.
Defined.

Lemma get_leaves_other_keys_witness :
  CacheManager.map_get "k7" (final (CacheManager.get (ticking t0) "k5" 400%nat fullCache))
  = CacheManager.map_get "k7" fullCache.
Proof.
  apply (get_leaves_other_keys (ticking t0) "k5" "k7" 400%nat fullCache).
  discriminate.
Defined.

Lemma set_leaves_other_keys_witness :
  CacheManager.map_get "pasta"
    (final (CacheManager.set (ticking t0) "pizza" 2%nat 1000 3%nat
              (final (CacheManager.set (ticking t0) "pasta" 1%nat 1000 0%nat []))))
  = CacheManager.map_get "pasta" (final (CacheManager.set (ticking t0) "pasta" 1%nat 1000 0%nat [])).
Proof.
  apply (set_leaves_other_keys (ticking t0) "pizza" "pasta" 2%nat 1000 3%nat).
  - vm_compute. reflexivity.
  - discriminate.
Defined.

Lemma recordAll_accumulates_witness :
  let r := APIUsageManager.recordAll (burst t0) dayString "/complexSearch" [true; false; true]
                                     0%nat emptyStorage in
  APIUsageManager.calls
    (result (APIUsageManager.getUsageData (burst t0) dayString (readings r) (final r)))
  = APIUsageManager.calls
      (result (APIUsageManager.getUsageData (burst t0) dayString 0%nat emptyStorage))
    + APIUsageManager.successes [true; false; true]
  /\ default 0 (APIUsageManager.endpoints
                  (result (APIUsageManager.getUsageData (burst t0) dayString (readings r) (final r)))
                !! "/complexSearch")
     = default 0 (APIUsageManager.endpoints
                    (result (APIUsageManager.getUsageData (burst t0) dayString 0%nat emptyStorage))
                  !! "/complexSearch")
       + APIUsageManager.successes [true; false; true].
Proof.
  destruct (recordAll_accumulates (burst t0) dayString "/complexSearch" [true; false; true]
                                  0%nat emptyStorage burst_sameDay eq_refl)
    as (Hcalls & _ & _ & Hcount & _).
  split; [exact Hcalls|]. apply Hcount. reflexivity.
Defined.

Lemma unwritable_storage_keeps_ledger_witness :
  let called := APIUsageManager.recordCall (burst t0) dayString "/complexSearch" true 0%nat
                                           readOnlyStorage in
  final called = readOnlyStorage
  /\ APIUsageManager.calls (result called)
     = APIUsageManager.calls
         (result (APIUsageManager.getUsageData (burst t0) dayString 0%nat readOnlyStorage)) + 1.
Proof.
  destruct (unwritable_storage_keeps_ledger (burst t0) dayString "/complexSearch" true 0%nat
                                            readOnlyStorage eq_refl)
    as (Hfinal & _ & _ & _ & _ & _ & Hcalls & _).
  split; [exact Hfinal|exact Hcalls].
Defined.

Lemma resetUsage_clears_witness :
  APIUsageManager.calls
    (result (APIUsageManager.getUsageData (burst t0) dayString 5%nat
               (final (APIUsageManager.resetUsage (burst t0) dayString 0%nat exhaustedStorage))))
  = 0.
Proof.
  apply (resetUsage_clears (burst t0) dayString 0%nat 5%nat exhaustedStorage burst_sameDay).
  reflexivity.
Defined.

Lemma usage_trends_bounds_witness :
  0 <= APIUsageManager.cacheEfficiency
         (result (APIUsageManager.getUsageTrends (burst t0) dayString 0%nat exhaustedStorage))
    <= 100.
Proof.
  apply (usage_trends_bounds (burst t0) dayString 0%nat exhaustedStorage).
  - vm_compute. discriminate.
  - vm_compute. discriminate.
Defined.

Lemma cache_hit_bypasses_gates_witness :
  let r := searchRecipes (burst t0) dayString None "pasta" [("number", JNum 5)]
                         (Rejected None) 10%nat warmWorld in
  result r = Returned (firstn 5 recipeDatabase) /\ requests (final r) = requests warmWorld.
Proof.
  assert (Hhit : result (CacheManager.get (burst t0) (searchKey "pasta" [("number", JNum 5)])
                                          10%nat (searchCache warmWorld))
                 = Some (firstn 5 recipeDatabase)).
  { vm_compute. reflexivity. }
  assert (Hwr : APIUsageManager.writable (usage warmWorld) = true).
  { vm_compute. reflexivity. }
  destruct (cache_hit_bypasses_gates (burst t0) dayString None "pasta" [("number", JNum 5)]
              (Rejected None) 10%nat warmWorld (firstn 5 recipeDatabase) Hhit burst_sameDay Hwr)
    as (H1 & H2 & _).
  split; [exact H1|exact H2].
Defined.

Lemma rejected_search_witness :
  let r := searchRecipes (burst t0) dayString someKey "pasta" [("number", JNum 5)]
                         (Rejected (Some 429)) 0%nat freshWorld in
  result r = Returned (getLocalRecipes (Some "pasta") [("number", JNum 5)]).
Proof.
  assert (Hmiss : result (CacheManager.get (burst t0) (searchKey "pasta" [("number", JNum 5)])
                                           0%nat (searchCache freshWorld)) = None).
  { reflexivity. }
  assert (Hconf : isApiConfigured someKey = true) by (vm_compute; reflexivity).
  assert (Hquota : APIUsageManager.calls
                     (result (APIUsageManager.getUsageData (burst t0) dayString 0%nat
                                                           (usage freshWorld)))
                   < APIUsageManager.dailyLimit) by (vm_compute; reflexivity).
  assert (Hwr : APIUsageManager.writable (usage freshWorld) = true) by reflexivity.
  destruct (rejected_search (burst t0) dayString someKey "pasta" [("number", JNum 5)]
              (Some 429) 0%nat freshWorld Hmiss Hconf Hquota burst_sameDay Hwr)
    as (H1 & _).
  apply H1. right. reflexivity.
Defined.

Lemma unconfigured_operations_reject_witness :
  getRandomRecipes (Some "short") 3 (Fulfilled (Some (firstn 3 recipeDatabase))) 0%nat freshWorld
  = (Thrown (NotConfigured notConfiguredMessage), 0%nat, freshWorld).
Proof.
  assert (Hkey : Some "short" = None
                 \/ exists k, Some "short" = Some k
                              /\ ((String.length k <= 10)%nat \/ k = placeholderKey)).
  { right. exists "short". split; [reflexivity|]. left. simpl. lia. }
  destruct (@unconfigured_operations_reject (Some "short") unit unit 1 3 [] []
              (Rejected None) (Fulfilled (Some (firstn 3 recipeDatabase))) (Rejected None)
              0%nat freshWorld Hkey)
    as (_ & _ & H & _).
  exact H.
Defined.

Lemma expired_entry_is_refetched_witness :
  let r1 := searchRecipes (leaping t0 7) dayString someKey "pasta" [("number", JNum 5)]
                          (Fulfilled (Some (firstn 5 recipeDatabase))) 0%nat freshWorld in
  let r2 := searchRecipes (leaping t0 7) dayString someKey "pasta" [("number", JNum 5)]
                          (Fulfilled (Some (firstn 3 recipeDatabase))) (readings r1) (final r1) in
  result r2 = Returned (firstn 3 recipeDatabase)
  /\ APIUsageManager.calls
       (result (APIUsageManager.getUsageData (leaping t0 7) dayString (readings r2)
                                             (usage (final r2)))) = 2.
Proof.
  assert (Hconf : isApiConfigured someKey = true) by (vm_compute; reflexivity).
  assert (Hfresh : APIUsageManager.freshLedger (usage freshWorld)) by (vm_compute; exact I).
  assert (Hexp : forall item,
             CacheManager.map_get (searchKey "pasta" [("number", JNum 5)])
               (searchCache
                  (final (searchRecipes (leaping t0 7) dayString someKey "pasta" [("number", JNum 5)]
                            (Fulfilled (Some (firstn 5 recipeDatabase))) 0%nat freshWorld)))
             = Some item ->
             CacheManager.expiresAt item
             < leaping t0 7
                 (readings (searchRecipes (leaping t0 7) dayString someKey "pasta" [("number", JNum 5)]
                              (Fulfilled (Some (firstn 5 recipeDatabase))) 0%nat freshWorld))).
  { intros item Hitem. vm_compute in Hitem. injection Hitem as <-. vm_compute. reflexivity. }
  destruct (expired_entry_is_refetched (leaping t0 7) dayString someKey "pasta" [("number", JNum 5)]
              (Some (firstn 5 recipeDatabase)) (Some (firstn 3 recipeDatabase)) 0%nat freshWorld
              Hconf eq_refl Hfresh eq_refl (leaping_sameDay 7) Hexp)
    as (H1 & _ & H2 & _).
  split; [exact H1|exact H2].
Defined.

End MoreExamples.
